(** * SyncManager: pairing and deploy state machine

    A shallow embedding of [src/SyncManager.js] (the TypeScript class
    [SyncManager]) and the properties of its state machine.

    The class is an [EventEmitter] whose methods are [async]: they suspend
    at every [await] and the surroundings act while they are suspended.
    The embedding makes this explicit:

    - the manager's fields, the notifications it has emitted and the
      requests it has issued form a [World];
    - everything outside the class (the HTTP services, the file system,
      the child process, the registered observers, and a caller invoking
      [stop()] while a method is suspended) is an [Env], a family of
      oracles indexed by the number of [await]s completed so far;
    - a method is a function [World -> Res A * World]: a state and
      exception monad in which [try]/[catch] is a combinator.

    JavaScript numbers are restricted to the integers ([Z]): every number
    the class handles is a counter, a duration or the pairing code. *)

From Stdlib Require Import ZArith List String Ascii Bool Lia Arith RelationClasses.
Import ListNotations.

Local Open Scope string_scope.
Local Open Scope Z_scope.

Set Implicit Arguments.

(* ================================================================== *)
(** ** Data model *)

(** [type SyncState]. *)
Inductive SyncState : Type :=
| idle | searching | connected | listening | deploying | error.

Definition SyncState_eqb (a b : SyncState) : bool :=
  match a, b with
  | idle, idle | searching, searching | connected, connected
  | listening, listening | deploying, deploying | error, error => true
  | _, _ => false
  end.

(** [interface SyncConfig]. *)
Record SyncConfig : Type := mkConfig {
  maxRetries : Z;
  retryIntervalMs : Z;
  connectionTimeoutMs : Z;
  internalCode : Z;
  pingUrl : string;
  botsFilesUrls : list string;
  botsExecCommand : string;
  deployPath : string
}.

(** [Partial<SyncConfig>]: every field may be absent. *)
Record PartialConfig : Type := mkPartial {
  p_maxRetries : option Z;
  p_retryIntervalMs : option Z;
  p_connectionTimeoutMs : option Z;
  p_internalCode : option Z;
  p_pingUrl : option string;
  p_botsFilesUrls : option (list string);
  p_botsExecCommand : option string;
  p_deployPath : option string
}.

(** [interface SyncManagerOptions]; [config] is optional. *)
Record SyncManagerOptions : Type := mkOptions {
  botId : string;
  teraboxBaseUrl : string;
  opt_config : option PartialConfig
}.

(** Parsed JSON, as [response.json()] resolves to it.  An object is its
    list of own properties, looked up by name. *)
#[local] Set Warnings "-register-all".
Inductive JSON : Type :=
| JNull
| JBool (b : bool)
| JNumber (z : Z)
| JString (s : string)
| JArray (items : list JSON)
| JObject (fields : list (string * JSON)).

(** The values [typeof] can return on what the class inspects. *)
Inductive JsType : Type :=
| TUndefined | TObject | TBoolean | TNumber | TString.

Definition JsType_eqb (a b : JsType) : bool :=
  match a, b with
  | TUndefined, TUndefined | TObject, TObject | TBoolean, TBoolean
  | TNumber, TNumber | TString, TString => true
  | _, _ => false
  end.

(** A value that was thrown or that a promise was rejected with. *)
Inductive Exn : Type :=
| JsError (message : string).

(** Notifications: the first argument of [emit] with its payload. *)
Inductive Event : Type :=
| Ev_stateChange (s : SyncState)
| Ev_attempt (n : Z)
| Ev_retrying (n : Z)
| Ev_gemeloFound (peer : string)
| Ev_connected
| Ev_listening
| Ev_waitingDeploySignal
| Ev_deploySignalReceived
| Ev_deploySignalTimeout
| Ev_deployStart
| Ev_downloadStart (fileUrl : string)
| Ev_downloadComplete (filename : string)
| Ev_deployFilesWritten
| Ev_execStart (cmd : string)
| Ev_execSuccess (stdout : string)
| Ev_execError (err : Exn) (stderr : string)
| Ev_deploySuccess
| Ev_wokeGemelo
| Ev_error (cause : Exn).

(** A promise's outcome. *)
Inductive Settled (A : Type) : Type :=
| Resolved (a : A)
| Rejected (e : Exn).
Arguments Rejected {A} e.

(** What [fetch] resolves to: the [ok] flag and what reading the body as
    JSON or as text will give. *)
Record Response : Type := mkResponse {
  ok : bool;
  json_body : Settled JSON;
  text_body : Settled string
}.

(** The requests the class issues to its surroundings, in the order in
    which they are recorded in [io]. *)
Inductive Request : Type :=
| HttpGet (url : string)
| HttpGetAbortable (url : string) (timeoutMs : Z)
| HttpPost (url : string) (body : JSON)
| Mkdir (path : string)
| WriteFile (path : string) (data : string)
| Exec (cmd : string) (cwd : string)
| Sleep (ms : Z).

(** The callback arguments of [child_process.exec]. *)
Inductive ExecResult : Type :=
| ExecOk (stdout : string)
| ExecFailed (err : Exn) (stderr : string).

(** The surroundings.  [tick] arguments count completed [await]s.
    - [http t url]: how the request issued at tick [t] settles;
    - [fs t]: whether the file-system call issued at tick [t] fails;
    - [child t]: how the child process started at tick [t] ends;
    - [stops t]: whether a caller invokes [stop()] while the manager is
      suspended in the [await] issued at tick [t];
    - [throws n ev]: whether an observer throws when [ev] is emitted as
      the [n]-th notification (an [EventEmitter] calls its listeners
      synchronously, so their exception leaves [emit]; Node also throws
      from [emit("error", e)] when no listener is registered);
    - [basename], [resolve]: Node's [path.basename] and [path.resolve]. *)
Record Env : Type := mkEnv {
  http : nat -> string -> Settled Response;
  fs : nat -> option Exn;
  child : nat -> ExecResult;
  stops : nat -> bool;
  throws : nat -> Event -> option Exn;
  basename : string -> string;
  resolve : string -> string -> string
}.

(** The manager and what it has done so far.  [assigns] is a ghost field:
    the values assigned to [this.state], oldest first. *)
Record World : Type := mkWorld {
  state : SyncState;
  retries : Z;
  config : SyncConfig;
  options : SyncManagerOptions;
  isStopped : bool;
  log : list Event;
  io : list Request;
  tick : nat;
  assigns : list SyncState
}.

(* ================================================================== *)
(** ** The monad of methods *)

(** Why a computation did not finish: the model's loop budget ran out, or
    an exception was thrown where no promise catches it (inside the
    [exec] callback). *)
Inductive Halted : Type :=
| OutOfFuel
| Uncaught (e : Exn).

Inductive Res (A : Type) : Type :=
| Ok (a : A)
| Throw (e : Exn)
| Halt (h : Halted).
Arguments Throw {A} e.
Arguments Halt {A} h.

Definition M (A : Type) : Type := World -> Res A * World.

Definition ret {A} (a : A) : M A := fun w => (Ok a, w).

Definition bind {A B} (m : M A) (f : A -> M B) : M B :=
  fun w =>
    match m w with
    | (Ok a, w1) => f a w1
    | (Throw e, w1) => (Throw e, w1)
    | (Halt h, w1) => (Halt h, w1)
    end.

Definition throw {A} (e : Exn) : M A := fun w => (Throw e, w).

(** [try { m } catch (error) { handler error }]. *)
Definition try_catch {A} (m : M A) (handler : Exn -> M A) : M A :=
  fun w =>
    match m w with
    | (Throw e, w1) => handler e w1
    | r => r
    end.

Definition gets {A} (f : World -> A) : M A := fun w => (Ok (f w), w).

Declare Scope js_scope.
Delimit Scope js_scope with js.
Notation "x <- m ;; k" := (bind m (fun x => k))
  (at level 61, m at next level, right associativity) : js_scope.
Notation "m ;; k" := (bind m (fun _ => k))
  (at level 61, right associativity) : js_scope.
Local Open Scope js_scope.

(** Field assignments. *)
Definition set_state (s : SyncState) : M unit := fun w =>
  (Ok tt, mkWorld s (retries w) (config w) (options w) (isStopped w)
                  (log w) (io w) (tick w) (assigns w ++ [s])).

Definition set_retries (r : Z) : M unit := fun w =>
  (Ok tt, mkWorld (state w) r (config w) (options w) (isStopped w)
                  (log w) (io w) (tick w) (assigns w)).

Definition set_isStopped (b : bool) : M unit := fun w =>
  (Ok tt, mkWorld (state w) (retries w) (config w) (options w) b
                  (log w) (io w) (tick w) (assigns w)).

Definition record_event (ev : Event) (w : World) : World :=
  mkWorld (state w) (retries w) (config w) (options w) (isStopped w)
          (log w ++ [ev]) (io w) (tick w) (assigns w).

Definition record_request (rq : Request) (w : World) : World :=
  mkWorld (state w) (retries w) (config w) (options w) (isStopped w)
          (log w) (io w ++ [rq]) (tick w) (assigns w).

Definition next_tick (w : World) : World :=
  mkWorld (state w) (retries w) (config w) (options w) (isStopped w)
          (log w) (io w) (S (tick w)) (assigns w).

(* ================================================================== *)
(** ** Inspecting parsed data *)

Fixpoint lookup_field (name : string) (fields : list (string * JSON))
  : option JSON :=
  match fields with
  | [] => None
  | (k, v) :: rest => if String.eqb k name then Some v else lookup_field name rest
  end.

(** [obj.name]: [None] is [undefined].  Arrays and primitive values have
    none of the properties the class reads. *)
Definition prop (obj : JSON) (name : string) : option JSON :=
  match obj with
  | JObject fields => lookup_field name fields
  | _ => None
  end.

(** [typeof v]; note [typeof null === "object"]. *)
Definition typeof (v : option JSON) : JsType :=
  match v with
  | None => TUndefined
  | Some JNull => TObject
  | Some (JBool _) => TBoolean
  | Some (JNumber _) => TNumber
  | Some (JString _) => TString
  | Some (JArray _) => TObject
  | Some (JObject _) => TObject
  end.

Definition is_null (v : JSON) : bool :=
  match v with JNull => true | _ => false end.

(** Truthiness, as [body && ...] tests it. *)
Definition truthy (v : JSON) : bool :=
  match v with
  | JNull => false
  | JBool b => b
  | JNumber z => negb (Z.eqb z 0)
  | JString s => negb (String.eqb s "")
  | JArray _ => true
  | JObject _ => true
  end.

(** [function isSyncData(obj)]. *)
Definition isSyncData (obj : JSON) : bool :=
  negb (is_null obj) &&
  JsType_eqb (typeof (Some obj)) TObject &&
  JsType_eqb (typeof (prop obj "internalCode")) TNumber &&
  JsType_eqb (typeof (prop obj "botId")) TString.

(** [v === n] for a number [n]. *)
Definition strict_eq_number (v : option JSON) (n : Z) : bool :=
  match v with Some (JNumber z) => Z.eqb z n | _ => false end.

(** [v !== s] for a string [s]. *)
Definition strict_neq_string (v : option JSON) (s : string) : bool :=
  match v with Some (JString t) => negb (String.eqb t s) | _ => true end.

(** [v === true]. *)
Definition strict_eq_true (v : option JSON) : bool :=
  match v with Some (JBool true) => true | _ => false end.

(** The string carried by a value already known to be one. *)
Definition as_string (v : option JSON) : string :=
  match v with Some (JString s) => s | _ => "" end.

(* ================================================================== *)
(** ** Construction *)

(** The literal the constructor spreads [options.config] over. *)
Definition defaults : SyncConfig :=
  {| maxRetries := 5;
     retryIntervalMs := 7000;
     connectionTimeoutMs := 8000;
     internalCode := 720;
     pingUrl := "";
     botsFilesUrls := [];
     botsExecCommand := "node bot.js";
     deployPath := "./deployedBots" |}.

Definition or_default {A} (o : option A) (d : A) : A :=
  match o with Some a => a | None => d end.

(** [{ ...base, ...over }]: a property present in [over] wins. *)
Definition spread (base : SyncConfig) (over : option PartialConfig)
  : SyncConfig :=
  match over with
  | None => base
  | Some p =>
      {| maxRetries := or_default (p_maxRetries p) (maxRetries base);
         retryIntervalMs := or_default (p_retryIntervalMs p) (retryIntervalMs base);
         connectionTimeoutMs :=
           or_default (p_connectionTimeoutMs p) (connectionTimeoutMs base);
         internalCode := or_default (p_internalCode p) (internalCode base);
         pingUrl := or_default (p_pingUrl p) (pingUrl base);
         botsFilesUrls := or_default (p_botsFilesUrls p) (botsFilesUrls base);
         botsExecCommand := or_default (p_botsExecCommand p) (botsExecCommand base);
         deployPath := or_default (p_deployPath p) (deployPath base) |}
  end.

Definition set_pingUrl (c : SyncConfig) (u : string) : SyncConfig :=
  {| maxRetries := maxRetries c;
     retryIntervalMs := retryIntervalMs c;
     connectionTimeoutMs := connectionTimeoutMs c;
     internalCode := internalCode c;
     pingUrl := u;
     botsFilesUrls := botsFilesUrls c;
     botsExecCommand := botsExecCommand c;
     deployPath := deployPath c |}.

(** The template literal of the constructor. *)
Definition derivedPingUrl (o : SyncManagerOptions) : string :=
  teraboxBaseUrl o ++ "/sync/ping?botId=" ++ botId o.

(** [constructor(options)]: field initialisers, then the body. *)
Definition new_SyncManager (o : SyncManagerOptions) : World :=
  let c := spread defaults (opt_config o) in
  let c' := if String.eqb (pingUrl c) "" then set_pingUrl c (derivedPingUrl o)
            else c in
  {| state := idle;
     retries := 0;
     config := c';
     options := o;
     isStopped := false;
     log := [];
     io := [];
     tick := 0%nat;
     assigns := [] |}.

(* ================================================================== *)
(** ** The methods *)

(** How a loop body ends. *)
Inductive Flow : Type :=
| FReturn    (* [return] from the enclosing method *)
| FBreak     (* [break] *)
| FContinue. (* fall through to the next iteration *)

(** How a [while] loop ends. *)
Inductive LoopExit : Type :=
| Returned  (* the method returned from inside the loop *)
| Exited.   (* the condition failed or [break] was taken *)

Section Methods.

Variable E : Env.

(** [this.emit(ev)]: the notification is delivered, and an observer's
    exception leaves the call. *)
Definition emit (ev : Event) : M unit := fun w =>
  match throws E (List.length (log w)) ev with
  | Some e => (Throw e, record_event ev w)
  | None => (Ok tt, record_event ev w)
  end.

(** [this.emit("stateChange", this.state)]. *)
Definition emitStateChange : M unit :=
  s <- gets state ;; emit (Ev_stateChange s).

(** [emit] inside the callback of [exec]: no promise is there to turn an
    observer's exception into a rejection. *)
Definition emit_in_callback (ev : Event) : M unit := fun w =>
  match emit ev w with
  | (Throw e, w1) => (Halt (Uncaught e), w1)
  | r => r
  end.

(** [public stop()]. *)
Definition stop : M unit :=
  set_isStopped true ;;
  set_state idle ;;
  emitStateChange.

(** The manager is suspended in an [await]: a caller may invoke [stop()]
    meanwhile (its outcome goes to that caller), then the clock advances. *)
Definition suspended (w : World) : World :=
  next_tick (if stops E (tick w) then snd (stop w) else w).

Definition settle {A} (r : Settled A) : M A := fun w =>
  match r with
  | Resolved a => (Ok a, w)
  | Rejected e => (Throw e, w)
  end.

(** [await fetch(url, ...)]. *)
Definition fetch (rq : Request) (url : string) : M Response := fun w =>
  settle (http E (tick w) url) (suspended (record_request rq w)).

(** [await response.json()] and [await res.text()]. *)
Definition read_json (r : Response) : M JSON := fun w =>
  settle (json_body r) (suspended w).

Definition read_text (r : Response) : M string := fun w =>
  settle (text_body r) (suspended w).

(** [await fs.mkdir(...)] and [await fs.writeFile(...)]. *)
Definition fs_call (rq : Request) : M unit := fun w =>
  match fs E (tick w) with
  | Some e => (Throw e, suspended (record_request rq w))
  | None => (Ok tt, suspended (record_request rq w))
  end.

(** [private sleep(ms)], awaited. *)
Definition sleep (ms : Z) : M unit := fun w =>
  (Ok tt, suspended (record_request (Sleep ms) w)).

(** [private setError(error)]. *)
Definition setError (err : Exn) : M unit :=
  set_state error ;;
  emitStateChange ;;
  emit (Ev_error err).

(** [private execCommand(cmd, options)], awaited. *)
Definition execCommand (cmd cwd : string) : M unit :=
  emit (Ev_execStart cmd) ;;
  fun w =>
    let w1 := suspended (record_request (Exec cmd cwd) w) in
    match child E (tick w) with
    | ExecFailed err stderr =>
        (emit_in_callback (Ev_execError err stderr) ;; throw err) w1
    | ExecOk stdout =>
        emit_in_callback (Ev_execSuccess stdout) w1
    end.

(** The body of the [for ... of] loop of [deployBots], over the URLs that
    remain. *)
Fixpoint downloadAll (urls : list string) : M unit :=
  match urls with
  | [] => ret tt
  | fileUrl :: rest =>
      emit (Ev_downloadStart fileUrl) ;;
      res <- fetch (HttpGet fileUrl) fileUrl ;;
      (if negb (ok res)
       then throw (JsError ("No se pudo descargar archivo: " ++ fileUrl))
       else ret tt) ;;
      filename <- ret (basename E fileUrl) ;;
      deployDir <- gets (fun w => deployPath (config w)) ;;
      fullPath <- ret (resolve E deployDir filename) ;;
      fileData <- read_text res ;;
      fs_call (WriteFile fullPath fileData) ;;
      emit (Ev_downloadComplete filename) ;;
      downloadAll rest
  end.

(** The [try] block of [deployBots]. *)
Definition deploySteps : M unit :=
  emit Ev_deployStart ;;
  deployDir <- gets (fun w => deployPath (config w)) ;;
  fs_call (Mkdir deployDir) ;;
  urls <- gets (fun w => botsFilesUrls (config w)) ;;
  downloadAll urls ;;
  emit Ev_deployFilesWritten ;;
  cmd <- gets (fun w => botsExecCommand (config w)) ;;
  cwd <- gets (fun w => deployPath (config w)) ;;
  execCommand cmd cwd ;;
  emit Ev_deploySuccess.

(** [private async deployBots()]. *)
Definition deployBots : M unit :=
  try_catch deploySteps (fun err => setError err).

Definition signalUrl (o : SyncManagerOptions) : string :=
  teraboxBaseUrl o ++ "/sync/deploySignal".

Definition maxPolls : Z := 30.

(** One iteration of the [while] loop of [waitForDeploySignal], up to and
    excluding [polls++]. *)
Definition pollOnce : M Flow :=
  try_catch
    (url <- gets (fun w => signalUrl (options w)) ;;
     signalResponse <- fetch (HttpGet url) url ;;
     if ok signalResponse then
       body <- read_json signalResponse ;;
       if truthy body && strict_eq_true (prop body "deploy") then
         emit Ev_deploySignalReceived ;;
         deployBots ;;
         ret FReturn
       else ret FContinue
     else ret FContinue)
    (fun err => emit (Ev_error err) ;; ret FContinue).

(** The [while (!this.isStopped && polls < maxPolls)] loop. *)
Fixpoint pollLoop (fuel : nat) (polls : Z) : M LoopExit := fun w =>
  if negb (isStopped w) && (polls <? maxPolls) then
    match fuel with
    | O => (Halt OutOfFuel, w)
    | S fuel' =>
        (flow <- pollOnce ;;
         match flow with
         | FReturn => ret Returned
         | _ =>
             ms <- gets (fun w => retryIntervalMs (config w)) ;;
             sleep ms ;;
             pollLoop fuel' (polls + 1)
         end) w
    end
  else (Ok Exited, w).

(** [private async waitForDeploySignal()]. *)
Definition waitForDeploySignal : M unit :=
  emit Ev_waitingDeploySignal ;;
  set_state deploying ;;
  emitStateChange ;;
  ex <- pollLoop (Z.to_nat maxPolls) 0 ;;
  match ex with
  | Returned => ret tt
  | Exited =>
      emit Ev_deploySignalTimeout ;;
      setError (JsError "Timeout esperando señal de deploy")
  end.

(** The condition of line 159 on the parsed body. *)
Definition isGemelo (c : SyncConfig) (o : SyncManagerOptions) (data : JSON)
  : bool :=
  isSyncData data &&
  strict_eq_number (prop data "internalCode") (internalCode c) &&
  strict_neq_string (prop data "botId") (botId o).

(** [private async tryConnectToGemelo()].  The abort timer is part of the
    request: when it fires, [fetch] rejects. *)
Definition tryConnectToGemelo : M bool :=
  try_catch
    (url <- gets (fun w => pingUrl (config w)) ;;
     timeout <- gets (fun w => connectionTimeoutMs (config w)) ;;
     response <- fetch (HttpGetAbortable url timeout) url ;;
     if negb (ok response) then ret false
     else
       data <- read_json response ;;
       c <- gets config ;;
       o <- gets options ;;
       if isGemelo c o data then
         emit (Ev_gemeloFound (as_string (prop data "botId"))) ;;
         ret true
       else ret false)
    (fun _ => ret false).

(** [this.retries++]. *)
Definition incr_retries : M unit :=
  r <- gets retries ;; set_retries (r + 1).

(** [if (this.retries >= this.config.maxRetries) break;
     await this.sleep(this.config.retryIntervalMs);] *)
Definition breakOrSleep : M Flow :=
  r <- gets retries ;;
  n <- gets (fun w => maxRetries (config w)) ;;
  if r >=? n then ret FBreak
  else
    ms <- gets (fun w => retryIntervalMs (config w)) ;;
    sleep ms ;;
    ret FContinue.

(** The [try] block of the loop of [attemptConnectionLoop]. *)
Definition attemptTry : M Flow :=
  isConnected <- tryConnectToGemelo ;;
  if isConnected then
    set_state connected ;;
    emitStateChange ;;
    emit Ev_connected ;;
    waitForDeploySignal ;;
    ret FReturn
  else
    incr_retries ;;
    r <- gets retries ;;
    emit (Ev_retrying r) ;;
    breakOrSleep.

(** Its [catch (error)] block. *)
Definition attemptCatch (err : Exn) : M Flow :=
  setError err ;;
  incr_retries ;;
  breakOrSleep.

(** One iteration of the [while] loop of [attemptConnectionLoop]. *)
Definition attemptOnce : M Flow :=
  r <- gets retries ;;
  emit (Ev_attempt (r + 1)) ;;
  try_catch attemptTry attemptCatch.

(** The [while (!this.isStopped && this.retries < this.config.maxRetries)]
    loop. *)
Fixpoint attemptLoop (fuel : nat) : M LoopExit := fun w =>
  if negb (isStopped w) && (retries w <? maxRetries (config w)) then
    match fuel with
    | O => (Halt OutOfFuel, w)
    | S fuel' =>
        (flow <- attemptOnce ;;
         match flow with
         | FReturn => ret Returned
         | FBreak => ret Exited
         | FContinue => attemptLoop fuel'
         end) w
    end
  else (Ok Exited, w).

(** Every iteration that continues increments [retries], so this many
    iterations suffice. *)
Definition attemptFuel (w : World) : nat :=
  Z.to_nat (maxRetries (config w) - retries w).

(** [private async attemptConnectionLoop()]. *)
Definition attemptConnectionLoop : M unit :=
  fuel <- gets attemptFuel ;;
  ex <- attemptLoop fuel ;;
  match ex with
  | Returned => ret tt
  | Exited =>
      set_state listening ;;
      emitStateChange ;;
      emit Ev_listening
  end.

(** [public async start()]. *)
Definition start : M unit :=
  set_isStopped false ;;
  set_state searching ;;
  set_retries 0 ;;
  emitStateChange ;;
  try_catch attemptConnectionLoop (fun err => setError err).

Definition wakeUrl (o : SyncManagerOptions) : string :=
  teraboxBaseUrl o ++ "/sync/wake?botId=" ++ botId o.

(** [public async wakeUpGemelo()]; the body of the request is the object
    that [JSON.stringify] serialises. *)
Definition wakeUpGemelo : M unit :=
  s <- gets state ;;
  if negb (SyncState_eqb s listening) then ret tt
  else
    try_catch
      (url <- gets (fun w => wakeUrl (options w)) ;;
       code <- gets (fun w => internalCode (config w)) ;;
       response <- fetch (HttpPost url (JObject [("internalCode", JNumber code)])) url ;;
       if ok response then emit Ev_wokeGemelo else ret tt)
      (fun err => emit (Ev_error err)).

End Methods.


Arguments suspended : simpl never.
Arguments emit : simpl never.
(* ================================================================== *)
(** ** Vocabulary of the statements *)

(** Observers that never throw (and an [error] observer is registered). *)
Definition passive (E : Env) : Prop :=
  forall n ev, throws E n ev = None.

(** Nobody calls [stop()] while a method is suspended. *)
Definition uninterrupted (E : Env) : Prop :=
  forall t, stops E t = false.

(** No [error] listener is registered and the other listeners return:
    [emit("error", e)] then throws [e], as an [EventEmitter] does when
    nobody listens for [error]. *)
Definition no_error_listener (E : Env) : Prop :=
  forall n ev,
    throws E n ev = match ev with Ev_error e => Some e | _ => None end.

(** The payloads of the [stateChange] notifications of a log. *)
Fixpoint stateChanges (l : list Event) : list SyncState :=
  match l with
  | [] => []
  | Ev_stateChange s :: rest => s :: stateChanges rest
  | _ :: rest => stateChanges rest
  end.

Definition is_attempt (ev : Event) : bool :=
  match ev with Ev_attempt _ => true | _ => false end.

Definition is_retrying (ev : Event) : bool :=
  match ev with Ev_retrying _ => true | _ => false end.

Definition is_error (ev : Event) : bool :=
  match ev with Ev_error _ => true | _ => false end.

Definition is_timeout (ev : Event) : bool :=
  match ev with Ev_deploySignalTimeout => true | _ => false end.

Definition is_signalReceived (ev : Event) : bool :=
  match ev with Ev_deploySignalReceived => true | _ => false end.

Definition count (p : Event -> bool) (l : list Event) : nat :=
  List.length (filter p l).

(** The listeners of every notification but [error] return. *)
Definition others_return (E : Env) : Prop :=
  forall n ev, is_error ev = false -> throws E n ev = None.

(** The notifications emitted inside the callback of [exec]. *)
Definition is_exec_result (ev : Event) : bool :=
  match ev with
  | Ev_execSuccess _ | Ev_execError _ _ => true
  | _ => false
  end.

(** A world that differs from [w] in its manager fields and log as given,
    and in its requests and clock arbitrarily. *)
Definition with_io (w : World) (rqs : list Request) (t : nat) : World :=
  mkWorld (state w) (retries w) (config w) (options w) (isStopped w)
          (log w) rqs t (assigns w).

(** What a probe response must be for line 159 to accept it. *)
Definition matching (c : SyncConfig) (o : SyncManagerOptions)
           (r : Settled Response) : bool :=
  match r with
  | Resolved resp =>
      ok resp &&
      match json_body resp with
      | Resolved data => isGemelo c o data
      | Rejected _ => false
      end
  | Rejected _ => false
  end.

(** Whether a deploy-signal response approves. *)
Definition approving (r : Settled Response) : bool :=
  match r with
  | Resolved resp =>
      ok resp &&
      match json_body resp with
      | Resolved body => truthy body && strict_eq_true (prop body "deploy")
      | Rejected _ => false
      end
  | Rejected _ => false
  end.

(** The configuration supplied by the caller, when there is one. *)
Definition supplied {A} (o : SyncManagerOptions)
           (field : PartialConfig -> option A) : option A :=
  match opt_config o with
  | Some p => field p
  | None => None
  end.


(** The notifications of [n] failed attempts made from [retries = r]. *)
Fixpoint rounds (r : Z) (n : nat) : list Event :=
  match n with
  | O => []
  | S n' => Ev_attempt (r + 1) :: Ev_retrying (r + 1) :: rounds (r + 1) n'
  end.

(** No probe ever finds the twin. *)
Definition never_matching (E : Env) (c : SyncConfig) (o : SyncManagerOptions)
  : Prop :=
  forall t, matching c o (http E t (pingUrl c)) = false.

(** No poll of the deploy signal ever approves. *)
Definition never_approving (E : Env) (o : SyncManagerOptions) : Prop :=
  forall t, approving (http E t (signalUrl o)) = false.

(** The requests of [n] polls that did not approve. *)
Fixpoint polling (url : string) (ms : Z) (n : nat) : list Request :=
  match n with
  | O => []
  | S n' => HttpGet url :: Sleep ms :: polling url ms n'
  end.

Definition is_signal_request (url : string) (rq : Request) : bool :=
  match rq with HttpGet u => String.eqb u url | _ => false end.

Definition timeoutError : Exn := JsError "Timeout esperando señal de deploy".

(** The requests of downloading the given (URL, content) pairs into
    [dir], in order: each file is fetched, then written. *)
Fixpoint transfers (E : Env) (dir : string) (files : list (string * string))
  : list Request :=
  match files with
  | [] => []
  | (fileUrl, data) :: rest =>
      HttpGet fileUrl
      :: WriteFile (resolve E dir (basename E fileUrl)) data
      :: transfers E dir rest
  end.

Definition downloadError (fileUrl : string) : Exn :=
  JsError ("No se pudo descargar archivo: " ++ fileUrl).

(** What goes wrong first when [urls] are downloaded from tick [t] on,
    read off the surroundings alone: a rejected request, a non-success
    answer, a body that cannot be read, a write that fails; when nothing
    does, the tick at which the downloads are over.  A file takes three
    awaits: the request, the body, the write. *)
Fixpoint downloadFailure (E : Env) (t : nat) (urls : list string) : Exn + nat :=
  match urls with
  | [] => inr t
  | fileUrl :: rest =>
      match http E t fileUrl with
      | Rejected e => inl e
      | Resolved res =>
          if negb (ok res) then inl (downloadError fileUrl)
          else
            match text_body res with
            | Rejected e => inl e
            | Resolved _ =>
                match fs E (S (S t)) with
                | Some e => inl e
                | None => downloadFailure E (S (S (S t))) rest
                end
            end
      end
  end.

(** The failure a deployment started in [w] meets, if any: the directory
    cannot be created, a download or a write fails, or the command exits
    with an error. *)
Definition deployFailure (E : Env) (w : World) : option Exn :=
  match fs E (tick w) with
  | Some e => Some e
  | None =>
      match downloadFailure E (S (tick w)) (botsFilesUrls (config w)) with
      | inl e => Some e
      | inr t =>
          match child E t with
          | ExecFailed err _ => Some err
          | ExecOk _ => None
          end
      end
  end.

(** The awaits spent on a response that is read as JSON: the request,
    and the body when the status is a success. *)
Definition response_awaits (r : Settled Response) : nat :=
  match r with
  | Resolved resp => if ok resp then 2%nat else 1%nat
  | Rejected _ => 1%nat
  end.

(** The [botId] a response carries. *)
Definition peer_of (r : Settled Response) : string :=
  match r with
  | Resolved resp =>
      match json_body resp with
      | Resolved data => as_string (prop data "botId")
      | Rejected _ => ""
      end
  | Rejected _ => ""
  end.

(** Among [n] probes issued from tick [t] on, each failed probe being
    followed by the sleep, the first whose response matches: how many
    probes failed before it, and the tick at which it is issued. *)
Fixpoint first_match (E : Env) (c : SyncConfig) (o : SyncManagerOptions)
         (t n : nat) : option (nat * nat) :=
  match n with
  | O => None
  | S n' =>
      let r := http E t (pingUrl c) in
      if matching c o r then Some (O, t)
      else
        match first_match E c o (t + response_awaits r + 1) n' with
        | Some (k, t') => Some (S k, t')
        | None => None
        end
  end.

(** Likewise for the polls of the deploy signal. *)
Fixpoint first_approval (E : Env) (o : SyncManagerOptions) (t n : nat)
  : option (nat * nat) :=
  match n with
  | O => None
  | S n' =>
      let r := http E t (signalUrl o) in
      if approving r then Some (O, t)
      else
        match first_approval E o (t + response_awaits r + 1) n' with
        | Some (k, t') => Some (S k, t')
        | None => None
        end
  end.

Definition is_exec (rq : Request) : bool :=
  match rq with Exec _ _ => true | _ => false end.

(** The wake request of [wakeUpGemelo] fails: it is rejected, or it gets
    a non-success response. *)
Definition wake_request_fails (E : Env) (w : World) : Prop :=
  match http E (tick w) (wakeUrl (options w)) with
  | Resolved resp => ok resp = false
  | Rejected _ => True
  end.

(** A computation relates every world to the world it leaves. *)
Definition respects {A} (R : World -> World -> Prop) (m : M A) : Prop :=
  forall w, R w (snd (m w)).

(** The notifications account for the assignments: the [stateChange]
    payloads are the values assigned to [state], in order, and [state]
    holds the last of them. *)
Definition Coherent (w : World) : Prop :=
  stateChanges (log w) = assigns w /\
  state w = last (assigns w) idle.

Definition keeps_coherent (w w' : World) : Prop :=
  Coherent w -> Coherent w'.

(** The notifications emitted by the steps of a deployment. *)
Definition deploy_step_event (ev : Event) : bool :=
  match ev with
  | Ev_deployStart | Ev_downloadStart _ | Ev_downloadComplete _
  | Ev_deployFilesWritten | Ev_execStart _ | Ev_execSuccess _
  | Ev_execError _ _ | Ev_deploySuccess => true
  | _ => false
  end.

Definition is_stateChange (ev : Event) : bool :=
  match ev with Ev_stateChange _ => true | _ => false end.

(** The public operations, and the world after a caller has performed a
    sequence of them (each one run to completion; [stop()] arriving
    while one is suspended is the environment's [stops]). *)
Inductive Call : Type :=
| call_start | call_stop | call_wakeUpGemelo.

Definition perform (E : Env) (c : Call) : M unit :=
  match c with
  | call_start => start E
  | call_stop => stop E
  | call_wakeUpGemelo => wakeUpGemelo E
  end.

Definition after_calls (E : Env) (calls : list Call) (w : World) : World :=
  fold_left (fun w c => snd (perform E c w)) calls w.

(** A computation never halts for a reason in [bad]. *)
Definition avoids {A} (bad : Halted -> Prop) (m : M A) : Prop :=
  forall w h, fst (m w) = Halt h -> ~ bad h.

(** The log only grew, by notifications on which [p] is false. *)
Definition emits_no (p : Event -> bool) (w w' : World) : Prop :=
  exists evs, log w' = (log w ++ evs)%list /\ forallb (fun ev => negb (p ev)) evs = true.

(** Neither a timeout nor an approval. *)
Definition is_verdict (ev : Event) : bool :=
  is_timeout ev || is_signalReceived ev.

(* ================================================================== *)
(** ** Concrete surroundings *)

(** [path.basename] on a URL without trailing slash: what follows the
    last ["/"]; [path.resolve] of a relative file name. *)
Fixpoint last_segment (acc s : string) : string :=
  match s with
  | EmptyString => acc
  | String c rest =>
      if Ascii.eqb c "/"%char then last_segment "" rest
      else last_segment (acc ++ String c "") rest
  end.

Definition join_path (dir file : string) : string := dir ++ "/" ++ file.

(** A response with a status outside 200-299. *)
Definition http500 : Response :=
  {| ok := false;
     json_body := Rejected (JsError "Unexpected token");
     text_body := Resolved "Internal Server Error" |}.

Definition okJson (v : JSON) : Response :=
  {| ok := true; json_body := Resolved v; text_body := Resolved "" |}.

Definition okText (s : string) : Response :=
  {| ok := true;
     json_body := Rejected (JsError "Unexpected token");
     text_body := Resolved s |}.

(** Every HTTP request is answered with status 500; nothing else fails,
    nobody calls [stop()], observers return. *)
Definition env_down : Env :=
  {| http := fun _ _ => Resolved http500;
     fs := fun _ => None;
     child := fun _ => ExecOk "";
     stops := fun _ => false;
     throws := fun _ _ => None;
     basename := last_segment "";
     resolve := join_path |}.

(** As [env_down], but a caller invokes [stop()] during the [await]
    issued at tick [t]. *)
Definition env_down_stop_at (t : nat) : Env :=
  {| http := fun _ _ => Resolved http500;
     fs := fun _ => None;
     child := fun _ => ExecOk "";
     stops := fun t' => Nat.eqb t' t;
     throws := fun _ _ => None;
     basename := last_segment "";
     resolve := join_path |}.

(** As [env_down], but the observer of [retrying] throws on the first
    retry. *)
Definition observerError : Exn := JsError "observer failed".

Definition env_retrying_throws : Env :=
  {| http := fun _ _ => Resolved http500;
     fs := fun _ => None;
     child := fun _ => ExecOk "";
     stops := fun _ => false;
     throws := fun _ ev =>
       match ev with
       | Ev_retrying 1 => Some observerError
       | _ => None
       end;
     basename := last_segment "";
     resolve := join_path |}.

Definition opts3 : SyncManagerOptions :=
  {| botId := "me";
     teraboxBaseUrl := "https://t";
     opt_config :=
       Some {| p_maxRetries := Some 3;
               p_retryIntervalMs := Some 10;
               p_connectionTimeoutMs := None;
               p_internalCode := None;
               p_pingUrl := None;
               p_botsFilesUrls := Some ["https://f/a.js"; "https://f/b.js";
                                        "https://f/c.js"];
               p_botsExecCommand := None;
               p_deployPath := None |} |}.

Definition peerData (peer : string) : JSON :=
  JObject [("internalCode", JNumber 720); ("botId", JString peer)].

(** The ping endpoint answers with the twin ["other"]; the deploy signal
    is never approved (status 500); the file [b.js] is missing, the other
    files are served. [stop()] arrives at tick [t], if at all. *)
Definition env_peer (stop_at : option nat) : Env :=
  {| http := fun _ url =>
       if String.eqb url "https://t/sync/ping?botId=me"
       then Resolved (okJson (peerData "other"))
       else if String.eqb url "https://f/a.js" then Resolved (okText "a")
       else if String.eqb url "https://f/c.js" then Resolved (okText "c")
       else Resolved http500;
     fs := fun _ => None;
     child := fun _ => ExecOk "";
     stops := fun t =>
       match stop_at with Some t' => Nat.eqb t t' | None => false end;
     throws := fun _ _ => None;
     basename := last_segment "";
     resolve := join_path |}.

(** The claim that the loop treats an exception of the attempt like a
    non-match: one more retry counted, one [retrying], no [error]
    notification, the state as it was. *)
Definition exception_handled_as_nonmatch (E : Env) (w : World) : Prop :=
  forall e w1,
    attemptTry E w = (Throw e, w1) ->
    let w2 := snd (attemptCatch E e w1) in
    retries w2 = retries w + 1 /\
    state w2 = state w /\
    exists evs,
      log w2 = (log w ++ evs)%list /\
      count is_retrying evs = 1%nat /\
      count is_error evs = 0%nat.

(** The claim that a failed wake request is always notified and leaves
    the state alone. *)
Definition wake_failure_reported (E : Env) (w : World) : Prop :=
  wake_request_fails E w ->
  state (snd (wakeUpGemelo E w)) = state w /\
  exists evs,
    log (snd (wakeUpGemelo E w)) = (log w ++ evs)%list /\ evs <> [].

(** The claim that [deployBots] never propagates an exception to its
    caller. *)
Definition never_propagates (E : Env) (w : World) : Prop :=
  forall e, fst (deployBots E w) <> Throw e.

(** A manager built from [opts3], and the same after a search that found
    no twin. *)
Definition manager3 : World := new_SyncManager opts3.

Definition manager3_listening : World := snd (start env_down manager3).

(* ================================================================== *)
(** ** Further vocabulary *)

(** The configuration a caller supplied whole. *)
Definition fullPartial (c : SyncConfig) : PartialConfig :=
  {| p_maxRetries := Some (maxRetries c);
     p_retryIntervalMs := Some (retryIntervalMs c);
     p_connectionTimeoutMs := Some (connectionTimeoutMs c);
     p_internalCode := Some (internalCode c);
     p_pingUrl := Some (pingUrl c);
     p_botsFilesUrls := Some (botsFilesUrls c);
     p_botsExecCommand := Some (botsExecCommand c);
     p_deployPath := Some (deployPath c) |}.

(** The body of the wake request. *)
Definition wakeBody (c : SyncConfig) : JSON :=
  JObject [("internalCode", JNumber (internalCode c))].

(** Two worlds that differ at most in what [start()] overwrites. *)
Definition same_but_run_state (w1 w2 : World) : Prop :=
  config w1 = config w2 /\ options w1 = options w2 /\
  log w1 = log w2 /\ io w1 = io w2 /\ tick w1 = tick w2 /\
  assigns w1 = assigns w2.

(** From [w] to [w']: configuration and options are untouched, the retry
    counter did not decrease, the log grew by notifications in [allowed]
    only, and the states assigned are exactly those notified. *)
Definition confined (allowed : Event -> bool) (w w' : World) : Prop :=
  config w' = config w /\
  options w' = options w /\
  retries w <= retries w' /\
  exists evs,
    log w' = (log w ++ evs)%list /\
    assigns w' = (assigns w ++ stateChanges evs)%list /\
    forallb allowed evs = true.

(** The retry counter is the same. *)
Definition same_counter (w w' : World) : Prop := retries w' = retries w.

Definition is_idle_change (ev : Event) : bool :=
  match ev with Ev_stateChange idle => true | _ => false end.

(** What a deployment can emit: its step notifications, the [error]
    transition of a failure, and [idle] if [stop()] arrives. *)
Definition deploy_alphabet (ev : Event) : bool :=
  deploy_step_event ev || is_error ev || is_idle_change ev ||
  match ev with Ev_stateChange error => true | _ => false end.

(** What the signal-wait phase can emit. *)
Definition wait_alphabet (ev : Event) : bool :=
  deploy_alphabet ev ||
  match ev with
  | Ev_waitingDeploySignal | Ev_deploySignalReceived | Ev_deploySignalTimeout
  | Ev_stateChange deploying => true
  | _ => false
  end.

(** What a probe can emit. *)
Definition probe_alphabet (ev : Event) : bool :=
  is_idle_change ev ||
  match ev with Ev_gemeloFound _ => true | _ => false end.

(** What a manual wake can emit. *)
Definition wake_alphabet (ev : Event) : bool :=
  is_idle_change ev || is_error ev ||
  match ev with Ev_wokeGemelo => true | _ => false end.

(** What a run of [start()] can emit: anything but [wokeGemelo]. *)
Definition start_alphabet (ev : Event) : bool :=
  match ev with Ev_wokeGemelo => false | _ => true end.

Definition no_attempt (ev : Event) : bool := negb (is_attempt ev).

(** A computation that, when it resolves, resolves to [v]. *)
Definition resolves_to {A} (v : A) (m : M A) : Prop :=
  forall w a, fst (m w) = Ok a -> a = v.

(** The file host always serves [fileUrl]; the file system never fails. *)
Definition serves (E : Env) (fileUrl : string) : Prop :=
  forall t, exists resp data,
      http E t fileUrl = Resolved resp /\ ok resp = true /\
      text_body resp = Resolved data.

Definition disk_works (E : Env) : Prop := forall t, fs E t = None.

(** The notifications of downloading [urls] without failure. *)
Definition downloads (E : Env) (urls : list string) : list Event :=
  flat_map (fun u => [Ev_downloadStart u; Ev_downloadComplete (basename E u)])
           urls.

(** Everything works: the twin ["other"] answers the ping, the deploy
    signal approves, every other URL serves a file; the command succeeds
    or, if [launch_fails], exits with an error. *)
Definition launchError : Exn := JsError "Command failed: node bot.js".

Definition env_up (launch_fails : bool) : Env :=
  {| http := fun _ url =>
       if String.eqb url "https://t/sync/ping?botId=me"
       then Resolved (okJson (peerData "other"))
       else if String.eqb url "https://t/sync/deploySignal"
       then Resolved (okJson (JObject [("deploy", JBool true)]))
       else Resolved (okText "// bot");
     fs := fun _ => None;
     child := fun _ =>
       if launch_fails then ExecFailed launchError "Cannot find module"
       else ExecOk "started";
     stops := fun _ => false;
     throws := fun _ _ => None;
     basename := last_segment "";
     resolve := join_path |}.

(** The disk is full: every file-system call fails. *)
Definition diskError : Exn := JsError "ENOSPC".

Definition env_disk_full : Env :=
  {| http := fun _ _ => Resolved http500;
     fs := fun _ => Some diskError;
     child := fun _ => ExecOk "";
     stops := fun _ => false;
     throws := fun _ _ => None;
     basename := last_segment "";
     resolve := join_path |}.

(** The requests of [n] failed attempts: a probe with its timeout each,
    and a sleep between two attempts, none after the last. *)
Fixpoint probing (url : string) (timeoutMs ms : Z) (n : nat) : list Request :=
  match n with
  | O => []
  | S O => [HttpGetAbortable url timeoutMs]
  | S n' => HttpGetAbortable url timeoutMs :: Sleep ms :: probing url timeoutMs ms n'
  end.

(** The surroundings [E] with no [error] listener registered. *)
Definition without_error_listener (E : Env) : Env :=
  {| http := http E;
     fs := fs E;
     child := child E;
     stops := stops E;
     throws := fun _ ev => match ev with Ev_error e => Some e | _ => None end;
     basename := basename E;
     resolve := resolve E |}.

(** The twin cannot be reached: every request is rejected. *)
Definition offlineError : Exn := JsError "ECONNREFUSED".

Definition env_offline : Env :=
  {| http := fun _ _ => Rejected offlineError;
     fs := fun _ => None;
     child := fun _ => ExecOk "";
     stops := fun _ => false;
     throws := fun _ _ => None;
     basename := last_segment "";
     resolve := join_path |}.

(** The manager as the handler of the repository builds it, and its
    surroundings: listeners for [stateChange], [connected] and
    [listening] only; the twin answers, the deploy signal approves, and
    with no file configured the command [node bot.js] fails. *)
Definition handlerOptions : SyncManagerOptions :=
  {| botId := "FalsoBot_Carnada_01";
     teraboxBaseUrl := "https://terabox.com/bots";
     opt_config :=
       Some {| p_maxRetries := Some 5;
               p_retryIntervalMs := None;
               p_connectionTimeoutMs := None;
               p_internalCode := Some 720;
               p_pingUrl := None;
               p_botsFilesUrls := None;
               p_botsExecCommand := None;
               p_deployPath := None |} |}.

Definition env_handler : Env :=
  {| http := fun _ url =>
       if String.eqb url "https://terabox.com/bots/sync/deploySignal"
       then Resolved (okJson (JObject [("deploy", JBool true)]))
       else Resolved (okJson (peerData "other"));
     fs := fun _ => None;
     child := fun _ => ExecFailed launchError "Cannot find module";
     stops := fun _ => false;
     throws := fun _ ev => match ev with Ev_error e => Some e | _ => None end;
     basename := last_segment "";
     resolve := join_path |}.

(** That manager when its run enters [deployBots]: the twin was found at
    the first attempt and the first poll approved. *)
Definition handler_deploying : World :=
  {| state := deploying;
     retries := 0;
     config := config (new_SyncManager handlerOptions);
     options := handlerOptions;
     isStopped := false;
     log := [Ev_stateChange searching; Ev_attempt 1; Ev_gemeloFound "other";
             Ev_stateChange connected; Ev_connected; Ev_waitingDeploySignal;
             Ev_stateChange deploying; Ev_deploySignalReceived];
     io := [HttpGetAbortable
              "https://terabox.com/bots/sync/ping?botId=FalsoBot_Carnada_01" 8000;
            HttpGet "https://terabox.com/bots/sync/deploySignal"];
     tick := 4%nat;
     assigns := [searching; connected; deploying] |}.

(** The twin comes up late: the ping is answered with status 500 before
    tick 4 and by the twin ["other"] from then on; the deploy signal
    approves from tick 10 on; every other URL serves a file and the
    command succeeds. *)
Definition env_late : Env :=
  {| http := fun t url =>
       if String.eqb url "https://t/sync/ping?botId=me"
       then (if (t <? 4)%nat then Resolved http500
             else Resolved (okJson (peerData "other")))
       else if String.eqb url "https://t/sync/deploySignal"
       then (if (t <? 10)%nat then Resolved http500
             else Resolved (okJson (JObject [("deploy", JBool true)])))
       else Resolved (okText "// bot");
     fs := fun _ => None;
     child := fun _ => ExecOk "started";
     stops := fun _ => false;
     throws := fun _ _ => None;
     basename := last_segment "";
     resolve := join_path |}.
(* ================================================================== *)
(** ** Construction: the defaults *)

Lemma spread_none (base : SyncConfig) : spread base None = base.
Proof. reflexivity. Qed.

Lemma config_new (o : SyncManagerOptions) :
  config (new_SyncManager o) =
  let c := spread defaults (opt_config o) in
  if String.eqb (pingUrl c) "" then set_pingUrl c (derivedPingUrl o) else c.
Proof. reflexivity. Qed.

(** The fields other than [pingUrl] are those of the spread. *)
Lemma config_new_fields (o : SyncManagerOptions) :
  let c := spread defaults (opt_config o) in
  let c' := config (new_SyncManager o) in
  maxRetries c' = maxRetries c /\
  retryIntervalMs c' = retryIntervalMs c /\
  connectionTimeoutMs c' = connectionTimeoutMs c /\
  internalCode c' = internalCode c /\
  botsFilesUrls c' = botsFilesUrls c /\
  botsExecCommand c' = botsExecCommand c /\
  deployPath c' = deployPath c.
Proof.
  cbv zeta. rewrite config_new. cbv zeta.
  destruct (String.eqb (pingUrl (spread defaults (opt_config o))) "");
    repeat split; reflexivity.
Qed.

Lemma spread_supplied (o : SyncManagerOptions) :
  let c := spread defaults (opt_config o) in
  maxRetries c = or_default (supplied o p_maxRetries) 5 /\
  retryIntervalMs c = or_default (supplied o p_retryIntervalMs) 7000 /\
  connectionTimeoutMs c = or_default (supplied o p_connectionTimeoutMs) 8000 /\
  internalCode c = or_default (supplied o p_internalCode) 720 /\
  pingUrl c = or_default (supplied o p_pingUrl) "" /\
  botsFilesUrls c = or_default (supplied o p_botsFilesUrls) [] /\
  botsExecCommand c = or_default (supplied o p_botsExecCommand) "node bot.js" /\
  deployPath c = or_default (supplied o p_deployPath) "./deployedBots".
Proof.
  unfold supplied. destruct (opt_config o) as [p|]; cbn; repeat split; reflexivity.
Qed.

(** C9. Omitted configuration fields take the defaults: maxRetries 5,
    retryIntervalMs 7000, connectionTimeoutMs 8000, internalCode 720,
    botsFilesUrls [], botsExecCommand "node bot.js", deployPath
    "./deployedBots"; and a [pingUrl] that is omitted or supplied as the
    empty string is replaced by
    "<teraboxBaseUrl>/sync/ping?botId=<botId>". *)
Theorem C9_constructor_defaults (o : SyncManagerOptions) :
  let c := config (new_SyncManager o) in
  (supplied o p_maxRetries = None -> maxRetries c = 5) /\
  (supplied o p_retryIntervalMs = None -> retryIntervalMs c = 7000) /\
  (supplied o p_connectionTimeoutMs = None -> connectionTimeoutMs c = 8000) /\
  (supplied o p_internalCode = None -> internalCode c = 720) /\
  (supplied o p_botsFilesUrls = None -> botsFilesUrls c = []) /\
  (supplied o p_botsExecCommand = None -> botsExecCommand c = "node bot.js") /\
  (supplied o p_deployPath = None -> deployPath c = "./deployedBots") /\
  (supplied o p_pingUrl = None \/ supplied o p_pingUrl = Some "" ->
   pingUrl c = teraboxBaseUrl o ++ "/sync/ping?botId=" ++ botId o).
Proof.
  cbv zeta.
  destruct (config_new_fields o) as (H1 & H2 & H3 & H4 & H5 & H6 & H7).
  destruct (spread_supplied o) as (S1 & S2 & S3 & S4 & S5 & S6 & S7 & S8).
  cbv zeta in *.
  repeat split; intros Hs.
  - rewrite H1, S1, Hs. reflexivity.
  - rewrite H2, S2, Hs. reflexivity.
  - rewrite H3, S3, Hs. reflexivity.
  - rewrite H4, S4, Hs. reflexivity.
  - rewrite H5, S6, Hs. reflexivity.
  - rewrite H6, S7, Hs. reflexivity.
  - rewrite H7, S8, Hs. reflexivity.
  - rewrite config_new. cbv zeta. rewrite S5.
    destruct Hs as [Hs | Hs]; rewrite Hs; reflexivity.
Qed.

(* ================================================================== *)
(** ** Sequencing *)

Lemma bind_assoc {A B C} (m : M A) (f : A -> M B) (g : B -> M C) (w : World) :
  bind (bind m f) g w = bind m (fun a => bind (f a) g) w.
Proof. unfold bind. destruct (m w) as [[a|e|h] w1]; reflexivity. Qed.

Lemma bind_ext {A B} (m : M A) (f g : A -> M B) (w : World) :
  (forall a w1, f a w1 = g a w1) -> bind m f w = bind m g w.
Proof.
  intros Hfg. unfold bind. destruct (m w) as [[a|e|h] w1];
    [apply Hfg | reflexivity | reflexivity].
Qed.

(* ================================================================== *)
(** ** Stepping the primitives *)

Ltac worlds :=
  unfold record_event, record_request, next_tick, with_io; cbn.

Ltac lists :=
  repeat rewrite <- app_assoc; cbn; try reflexivity.

Section Stepping.

Variable E : Env.

Lemma emit_passive (ev : Event) (w : World) :
  passive E -> emit E ev w = (Ok tt, record_event ev w).
Proof. intros Hp. unfold emit. rewrite Hp. reflexivity. Qed.

Lemma emit_in_callback_passive (ev : Event) (w : World) :
  passive E -> emit_in_callback E ev w = (Ok tt, record_event ev w).
Proof. intros Hp. unfold emit_in_callback. rewrite emit_passive by assumption. reflexivity. Qed.

Lemma emitStateChange_passive (w : World) :
  passive E ->
  emitStateChange E w = (Ok tt, record_event (Ev_stateChange (state w)) w).
Proof. intros Hp. unfold emitStateChange, bind, gets. apply emit_passive, Hp. Qed.

(** [stop()] leaves the same world whether or not an observer throws. *)
Lemma stop_world (w : World) :
  snd (stop E w) =
  mkWorld idle (retries w) (config w) (options w) true
          (log w ++ [Ev_stateChange idle]) (io w) (tick w)
          (assigns w ++ [idle]).
Proof.
  cbv [stop bind set_isStopped set_state emitStateChange gets emit record_event].
  cbn [state retries config options isStopped log io tick assigns].
  destruct (throws E _ _); reflexivity.
Qed.

Lemma suspended_quiet (w : World) :
  uninterrupted E -> suspended E w = next_tick w.
Proof. intros Hq. unfold suspended. rewrite Hq. reflexivity. Qed.

Lemma setError_passive (err : Exn) (w : World) :
  passive E ->
  setError E err w =
  (Ok tt,
   mkWorld error (retries w) (config w) (options w) (isStopped w)
           (log w ++ [Ev_stateChange error; Ev_error err]) (io w) (tick w)
           (assigns w ++ [error])).
Proof.
  intros Hp. unfold setError, bind, set_state.
  rewrite emitStateChange_passive by assumption.
  rewrite emit_passive by assumption.
  unfold record_event; cbn. rewrite <- app_assoc. reflexivity.
Qed.

(** A probe whose response does not satisfy line 159 resolves to [false]
    and leaves the manager and its log as they were. *)
Lemma tryConnect_nomatch (w : World) :
  uninterrupted E ->
  matching (config w) (options w) (http E (tick w) (pingUrl (config w))) = false ->
  exists rqs t, tryConnectToGemelo E w = (Ok false, with_io w rqs t).
Proof.
  intros Hq Hm.
  unfold tryConnectToGemelo, try_catch, bind, gets, fetch, read_json, settle.
  rewrite !suspended_quiet by assumption.
  unfold matching in Hm.
  destruct (http E (tick w) (pingUrl (config w))) as [resp | e]; cbn.
  - destruct (ok resp); cbn in *.
    + rewrite suspended_quiet by assumption.
      destruct (json_body resp) as [data | e]; cbn.
      * rewrite Hm. cbn. eexists _, _. reflexivity.
      * eexists _, _. reflexivity.
    + eexists _, _. reflexivity.
  - eexists _, _. reflexivity.
Qed.

(** An attempt whose probe does not match: [attempt], then [retrying],
    one more retry counted, nothing else changed. *)
Lemma attemptOnce_nomatch (w : World) :
  passive E -> uninterrupted E ->
  matching (config w) (options w) (http E (tick w) (pingUrl (config w))) = false ->
  exists rqs t,
    attemptOnce E w =
    (Ok (if retries w + 1 >=? maxRetries (config w) then FBreak else FContinue),
     mkWorld (state w) (retries w + 1) (config w) (options w) (isStopped w)
             (log w ++ [Ev_attempt (retries w + 1); Ev_retrying (retries w + 1)])
             rqs t (assigns w)).
Proof.
  intros Hp Hq Hm.
  unfold attemptOnce, bind at 1 2, gets at 1.
  rewrite emit_passive by assumption.
  unfold try_catch, attemptTry, bind at 1.
  destruct (tryConnect_nomatch (record_event (Ev_attempt (retries w + 1)) w) Hq Hm)
    as (rqs & t & ->).
  unfold incr_retries, breakOrSleep, bind, gets, set_retries, sleep; cbn.
  rewrite emit_passive by assumption; cbn.
  destruct (retries w + 1 >=? maxRetries (config w)); unfold ret; cbn;
    rewrite ?suspended_quiet by assumption; worlds;
    rewrite <- app_assoc; eexists _, _; reflexivity.
Qed.

Lemma rounds_count_attempt (r : Z) (n : nat) :
  count is_attempt (rounds r n) = n.
Proof.
  revert r; induction n as [|n IH]; intros r; [reflexivity|].
  unfold count in *; cbn. now rewrite IH.
Qed.

Lemma rounds_count_retrying (r : Z) (n : nat) :
  count is_retrying (rounds r n) = n.
Proof.
  revert r; induction n as [|n IH]; intros r; [reflexivity|].
  unfold count in *; cbn. now rewrite IH.
Qed.

Lemma rounds_count_error (r : Z) (n : nat) :
  count is_error (rounds r n) = 0%nat.
Proof.
  revert r; induction n as [|n IH]; intros r; [reflexivity|].
  unfold count in *; cbn. now rewrite IH.
Qed.

Lemma rounds_stateChanges (r : Z) (n : nat) :
  stateChanges (rounds r n) = [].
Proof.
  revert r; induction n as [|n IH]; intros r; [reflexivity|].
  cbn. apply IH.
Qed.

(** The searching loop against a prober that never matches: it runs for
    the [n] attempts that remain and exits. *)
Lemma attemptLoop_never_matching (n : nat) :
  passive E -> uninterrupted E ->
  forall (fuel : nat) (w : World),
    never_matching E (config w) (options w) ->
    isStopped w = false ->
    maxRetries (config w) - retries w = Z.of_nat n ->
    (n <= fuel)%nat ->
    exists rqs t,
      attemptLoop E fuel w =
      (Ok Exited,
       mkWorld (state w) (maxRetries (config w)) (config w) (options w) false
               (log w ++ rounds (retries w) n) rqs t (assigns w)).
Proof.
  intros Hp Hq. induction n as [|n IH]; intros fuel w Hnm Hs Hn Hf.
  - assert (Hc : (retries w <? maxRetries (config w)) = false)
      by (apply Z.ltb_ge; lia).
    exists (io w), (tick w).
    destruct fuel; cbn [attemptLoop]; rewrite Hs, Hc; cbn;
      rewrite app_nil_r; destruct w; cbn in *; subst;
      do 2 f_equal; lia.
  - destruct fuel as [|fuel]; [lia|].
    assert (Hc : (retries w <? maxRetries (config w)) = true)
      by (apply Z.ltb_lt; lia).
    cbn [attemptLoop]. rewrite Hs, Hc. cbn [negb andb].
    unfold bind at 1.
    destruct (attemptOnce_nomatch w Hp Hq (Hnm (tick w))) as (rqs & t & ->).
    destruct (retries w + 1 >=? maxRetries (config w)) eqn:Hge.
    + apply Z.geb_le in Hge. assert (n = 0%nat) by lia. subst n.
      unfold ret. rewrite Hs. exists rqs, t. do 2 f_equal. lia.
    + rewrite Z.geb_leb in Hge. apply Z.leb_gt in Hge.
      match goal with |- context [attemptLoop E fuel ?w1] =>
        destruct (IH fuel w1) as (rqs' & t' & ->) end; cbn.
      * exact Hnm.
      * exact Hs.
      * lia.
      * lia.
      * rewrite <- app_assoc. cbn. eexists _, _. reflexivity.
Qed.

End Stepping.

Lemma count_app (p : Event -> bool) (l1 l2 : list Event) :
  count p (l1 ++ l2) = (count p l1 + count p l2)%nat.
Proof. unfold count. rewrite filter_app, length_app. reflexivity. Qed.

Lemma stateChanges_app (l1 l2 : list Event) :
  stateChanges (l1 ++ l2) = (stateChanges l1 ++ stateChanges l2)%list.
Proof.
  induction l1 as [|ev l1 IH]; [reflexivity|].
  destruct ev; cbn; rewrite ?IH; reflexivity.
Qed.

(** One iteration of the searching loop. *)
Lemma attemptLoop_step (E : Env) (fuel : nat) (w : World) :
  isStopped w = false ->
  retries w < maxRetries (config w) ->
  attemptLoop E (S fuel) w =
  match attemptOnce E w with
  | (Ok FReturn, w1) => (Ok Returned, w1)
  | (Ok FBreak, w1) => (Ok Exited, w1)
  | (Ok FContinue, w1) => attemptLoop E fuel w1
  | (Throw e, w1) => (Throw e, w1)
  | (Halt h, w1) => (Halt h, w1)
  end.
Proof.
  intros Hs Hc. apply Z.ltb_lt in Hc.
  cbn [attemptLoop]. rewrite Hs, Hc. cbn [negb andb]. unfold bind.
  destruct (attemptOnce E w) as [[[| |]|e|h] w1]; reflexivity.
Qed.

(* ================================================================== *)
(** ** The searching loop against a prober that never matches *)

(** C3. With [maxRetries = N], a prober that never matches and no call of
    [stop()], [start()] emits exactly [N] [attempt] and [N] [retrying]
    notifications and ends in [listening]; the state [error] is never
    entered and no [error] notification is emitted. *)
Theorem C3_never_matching_exhausts (E : Env) (w : World) (N : nat) :
  passive E -> uninterrupted E ->
  never_matching E (config w) (options w) ->
  maxRetries (config w) = Z.of_nat N ->
  exists (w' : World) (evs : list Event),
    start E w = (Ok tt, w') /\
    state w' = listening /\
    log w' = (log w ++ evs)%list /\
    evs = ([Ev_stateChange searching] ++ rounds 0 N ++
           [Ev_stateChange listening; Ev_listening])%list /\
    count is_attempt evs = N /\
    count is_retrying evs = N /\
    count is_error evs = 0%nat /\
    stateChanges evs = [searching; listening] /\
    assigns w' = (assigns w ++ [searching; listening])%list.
Proof.
  intros Hp Hq Hnm HN.
  unfold start, bind at 1 2 3 4, set_isStopped, set_state, set_retries.
  rewrite emitStateChange_passive by assumption.
  unfold try_catch, attemptConnectionLoop, bind at 1 2, gets at 1.
  match goal with |- context [attemptLoop E ?f ?w1] =>
    destruct (@attemptLoop_never_matching E N Hp Hq f w1) as (rqs & t & ->)
  end; worlds; try assumption; try reflexivity.
  - lia.
  - unfold attemptFuel; cbn. lia.
  - unfold bind, set_state.
    rewrite emitStateChange_passive by assumption.
    rewrite emit_passive by assumption. worlds.
    eexists _, _. split; [reflexivity|]. cbn.
    repeat split.
    + lists.
    + change (Ev_stateChange searching :: rounds 0 N ++ [Ev_stateChange listening; Ev_listening])%list
        with ([Ev_stateChange searching] ++ rounds 0 N ++ [Ev_stateChange listening; Ev_listening])%list.
      rewrite !count_app, rounds_count_attempt. cbn. lia.
    + change (Ev_stateChange searching :: rounds 0 N ++ [Ev_stateChange listening; Ev_listening])%list
        with ([Ev_stateChange searching] ++ rounds 0 N ++ [Ev_stateChange listening; Ev_listening])%list.
      rewrite !count_app, rounds_count_retrying. cbn. lia.
    + change (Ev_stateChange searching :: rounds 0 N ++ [Ev_stateChange listening; Ev_listening])%list
        with ([Ev_stateChange searching] ++ rounds 0 N ++ [Ev_stateChange listening; Ev_listening])%list.
      rewrite !count_app, rounds_count_error. reflexivity.
    + cbn. rewrite stateChanges_app, rounds_stateChanges. reflexivity.
    + lists.
Qed.

(* ================================================================== *)
(** ** Peer validation *)

(** Line 159 accepts exactly the objects with a numeric [internalCode]
    equal to the configured one and a string [botId] other than ours. *)
Lemma isGemelo_spec (c : SyncConfig) (o : SyncManagerOptions) (data : JSON) :
  isGemelo c o data = true <->
  exists code peer,
    prop data "internalCode" = Some (JNumber code) /\
    code = internalCode c /\
    prop data "botId" = Some (JString peer) /\
    peer <> botId o.
Proof.
  unfold isGemelo, isSyncData. split.
  - intros H.
    destruct data; cbn in H; try discriminate.
    cbn. destruct (lookup_field "internalCode" fields) as [[]|]; cbn in H;
      try discriminate.
    destruct (lookup_field "botId" fields) as [[]|]; cbn in H;
      try discriminate.
    apply andb_prop in H as [H1 H2].
    apply Z.eqb_eq in H1. apply negb_true_iff, String.eqb_neq in H2.
    eauto 6.
  - intros (code & peer & Hc & -> & Hb & Hne).
    destruct data; cbn in Hc; try discriminate.
    cbn in *. rewrite Hc, Hb. cbn.
    rewrite Z.eqb_refl. apply String.eqb_neq in Hne. rewrite Hne. reflexivity.
Qed.

Lemma suspended_config (E : Env) (w : World) :
  config (suspended E w) = config w /\ options (suspended E w) = options w.
Proof.
  unfold suspended. destruct (stops E (tick w)); [|split; reflexivity].
  unfold stop, bind, set_isStopped, set_state, emitStateChange, gets, emit; cbn.
  match goal with |- context [throws E ?n ?ev] => destruct (throws E n ev) end;
    split; reflexivity.
Qed.

(** What [tryConnectToGemelo] resolves to, whatever the surroundings do:
    the probe matched and the [gemeloFound] observers returned. *)
Lemma tryConnect_result (E : Env) (w : World) :
  fst (tryConnectToGemelo E w) =
  Ok (match http E (tick w) (pingUrl (config w)) with
      | Resolved resp =>
          ok resp &&
          match json_body resp with
          | Resolved data =>
              isGemelo (config w) (options w) data &&
              match throws E
                      (List.length
                         (log (suspended E
                                 (suspended E
                                    (record_request
                                       (HttpGetAbortable (pingUrl (config w))
                                          (connectionTimeoutMs (config w))) w)))))
                      (Ev_gemeloFound (as_string (prop data "botId")))
              with
              | Some _ => false
              | None => true
              end
          | Rejected _ => false
          end
      | Rejected _ => false
      end).
Proof.
  unfold tryConnectToGemelo, try_catch, bind, gets, fetch, read_json, settle.
  destruct (http E (tick w) (pingUrl (config w))) as [resp | e]; cbn;
    [|reflexivity].
  destruct (ok resp); cbn; [|reflexivity].
  destruct (json_body resp) as [data | e]; cbn; [|reflexivity].
  match goal with |- context [isGemelo (config ?w2) (options ?w2) data] =>
    destruct (suspended_config E
                (record_request
                   (HttpGetAbortable (pingUrl (config w))
                      (connectionTimeoutMs (config w))) w)) as [Hc1 Ho1];
    match w2 with suspended E ?w1 =>
      destruct (suspended_config E w1) as [Hc2 Ho2] end;
    rewrite Hc2, Ho2, Hc1, Ho1
  end.
  cbn.
  destruct (isGemelo (config w) (options w) data); cbn; [|reflexivity].
  unfold emit.
  match goal with |- context [throws E ?n ?ev] => destruct (throws E n ev) end;
    reflexivity.
Qed.

(** C5. A probe attempt counts as a match if and only if the response is
    HTTP-OK and parses to data with a numeric [internalCode] equal to the
    configured code and a string [botId] different from the agent's own;
    in particular a response whose [botId] is the agent's own is
    rejected, whatever its code.  (An observer that throws on
    [gemeloFound] would turn a match into a non-match, hence the premise
    of the equivalence.) *)
Theorem C5_probe_match_iff (E : Env) (w : World) :
  ((forall n peer, throws E n (Ev_gemeloFound peer) = None) ->
   (fst (tryConnectToGemelo E w) = Ok true <->
    exists resp data code peer,
      http E (tick w) (pingUrl (config w)) = Resolved resp /\
      ok resp = true /\
      json_body resp = Resolved data /\
      prop data "internalCode" = Some (JNumber code) /\
      code = internalCode (config w) /\
      prop data "botId" = Some (JString peer) /\
      peer <> botId (options w))) /\
  (fst (tryConnectToGemelo E w) = Ok true \/
   fst (tryConnectToGemelo E w) = Ok false) /\
  (forall resp data,
      http E (tick w) (pingUrl (config w)) = Resolved resp ->
      json_body resp = Resolved data ->
      prop data "botId" = Some (JString (botId (options w))) ->
      fst (tryConnectToGemelo E w) = Ok false).
Proof.
  rewrite tryConnect_result. split; [|split].
  - intros Hg. split.
    + intros H. injection H as H.
      destruct (http E (tick w) (pingUrl (config w))) as [resp | e];
        [|discriminate].
      apply andb_prop in H as [Hok H].
      destruct (json_body resp) as [data | e] eqn:Hj; [|discriminate].
      apply andb_prop in H as [Hgem _].
      apply isGemelo_spec in Hgem as (code & peer & H1 & H2 & H3 & H4).
      exists resp, data, code, peer. repeat split; assumption.
    + intros (resp & data & code & peer & -> & -> & -> & H1 & H2 & H3 & H4).
      rewrite Hg. cbn.
      assert (Hgem : isGemelo (config w) (options w) data = true)
        by (apply isGemelo_spec; eauto 6).
      rewrite Hgem. reflexivity.
  - match goal with |- Ok ?b = _ \/ _ => destruct b end; auto.
  - intros resp data -> -> Hb. f_equal.
    assert (Hgem : isGemelo (config w) (options w) data = false).
    { destruct (isGemelo (config w) (options w) data) eqn:Hgem; [|reflexivity].
      apply isGemelo_spec in Hgem as (code & peer & _ & _ & H3 & H4).
      congruence. }
    rewrite Hgem. cbn. apply andb_false_r.
Qed.

(* ================================================================== *)
(** ** The signal-wait loop without approval *)

Section SignalWait.

Variable E : Env.
Hypothesis Hp : passive E.
Hypothesis Hq : uninterrupted E.

(** A poll that does not approve continues the loop; a failing one emits
    one non-fatal [error]. *)
Lemma pollOnce_nonapproving (w : World) :
  approving (http E (tick w) (signalUrl (options w))) = false ->
  exists errs t,
    pollOnce E w =
    (Ok FContinue,
     mkWorld (state w) (retries w) (config w) (options w) (isStopped w)
             (log w ++ errs) (io w ++ [HttpGet (signalUrl (options w))]) t
             (assigns w)) /\
    forallb is_error errs = true.
Proof.
  intros Ha.
  unfold pollOnce, try_catch, bind, gets, fetch, read_json, settle.
  rewrite suspended_quiet by assumption.
  unfold approving in Ha.
  destruct (http E (tick w) (signalUrl (options w))) as [resp | e]; cbn.
  - destruct (ok resp); cbn in *.
    + rewrite suspended_quiet by assumption.
      destruct (json_body resp) as [body | e]; cbn.
      * rewrite Ha. unfold ret. worlds.
        exists [], (S (S (tick w))). rewrite app_nil_r. split; reflexivity.
      * rewrite emit_passive by assumption. unfold ret. worlds.
        exists [Ev_error e], (S (S (tick w))). split; reflexivity.
    + unfold ret. worlds.
      exists [], (S (tick w)). rewrite app_nil_r. split; reflexivity.
  - rewrite emit_passive by assumption. unfold ret. worlds.
    exists [Ev_error e], (S (tick w)). split; reflexivity.
Qed.

Lemma pollLoop_never_approving (n : nat) :
  forall (fuel : nat) (polls : Z) (w : World),
    never_approving E (options w) ->
    isStopped w = false ->
    maxPolls - polls = Z.of_nat n ->
    (n <= fuel)%nat ->
    exists errs t,
      pollLoop E fuel polls w =
      (Ok Exited,
       mkWorld (state w) (retries w) (config w) (options w) false
               (log w ++ errs)
               (io w ++ polling (signalUrl (options w))
                                (retryIntervalMs (config w)) n)
               t (assigns w)) /\
      forallb is_error errs = true.
Proof.
  induction n as [|n IH]; intros fuel polls w Hna Hs Hn Hf.
  - assert (Hc : (polls <? maxPolls) = false) by (apply Z.ltb_ge; lia).
    exists [], (tick w).
    destruct fuel; cbn [pollLoop]; rewrite Hs, Hc; cbn;
      rewrite !app_nil_r; destruct w; cbn in *; subst; split; reflexivity.
  - destruct fuel as [|fuel]; [lia|].
    assert (Hc : (polls <? maxPolls) = true) by (apply Z.ltb_lt; lia).
    cbn [pollLoop]. rewrite Hs, Hc. cbn [negb andb].
    unfold bind at 1.
    destruct (pollOnce_nonapproving w (Hna (tick w))) as (errs & t & -> & Herrs).
    unfold bind, gets, sleep. rewrite suspended_quiet by assumption. worlds.
    match goal with |- context [pollLoop E fuel ?p ?w1] =>
      pose proof (IH fuel p w1) as IH' end.
    cbn [state retries config options isStopped log io tick assigns] in IH'.
    destruct IH' as (errs' & t' & He & Herrs'); try assumption; try lia.
    rewrite He.
    exists (errs ++ errs')%list, t'. split.
    + lists.
    + rewrite forallb_app, Herrs, Herrs'. reflexivity.
Qed.

End SignalWait.

Lemma errors_only_count (p : Event -> bool) (errs : list Event) :
  (forall ev, is_error ev = true -> p ev = false) ->
  forallb is_error errs = true -> count p errs = 0%nat.
Proof.
  intros Hdisj. induction errs as [|ev errs IH]; intros H; [reflexivity|].
  cbn in H. apply andb_prop in H as [H1 H2].
  unfold count in *. cbn. rewrite (Hdisj ev H1). auto.
Qed.

Lemma polling_count (url : string) (ms : Z) (n : nat) :
  List.length (filter (is_signal_request url) (polling url ms n)) = n.
Proof.
  induction n as [|n IH]; [reflexivity|].
  cbn. rewrite String.eqb_refl. cbn. now rewrite IH.
Qed.


(* ================================================================== *)
(** ** The deploy sequence *)

Ltac step_bind :=
  match goal with
  | |- context [match ?m ?w with _ => _ end] =>
      lazymatch type of (m w) with
      | (Res _ * World)%type =>
          let r := fresh "r" in
          let w' := fresh "w" in
          let Hr := fresh "Hr" in
          destruct (m w) as [r w'] eqn:Hr; destruct r
      end
  end.

Section Deploy.

Variable E : Env.

(** The loop over [pre ++ rest] is the loop over [pre] followed by the
    loop over [rest]. *)
Lemma downloadAll_app (pre rest : list string) (w : World) :
  downloadAll E (pre ++ rest) w =
  (downloadAll E pre ;; downloadAll E rest) w.
Proof.
  revert w. induction pre as [|u pre IH]; intros w; [reflexivity|].
  cbn [app downloadAll].
  repeat (rewrite bind_assoc; apply bind_ext; intros ? ?).
  apply IH.
Qed.

Lemma suspended_io (w : World) :
  io (suspended E w) = io w.
Proof.
  unfold suspended. destruct (stops E (tick w)); [|reflexivity].
  unfold stop, bind, set_isStopped, set_state, emitStateChange, gets, emit; cbn.
  match goal with |- context [throws E ?n ?ev] => destruct (throws E n ev) end;
    reflexivity.
Qed.

Lemma emit_frame (ev : Event) (w : World) :
  io (snd (emit E ev w)) = io w /\ config (snd (emit E ev w)) = config w /\
  tick (snd (emit E ev w)) = tick w.
Proof.
  unfold emit. destruct (throws E _ ev); repeat split; reflexivity.
Qed.

(** A loop that completes has fetched and written every file, in the
    order of the list. *)
Lemma downloadAll_in_order (urls : list string) :
  forall (w w' : World),
    downloadAll E urls w = (Ok tt, w') ->
    config w' = config w /\
    exists datas,
      List.length datas = List.length urls /\
      io w' = (io w ++ transfers E (deployPath (config w)) (combine urls datas))%list.
Proof.
  induction urls as [|u urls IH]; intros w w' H.
  - cbn in H. injection H as <-. split; [reflexivity|].
    exists []. split; [reflexivity|]. cbn. now rewrite app_nil_r.
  - cbn [downloadAll] in H. unfold bind at 1 in H.
    pose proof (emit_frame (Ev_downloadStart u) w) as (Hio1 & Hc1 & _).
    destruct (emit E (Ev_downloadStart u) w) as [[[]|e|h] w1]; try discriminate.
    cbn [snd] in Hio1, Hc1.
    unfold bind at 1 in H. unfold fetch, settle in H.
    destruct (http E (tick w1) u) as [res|e]; try discriminate.
    unfold bind at 1 in H.
    destruct (negb (ok res)); [discriminate|].
    unfold ret at 1, bind at 1, ret at 1, bind at 1, gets at 1, bind at 1,
      ret at 1, bind at 1, read_text, settle in H.
    destruct (text_body res) as [data|e]; try discriminate.
    unfold bind at 1, fs_call in H.
    destruct (fs E _); try discriminate.
    unfold bind at 1 in H.
    match type of H with context [emit E ?ev ?w4] =>
      pose proof (emit_frame ev w4) as (Hio5 & Hc5 & _);
      destruct (emit E ev w4) as [[[]|e|h] w5]; try discriminate
    end.
    cbn [snd] in Hio5, Hc5.
    apply IH in H as (Hc & datas & Hlen & Hio).
    rewrite Hc5 in Hc.
    match type of Hc with context [config (suspended E ?w3)] =>
      destruct (suspended_config E w3) as [Hc3 _]; rewrite Hc3 in Hc end.
    cbn [config record_request] in Hc.
    match type of Hc with context [config (suspended E ?w2)] =>
      destruct (suspended_config E w2) as [Hc2 _]; rewrite Hc2 in Hc end.
    match type of Hc with context [config (suspended E ?w2)] =>
      destruct (suspended_config E w2) as [Hc2' _]; rewrite Hc2' in Hc end.
    cbn [config record_request] in Hc. rewrite Hc1 in Hc.
    split; [exact Hc|].
    exists (data :: datas). split; [cbn; now rewrite Hlen|].
    rewrite Hio, Hc5, Hc3. cbn [config record_request].
    rewrite Hc2, Hc2'. cbn [config record_request]. rewrite Hc1.
    rewrite Hio5, !suspended_io. cbn [io record_request].
    rewrite !suspended_io. cbn [io record_request]. rewrite Hio1.
    repeat rewrite <- app_assoc. cbn [app transfers combine].
    rewrite Hc2'. cbn [config record_request]. rewrite Hc1. reflexivity.
Qed.

(** A non-success response on the file after [pre] throws out of the
    loop right after that request: nothing of [post] is started. *)
Lemma downloadAll_abort (pre post : list string) (u : string)
      (w w1 : World) (resp : Response) :
  passive E ->
  downloadAll E pre w = (Ok tt, w1) ->
  http E (tick w1) u = Resolved resp ->
  ok resp = false ->
  downloadAll E (pre ++ u :: post) w =
  (Throw (downloadError u),
   suspended E (record_request (HttpGet u) (record_event (Ev_downloadStart u) w1))).
Proof.
  intros Hp Hpre Hresp Hok.
  rewrite downloadAll_app. unfold bind at 1. rewrite Hpre.
  cbn [downloadAll]. unfold bind at 1. rewrite emit_passive by assumption.
  unfold bind at 1, fetch, settle.
  cbn [tick record_request record_event]. rewrite Hresp.
  unfold bind at 1. rewrite Hok. reflexivity.
Qed.

Lemma execCommand_ok (cmd cwd : string) (w w' : World) :
  execCommand E cmd cwd w = (Ok tt, w') ->
  config w' = config w /\ io w' = (io w ++ [Exec cmd cwd])%list.
Proof.
  unfold execCommand, bind at 1. intros H.
  pose proof (emit_frame (Ev_execStart cmd) w) as (Hio1 & Hc1 & _).
  destruct (emit E (Ev_execStart cmd) w) as [[[]|e|h] w1]; try discriminate.
  cbn [snd] in Hio1, Hc1.
  destruct (child E (tick w1)) as [out | err stderr].
  - unfold emit_in_callback in H.
    match type of H with context [emit E ?ev ?w2] =>
      pose proof (emit_frame ev w2) as (Hio2 & Hc2 & _);
      destruct (emit E ev w2) as [[[]|e|h] w3]; try discriminate end.
    injection H as <-. cbn [snd] in Hio2, Hc2.
    rewrite Hio2, Hc2, suspended_io.
    destruct (suspended_config E (record_request (Exec cmd cwd) w1)) as [-> _].
    cbn [io config record_request]. rewrite Hio1, Hc1. split; reflexivity.
  - unfold bind, emit_in_callback, throw in H.
    match type of H with context [emit E ?ev ?w2] =>
      destruct (emit E ev w2) as [[[]|e|h] w3]; discriminate end.
Qed.

(** A deploy whose steps all succeed: the directory is created, the files
    are fetched and written in the configured order, then the command is
    launched in the deploy directory. *)
Lemma deploySteps_in_order (w w' : World) :
  deploySteps E w = (Ok tt, w') ->
  exists datas,
    List.length datas = List.length (botsFilesUrls (config w)) /\
    io w' =
    (io w ++ [Mkdir (deployPath (config w))] ++
     transfers E (deployPath (config w))
               (combine (botsFilesUrls (config w)) datas) ++
     [Exec (botsExecCommand (config w)) (deployPath (config w))])%list.
Proof.
  unfold deploySteps, bind at 1. intros H.
  pose proof (emit_frame Ev_deployStart w) as (Hio1 & Hc1 & _).
  destruct (emit E Ev_deployStart w) as [[[]|e|h] w1]; try discriminate.
  cbn [snd] in Hio1, Hc1.
  unfold bind at 1, gets at 1, bind at 1, fs_call in H.
  destruct (fs E (tick w1)); try discriminate.
  unfold bind at 1, gets at 1, bind at 1 in H.
  match type of H with context [downloadAll E ?us ?w2] =>
    destruct (downloadAll E us w2) as [[[]|e|h] w3] eqn:Hd; try discriminate
  end.
  apply downloadAll_in_order in Hd as (Hc3 & datas & Hlen & Hio3).
  destruct (suspended_config E (record_request (Mkdir (deployPath (config w1))) w1))
    as [Hc2 _].
  rewrite Hc2 in *. rewrite suspended_io in Hio3.
  cbn [config io record_request] in *. rewrite Hc1 in *. rewrite Hio1 in Hio3.
  unfold bind at 1 in H.
  pose proof (emit_frame Ev_deployFilesWritten w3) as (Hio4 & Hc4 & _).
  destruct (emit E Ev_deployFilesWritten w3) as [[[]|e|h] w4]; try discriminate.
  cbn [snd] in Hio4, Hc4.
  unfold bind at 1, gets at 1, bind at 1, gets at 1, bind at 1 in H.
  match type of H with context [execCommand E ?c ?d ?w5] =>
    destruct (execCommand E c d w5) as [[[]|e|h] w6] eqn:Hx; try discriminate
  end.
  apply execCommand_ok in Hx as (Hc6 & Hio6).
  pose proof (emit_frame Ev_deploySuccess w6) as (Hio7 & _ & _).
  destruct (emit E Ev_deploySuccess w6) as [[[]|e|h] w7]; try discriminate.
  injection H as <-. cbn [snd] in Hio7.
  exists datas. split; [exact Hlen|].
  rewrite Hio7, Hio6, Hio4, Hio3, Hc4, Hc3. lists.
Qed.

End Deploy.

(** C6. The deploy sequence fetches and writes the configured artifact
    URLs in their listed order, and a non-success response on an artifact
    aborts the deployment before the next artifact is attempted: the
    machine goes to [error], nothing after the failed request is issued
    (no further download, no launch). *)
Theorem C6_deploy_order_and_abort (E : Env) :
  passive E ->
  (forall w w',
      deploySteps E w = (Ok tt, w') ->
      exists datas,
        List.length datas = List.length (botsFilesUrls (config w)) /\
        io w' =
        (io w ++ [Mkdir (deployPath (config w))] ++
         transfers E (deployPath (config w))
                   (combine (botsFilesUrls (config w)) datas) ++
         [Exec (botsExecCommand (config w)) (deployPath (config w))])%list) /\
  (forall w pre u post w1 resp,
      botsFilesUrls (config w) = (pre ++ u :: post)%list ->
      fs E (tick w) = None ->
      downloadAll E pre
        (suspended E (record_request (Mkdir (deployPath (config w)))
                                     (record_event Ev_deployStart w)))
      = (Ok tt, w1) ->
      http E (tick w1) u = Resolved resp ->
      ok resp = false ->
      exists w' datas,
        deployBots E w = (Ok tt, w') /\
        state w' = error /\
        List.length datas = List.length pre /\
        io w' =
        (io w ++ [Mkdir (deployPath (config w))] ++
         transfers E (deployPath (config w)) (combine pre datas) ++
         [HttpGet u])%list /\
        exists evs,
          log w' =
          (evs ++ [Ev_stateChange error; Ev_error (downloadError u)])%list).
Proof.
  intros Hp. split.
  - intros w w'. apply deploySteps_in_order.
  - intros w pre u post w1 resp Hurls Hfs Hpre Hresp Hok.
    pose proof (@downloadAll_abort E pre post u _ w1 resp Hp Hpre Hresp Hok)
      as Habort.
    apply downloadAll_in_order in Hpre as (Hc1 & datas & Hlen & Hio1).
    destruct (suspended_config E
                (record_request (Mkdir (deployPath (config w)))
                                (record_event Ev_deployStart w))) as [Hc0 _].
    rewrite Hc0 in *. rewrite suspended_io in Hio1.
    cbn [config io record_request record_event] in *.
    unfold deployBots, try_catch, deploySteps, bind at 1.
    rewrite emit_passive by assumption.
    unfold bind at 1, gets at 1, bind at 1, fs_call.
    cbn [tick config record_event]. rewrite Hfs.
    unfold bind at 1, gets at 1, bind at 1. rewrite Hc0.
    cbn [config record_request record_event].
    rewrite Hurls, Habort.
    rewrite setError_passive by assumption.
    eexists _, datas. split; [reflexivity|].
    cbn [state io log]. rewrite suspended_io.
    cbn [io record_request record_event]. rewrite Hio1.
    repeat split; try assumption.
    + lists.
    + eexists. reflexivity.
Qed.

(* ================================================================== *)
(** ** Manual wake *)

(** What [wakeUpGemelo] does in [listening], by the outcome of the wake
    request. *)
Lemma wakeUpGemelo_listening (E : Env) (w : World) :
  passive E -> uninterrupted E ->
  state w = listening ->
  wakeUpGemelo E w =
  (Ok tt,
   mkWorld listening (retries w) (config w) (options w) (isStopped w)
           (log w ++
            match http E (tick w) (wakeUrl (options w)) with
            | Resolved resp => if ok resp then [Ev_wokeGemelo] else []
            | Rejected e => [Ev_error e]
            end)
           (io w ++ [HttpPost (wakeUrl (options w))
                              (JObject [("internalCode",
                                         JNumber (internalCode (config w)))])])
           (S (tick w)) (assigns w)).
Proof.
  intros Hp Hq Hs.
  unfold wakeUpGemelo, bind at 1, gets at 1. rewrite Hs. cbn [SyncState_eqb negb].
  unfold try_catch, bind, gets, fetch, settle.
  rewrite suspended_quiet by assumption.
  destruct (http E (tick w) (wakeUrl (options w))) as [resp | e].
  - destruct (ok resp).
    + rewrite emit_passive by assumption. worlds. rewrite Hs. reflexivity.
    + unfold ret. worlds. rewrite Hs, app_nil_r. reflexivity.
  - rewrite emit_passive by assumption. worlds. rewrite Hs. reflexivity.
Qed.

(** C8 (as amended). In [listening], a wake request that is rejected
    (network error) is reported by one non-fatal [error] notification; a
    non-success response is not reported at all (no notification is
    emitted); in both cases the state remains [listening]. *)
Theorem C8_wake_failure (E : Env) (w : World) :
  passive E -> uninterrupted E ->
  state w = listening ->
  (forall e,
      http E (tick w) (wakeUrl (options w)) = Rejected e ->
      fst (wakeUpGemelo E w) = Ok tt /\
      state (snd (wakeUpGemelo E w)) = listening /\
      assigns (snd (wakeUpGemelo E w)) = assigns w /\
      log (snd (wakeUpGemelo E w)) = (log w ++ [Ev_error e])%list) /\
  (forall resp,
      http E (tick w) (wakeUrl (options w)) = Resolved resp ->
      ok resp = false ->
      fst (wakeUpGemelo E w) = Ok tt /\
      state (snd (wakeUpGemelo E w)) = listening /\
      assigns (snd (wakeUpGemelo E w)) = assigns w /\
      log (snd (wakeUpGemelo E w)) = log w).
Proof.
  intros Hp Hq Hs.
  rewrite (wakeUpGemelo_listening w Hp Hq Hs). cbn [fst snd state assigns log].
  split.
  - intros e ->. repeat split; reflexivity.
  - intros resp -> ->. rewrite app_nil_r. repeat split; reflexivity.
Qed.

(* ================================================================== *)
(** ** Relations that every step respects *)

Section Respects.

Context {R : World -> World -> Prop} `{PreOrder World R}.

Lemma respects_ret {A} (a : A) : respects R (ret a).
Proof. intros w. reflexivity. Qed.

Lemma respects_throw {A} (e : Exn) : respects R (@throw A e).
Proof. intros w. reflexivity. Qed.

Lemma respects_gets {A} (f : World -> A) : respects R (gets f).
Proof. intros w. reflexivity. Qed.

Lemma respects_settle {A} (r : Settled A) : respects R (settle r).
Proof. intros w. destruct r; reflexivity. Qed.

Lemma respects_bind {A B} (m : M A) (f : A -> M B) :
  respects R m -> (forall a, respects R (f a)) -> respects R (bind m f).
Proof.
  intros Hm Hf w. unfold bind. specialize (Hm w).
  destruct (m w) as [[a|e|h] w1]; cbn [snd] in *; try assumption.
  etransitivity; [exact Hm | apply Hf].
Qed.

Lemma respects_try_catch {A} (m : M A) (handler : Exn -> M A) :
  respects R m -> (forall e, respects R (handler e)) ->
  respects R (try_catch m handler).
Proof.
  intros Hm Hh w. unfold try_catch. specialize (Hm w).
  destruct (m w) as [[a|e|h] w1]; cbn [snd] in *; try assumption.
  etransitivity; [exact Hm | apply Hh].
Qed.

(** A step that only changes the world. *)
Lemma respects_after {A} (m : M A) (g : World -> World) :
  (forall w, R w (g w)) -> (forall w, snd (m w) = g w) -> respects R m.
Proof. intros Hg Hm w. rewrite Hm. apply Hg. Qed.

End Respects.

Ltac respects_step :=
  first
    [ apply respects_ret
    | apply respects_gets
    | apply respects_throw
    | apply respects_settle
    | assumption
    | match goal with
      | |- respects _ (if ?b then _ else _) => destruct b
      | |- respects _ (match ?x with _ => _ end) => destruct x
      end ].

(** The relations of interest are closed under the elementary changes of
    the world; which notifications they tolerate is the parameter
    [tolerated]. *)
Section Composite.

Variable E : Env.
Context {R : World -> World -> Prop} `{PreOrder World R}.
Variable tolerated : Event -> bool.
Variable visits : SyncState -> bool.

Hypothesis R_event :
  forall ev w, tolerated ev = true -> R w (record_event ev w).
Hypothesis R_request : forall rq w, R w (record_request rq w).
Hypothesis R_tick : forall w, R w (next_tick w).
(** [this.state = s] with its [stateChange], and [isStopped] set or not. *)
Hypothesis R_transition :
  forall s b w,
    visits s = true ->
    R w (mkWorld s (retries w) (config w) (options w) b
                 (log w ++ [Ev_stateChange s]) (io w) (tick w)
                 (assigns w ++ [s])).
Hypothesis R_incr :
  forall w,
    R w (mkWorld (state w) (retries w + 1) (config w) (options w)
                 (isStopped w) (log w) (io w) (tick w) (assigns w)).

Lemma r_emit (ev : Event) :
  tolerated ev = true -> respects R (emit E ev).
Proof.
  intros Hev w. unfold emit.
  destruct (throws E _ ev); cbn [snd]; apply R_event, Hev.
Qed.

Lemma r_emit_in_callback (ev : Event) :
  tolerated ev = true -> respects R (emit_in_callback E ev).
Proof.
  intros Hev w. unfold emit_in_callback, emit.
  destruct (throws E _ ev); cbn [snd]; apply R_event, Hev.
Qed.

Lemma r_assign_notify {A} (s : SyncState) (rest : M A) :
  visits s = true ->
  respects R rest ->
  respects R (set_state s ;; emitStateChange E ;; rest).
Proof.
  intros Hs Hrest w.
  unfold bind at 1, set_state, bind at 1, emitStateChange, bind at 1, gets, emit.
  cbn [state log].
  destruct (throws E _ _); cbn [snd].
  - apply (R_transition (isStopped w) w Hs).
  - etransitivity; [apply (R_transition (isStopped w) w Hs)|]. apply Hrest.
Qed.

(** [stop()] can arrive during any [await]. *)
Hypothesis visits_idle : visits idle = true.

Lemma r_stop : respects R (stop E).
Proof.
  intros w. rewrite stop_world. apply (R_transition true w visits_idle).
Qed.

Lemma r_suspended (w : World) : R w (suspended E w).
Proof.
  unfold suspended. destruct (stops E (tick w)).
  - etransitivity; [apply r_stop | apply R_tick].
  - apply R_tick.
Qed.

Lemma r_issue (rq : Request) (w : World) :
  R w (suspended E (record_request rq w)).
Proof. etransitivity; [apply (R_request rq) | apply r_suspended]. Qed.

Lemma r_fetch (rq : Request) (url : string) : respects R (fetch E rq url).
Proof.
  intros w. unfold fetch. destruct (http E (tick w) url); apply r_issue.
Qed.

Lemma r_read_json (r : Response) : respects R (read_json E r).
Proof. intros w. unfold read_json. destruct (json_body r); apply r_suspended. Qed.

Lemma r_read_text (r : Response) : respects R (read_text E r).
Proof. intros w. unfold read_text. destruct (text_body r); apply r_suspended. Qed.

Lemma r_fs_call (rq : Request) : respects R (fs_call E rq).
Proof. intros w. unfold fs_call. destruct (fs E (tick w)); apply r_issue. Qed.

Lemma r_sleep (ms : Z) : respects R (sleep E ms).
Proof. intros w. apply r_issue. Qed.

Lemma r_incr_retries : respects R incr_retries.
Proof. intros w. apply R_incr. Qed.

Ltac compose :=
  repeat
    lazymatch goal with
    | |- respects _ (ret _) => apply respects_ret
    | |- respects _ (gets _) => apply respects_gets
    | |- respects _ (throw _) => apply respects_throw
    | |- respects _ (bind (set_state _) (fun _ => bind (emitStateChange _) _)) =>
        apply r_assign_notify; [solve [auto] |]
    | |- respects _ incr_retries => apply r_incr_retries
    | |- respects _ (fetch _ _ _) => apply r_fetch
    | |- respects _ (read_json _ _) => apply r_read_json
    | |- respects _ (read_text _ _) => apply r_read_text
    | |- respects _ (fs_call _ _) => apply r_fs_call
    | |- respects _ (sleep _ _) => apply r_sleep
    | |- respects _ (emit _ _) => apply r_emit; solve [auto]
    | |- respects _ (emit_in_callback _ _) =>
        apply r_emit_in_callback; solve [auto]
    | |- respects _ (bind _ _) => apply respects_bind; [| intros ?]
    | |- respects _ (try_catch _ _) => apply respects_try_catch; [| intros ?]
    | |- respects _ (if ?b then _ else _) => destruct b
    | |- respects _ (match ?x with _ => _ end) => destruct x
    | |- _ => solve [auto]
    end.

(** The notifications of the deploy steps. *)
Hypothesis tolerated_deploy :
  forall ev, deploy_step_event ev = true -> tolerated ev = true.

Lemma r_execCommand (cmd cwd : string) : respects R (execCommand E cmd cwd).
Proof.
  unfold execCommand. apply respects_bind; [compose|]. intros _ w.
  destruct (child E (tick w)) as [out | err stderr].
  - etransitivity; [apply (r_issue (Exec cmd cwd))|].
    apply r_emit_in_callback. auto.
  - etransitivity; [apply (r_issue (Exec cmd cwd))|].
    assert (Hk : respects R (emit_in_callback E (Ev_execError err stderr) ;;
                             @throw unit err)) by compose.
    apply Hk.
Qed.

Lemma r_downloadAll (urls : list string) : respects R (downloadAll E urls).
Proof.
  induction urls as [|u urls IH]; cbn [downloadAll]; compose.
Qed.

Lemma r_deploySteps : respects R (deploySteps E).
Proof.
  unfold deploySteps.
  pose proof r_downloadAll. pose proof r_execCommand. compose.
Qed.

(** [setError]. *)
Hypothesis tolerated_error : forall e, tolerated (Ev_error e) = true.
Hypothesis visits_error : visits error = true.

Lemma r_setError (err : Exn) : respects R (setError E err).
Proof. unfold setError. compose. Qed.

Lemma r_deployBots : respects R (deployBots E).
Proof.
  unfold deployBots. pose proof r_deploySteps. pose proof r_setError. compose.
Qed.

(** The signal-wait phase. *)
Hypothesis tolerated_signalReceived : tolerated Ev_deploySignalReceived = true.

Lemma r_pollOnce : respects R (pollOnce E).
Proof. unfold pollOnce. pose proof r_deployBots. compose. Qed.

Lemma r_pollLoop (fuel : nat) (polls : Z) : respects R (pollLoop E fuel polls).
Proof.
  revert polls. induction fuel as [|fuel IH]; intros polls w; cbn [pollLoop].
  - destruct (negb (isStopped w) && (polls <? maxPolls)); reflexivity.
  - destruct (negb (isStopped w) && (polls <? maxPolls)); [|reflexivity].
    revert w. change (respects R
      (flow <- pollOnce E ;;
       match flow with
       | FReturn => ret Returned
       | _ => ms <- gets (fun w => retryIntervalMs (config w)) ;;
              sleep E ms ;; pollLoop E fuel (polls + 1)
       end)).
    pose proof r_pollOnce. pose proof (IH (polls + 1)). compose.
Qed.

Hypothesis tolerated_waiting : tolerated Ev_waitingDeploySignal = true.
Hypothesis tolerated_timeout : tolerated Ev_deploySignalTimeout = true.
Hypothesis visits_deploying : visits deploying = true.

Lemma r_waitForDeploySignal : respects R (waitForDeploySignal E).
Proof.
  unfold waitForDeploySignal.
  generalize (Z.to_nat maxPolls). intros fuel.
  pose proof (r_pollLoop fuel 0). pose proof r_setError.
  compose.
Qed.

(** The searching phase. *)
Hypothesis tolerated_gemeloFound :
  forall peer, tolerated (Ev_gemeloFound peer) = true.

Lemma r_tryConnectToGemelo : respects R (tryConnectToGemelo E).
Proof. unfold tryConnectToGemelo. compose. Qed.

Lemma r_breakOrSleep : respects R (breakOrSleep E).
Proof. unfold breakOrSleep. compose. Qed.

Lemma r_attemptCatch (err : Exn) : respects R (attemptCatch E err).
Proof.
  unfold attemptCatch. pose proof r_setError. pose proof r_breakOrSleep. compose.
Qed.

Hypothesis tolerated_connected : tolerated Ev_connected = true.
Hypothesis tolerated_retrying : forall n, tolerated (Ev_retrying n) = true.
Hypothesis visits_connected : visits connected = true.

Lemma r_attemptTry : respects R (attemptTry E).
Proof.
  unfold attemptTry.
  pose proof r_tryConnectToGemelo. pose proof r_waitForDeploySignal.
  pose proof r_breakOrSleep. compose.
Qed.

Hypothesis tolerated_attempt : forall n, tolerated (Ev_attempt n) = true.

Lemma r_attemptOnce : respects R (attemptOnce E).
Proof.
  unfold attemptOnce. pose proof r_attemptTry. pose proof r_attemptCatch. compose.
Qed.

Lemma r_attemptLoop (fuel : nat) : respects R (attemptLoop E fuel).
Proof.
  induction fuel as [|fuel IH]; intros w; cbn [attemptLoop].
  - destruct (negb (isStopped w) && (retries w <? maxRetries (config w)));
      reflexivity.
  - destruct (negb (isStopped w) && (retries w <? maxRetries (config w)));
      [|reflexivity].
    revert w. change (respects R
      (flow <- attemptOnce E ;;
       match flow with
       | FReturn => ret Returned
       | FBreak => ret Exited
       | FContinue => attemptLoop E fuel
       end)).
    pose proof r_attemptOnce. compose.
Qed.

Hypothesis tolerated_listening : tolerated Ev_listening = true.
Hypothesis visits_listening : visits listening = true.

Lemma r_attemptConnectionLoop : respects R (attemptConnectionLoop E).
Proof.
  unfold attemptConnectionLoop. pose proof r_attemptLoop. compose.
Qed.

End Composite.

(** [wakeUpGemelo] apart: it assigns no state. *)
Section CompositeWake.

Variable E : Env.
Context {R : World -> World -> Prop} `{PreOrder World R}.

Hypothesis R_request : forall rq w, R w (record_request rq w).
Hypothesis R_suspended : forall w, R w (suspended E w).
Hypothesis R_woke : forall w, R w (record_event Ev_wokeGemelo w).
Hypothesis R_error : forall e w, R w (record_event (Ev_error e) w).

Lemma r_emit_one (ev : Event) :
  (forall w, R w (record_event ev w)) -> respects R (emit E ev).
Proof.
  intros Hev w. unfold emit. destruct (throws E _ ev); cbn [snd]; apply Hev.
Qed.

Lemma r_wakeUpGemelo : respects R (wakeUpGemelo E).
Proof.
  unfold wakeUpGemelo.
  apply respects_bind; [apply respects_gets|]. intros s.
  destruct (negb (SyncState_eqb s listening)); [apply respects_ret|].
  apply respects_try_catch.
  - apply respects_bind; [apply respects_gets|]. intros url.
    apply respects_bind; [apply respects_gets|]. intros code.
    apply respects_bind.
    + intros w. unfold fetch.
      assert (Hs : R w (suspended E (record_request
                          (HttpPost url (JObject [("internalCode", JNumber code)]))
                          w)))
        by (etransitivity; [apply R_request | apply R_suspended]).
      destruct (http E (tick w) url); exact Hs.
    + intros resp. destruct (ok resp); [|apply respects_ret].
      apply r_emit_one, R_woke.
  - intros e. apply r_emit_one, R_error.
Qed.

End CompositeWake.

(* ================================================================== *)
(** ** Every assignment of the state is notified *)

#[local] Instance keeps_coherent_preorder : PreOrder keeps_coherent.
Proof.
  split.
  - intros w Hw. exact Hw.
  - intros a b c Hab Hbc Ha. apply Hbc, Hab, Ha.
Qed.

Section Coherence.

Variable E : Env.

Let unnotified (ev : Event) : bool := negb (is_stateChange ev).

Lemma coherent_event (ev : Event) (w : World) :
  unnotified ev = true -> keeps_coherent w (record_event ev w).
Proof.
  intros Hev [H1 H2]. split; cbn [log assigns state record_event].
  - rewrite stateChanges_app, H1.
    destruct ev; try discriminate; cbn; apply app_nil_r.
  - exact H2.
Qed.

Lemma coherent_transition (s : SyncState) (r : Z) (b : bool) (w : World) :
  keeps_coherent w
    (mkWorld s r (config w) (options w) b
             (log w ++ [Ev_stateChange s]) (io w) (tick w) (assigns w ++ [s])).
Proof.
  intros [H1 H2]. split; cbn [log assigns state].
  - rewrite stateChanges_app, H1. reflexivity.
  - rewrite last_last. reflexivity.
Qed.

Lemma coherent_unchanged (w w' : World) :
  state w' = state w -> log w' = log w -> assigns w' = assigns w ->
  keeps_coherent w w'.
Proof. intros Hs Hl Ha [H1 H2]. split; congruence. Qed.

Lemma unnotified_all (ev : Event) :
  stateChanges [ev] = [] -> unnotified ev = true.
Proof. destruct ev; cbn; intros; try reflexivity; discriminate. Qed.

Lemma unnotified_deploy (ev : Event) :
  deploy_step_event ev = true -> unnotified ev = true.
Proof. destruct ev; cbn; intros; try reflexivity; discriminate. Qed.

Let anywhere (s : SyncState) : bool := true.

Lemma coherent_transition_same (s : SyncState) (b : bool) (w : World) :
  anywhere s = true ->
  keeps_coherent w
    (mkWorld s (retries w) (config w) (options w) b
             (log w ++ [Ev_stateChange s]) (io w) (tick w) (assigns w ++ [s])).
Proof. intros _. apply coherent_transition. Qed.

Lemma coherent_request (rq : Request) (w : World) :
  keeps_coherent w (record_request rq w).
Proof. apply coherent_unchanged; reflexivity. Qed.

Lemma coherent_tick (w : World) : keeps_coherent w (next_tick w).
Proof. apply coherent_unchanged; reflexivity. Qed.

Lemma coherent_incr (w : World) :
  keeps_coherent w
    (mkWorld (state w) (retries w + 1) (config w) (options w)
             (isStopped w) (log w) (io w) (tick w) (assigns w)).
Proof. apply coherent_unchanged; reflexivity. Qed.

Lemma coh_stop : respects keeps_coherent (stop E).
Proof.
  apply (@r_stop E keeps_coherent anywhere coherent_transition_same eq_refl).
Qed.

Lemma coherent_suspended (w : World) : keeps_coherent w (suspended E w).
Proof.
  apply (@r_suspended E keeps_coherent _ anywhere coherent_tick
           coherent_transition_same eq_refl).
Qed.

Lemma coh_wakeUpGemelo : respects keeps_coherent (wakeUpGemelo E).
Proof.
  apply (@r_wakeUpGemelo E keeps_coherent _).
  - apply coherent_request.
  - apply coherent_suspended.
  - intros w. apply coherent_event. reflexivity.
  - intros e w. apply coherent_event. reflexivity.
Qed.

Lemma coh_attemptConnectionLoop :
  respects keeps_coherent (attemptConnectionLoop E).
Proof.
  apply (@r_attemptConnectionLoop E keeps_coherent _ unnotified anywhere
           coherent_event coherent_request coherent_tick
           coherent_transition_same coherent_incr eq_refl unnotified_deploy);
    try reflexivity; intros; reflexivity.
Qed.

Lemma coh_setError (err : Exn) : respects keeps_coherent (setError E err).
Proof.
  apply (@r_setError E keeps_coherent _ unnotified anywhere
           coherent_event coherent_transition_same);
    try reflexivity; intros; reflexivity.
Qed.

Lemma coh_start : respects keeps_coherent (start E).
Proof.
  intros w.
  unfold start, bind at 1, set_isStopped, bind at 1, set_state, bind at 1,
    set_retries, bind at 1, emitStateChange, bind at 1, gets, emit.
  cbn [state log retries config options isStopped io tick assigns].
  pose proof (@coherent_transition searching 0 false w) as Ht.
  destruct (throws E _ _); cbn [snd]; [exact Ht|].
  etransitivity; [exact Ht|].
  apply respects_try_catch.
  - apply coh_attemptConnectionLoop.
  - apply coh_setError.
Qed.

Lemma coh_perform (c : Call) : respects keeps_coherent (perform E c).
Proof.
  destruct c; cbn [perform].
  - apply coh_start.
  - apply coh_stop.
  - apply coh_wakeUpGemelo.
Qed.

Lemma coherent_after_calls (calls : list Call) (w : World) :
  Coherent w -> Coherent (after_calls E calls w).
Proof.
  revert w. induction calls as [|c calls IH]; intros w Hw; [exact Hw|].
  cbn [after_calls fold_left]. apply IH. apply (coh_perform c (w:=w) Hw).
Qed.

End Coherence.

Lemma coherent_new (o : SyncManagerOptions) : Coherent (new_SyncManager o).
Proof. split; reflexivity. Qed.

(** C7. Every assignment of a new value to the state emits a
    [stateChange] notification carrying that value: in any world the
    manager reaches from its construction through [start()], [stop()] and
    [wakeUpGemelo()], whatever the surroundings do, the payloads of the
    [stateChange] notifications are exactly the values assigned to the
    state, in order, and the current state is the last of them. *)
Theorem C7_state_changes_notified
        (E : Env) (o : SyncManagerOptions) (calls : list Call) :
  let w := after_calls E calls (new_SyncManager o) in
  stateChanges (log w) = assigns w /\
  state w = last (stateChanges (log w)) idle.
Proof.
  cbv zeta.
  destruct (coherent_after_calls E calls (coherent_new o)) as [H1 H2].
  split; [exact H1|]. rewrite H1. exact H2.
Qed.

(* ================================================================== *)
(** ** Halting *)

Section Avoids.

Variable E : Env.
Variable bad : Halted -> Prop.

Lemma avoids_ret {A} (a : A) : avoids bad (ret a).
Proof. intros w h Hh. discriminate. Qed.

Lemma avoids_throw {A} (e : Exn) : avoids bad (@throw A e).
Proof. intros w h Hh. discriminate. Qed.

Lemma avoids_gets {A} (f : World -> A) : avoids bad (gets f).
Proof. intros w h Hh. discriminate. Qed.

Lemma avoids_bind {A B} (m : M A) (f : A -> M B) :
  avoids bad m -> (forall a, avoids bad (f a)) -> avoids bad (bind m f).
Proof.
  intros Hm Hf w h. unfold bind. specialize (Hm w).
  destruct (m w) as [[a|e|h'] w1]; cbn [fst] in *.
  - apply Hf.
  - discriminate.
  - intros Hh. injection Hh as <-. apply (Hm h' eq_refl).
Qed.

Lemma avoids_try_catch {A} (m : M A) (handler : Exn -> M A) :
  avoids bad m -> (forall e, avoids bad (handler e)) ->
  avoids bad (try_catch m handler).
Proof.
  intros Hm Hh w h. unfold try_catch. specialize (Hm w).
  destruct (m w) as [[a|e|h'] w1]; cbn [fst] in *.
  - discriminate.
  - apply Hh.
  - apply Hm.
Qed.

Lemma avoids_emit (ev : Event) : avoids bad (emit E ev).
Proof. intros w h. unfold emit. destruct (throws E _ ev); discriminate. Qed.

Lemma avoids_emitStateChange : avoids bad (emitStateChange E).
Proof. apply avoids_bind; [apply avoids_gets | intros s; apply avoids_emit]. Qed.

Lemma avoids_set_state (s : SyncState) : avoids bad (set_state s).
Proof. intros w h Hh. discriminate. Qed.

Lemma avoids_incr_retries : avoids bad incr_retries.
Proof. intros w h Hh. discriminate. Qed.

Lemma avoids_fetch (rq : Request) (url : string) : avoids bad (fetch E rq url).
Proof. intros w h. unfold fetch, settle. destruct (http E _ url); discriminate. Qed.

Lemma avoids_read_json (r : Response) : avoids bad (read_json E r).
Proof. intros w h. unfold read_json, settle. destruct (json_body r); discriminate. Qed.

Lemma avoids_read_text (r : Response) : avoids bad (read_text E r).
Proof. intros w h. unfold read_text, settle. destruct (text_body r); discriminate. Qed.

Lemma avoids_fs_call (rq : Request) : avoids bad (fs_call E rq).
Proof. intros w h. unfold fs_call. destruct (fs E _); discriminate. Qed.

Lemma avoids_sleep (ms : Z) : avoids bad (sleep E ms).
Proof. intros w h Hh. discriminate. Qed.

Ltac compose :=
  repeat
    lazymatch goal with
    | |- avoids _ (ret _) => apply avoids_ret
    | |- avoids _ (gets _) => apply avoids_gets
    | |- avoids _ (throw _) => apply avoids_throw
    | |- avoids _ (set_state _) => apply avoids_set_state
    | |- avoids _ (emitStateChange _) => apply avoids_emitStateChange
    | |- avoids _ incr_retries => apply avoids_incr_retries
    | |- avoids _ (fetch _ _ _) => apply avoids_fetch
    | |- avoids _ (read_json _ _) => apply avoids_read_json
    | |- avoids _ (read_text _ _) => apply avoids_read_text
    | |- avoids _ (fs_call _ _) => apply avoids_fs_call
    | |- avoids _ (sleep _ _) => apply avoids_sleep
    | |- avoids _ (emit _ _) => apply avoids_emit
    | |- avoids _ (bind _ _) => apply avoids_bind; [| intros ?]
    | |- avoids _ (try_catch _ _) => apply avoids_try_catch; [| intros ?]
    | |- avoids _ (if ?b then _ else _) => destruct b
    | |- avoids _ (match ?x with _ => _ end) => destruct x
    | |- _ => solve [auto]
    end.

Lemma avoids_setError (err : Exn) : avoids bad (setError E err).
Proof. unfold setError. compose. Qed.

(** Only an observer that throws inside the [exec] callback halts. *)
Hypothesis callbacks_avoid :
  forall ev, is_exec_result ev = true -> avoids bad (emit_in_callback E ev).

Lemma avoids_execCommand (cmd cwd : string) : avoids bad (execCommand E cmd cwd).
Proof.
  unfold execCommand. apply avoids_bind; [compose|]. intros _ w.
  destruct (child E (tick w)) as [out | err stderr].
  - apply callbacks_avoid. reflexivity.
  - pose proof (callbacks_avoid (Ev_execError err stderr) eq_refl) as Hcb.
    assert (Hk : avoids bad (emit_in_callback E (Ev_execError err stderr) ;;
                             @throw unit err)) by compose.
    apply Hk.
Qed.

Lemma avoids_downloadAll (urls : list string) : avoids bad (downloadAll E urls).
Proof. induction urls as [|u urls IH]; cbn [downloadAll]; compose. Qed.

Lemma avoids_deploySteps : avoids bad (deploySteps E).
Proof.
  unfold deploySteps.
  pose proof avoids_downloadAll. pose proof avoids_execCommand. compose.
Qed.

Lemma avoids_deployBots : avoids bad (deployBots E).
Proof.
  unfold deployBots.
  pose proof avoids_deploySteps. pose proof avoids_setError. compose.
Qed.

Lemma avoids_pollOnce : avoids bad (pollOnce E).
Proof. unfold pollOnce. pose proof avoids_deployBots. compose. Qed.

(** The poll counter bounds the iterations of the signal-wait loop. *)
Lemma avoids_pollLoop (fuel : nat) :
  forall polls,
    (Z.to_nat (maxPolls - polls) <= fuel)%nat ->
    avoids bad (pollLoop E fuel polls).
Proof.
  induction fuel as [|fuel IH]; intros polls Hfuel w; cbn [pollLoop].
  - assert (Hc : (polls <? maxPolls) = false) by (apply Z.ltb_ge; lia).
    rewrite Hc, andb_false_r. intros h Hh. discriminate.
  - destruct (negb (isStopped w) && (polls <? maxPolls));
      [|intros h Hh; discriminate].
    revert w. change (avoids bad
      (flow <- pollOnce E ;;
       match flow with
       | FReturn => ret Returned
       | _ => ms <- gets (fun w => retryIntervalMs (config w)) ;;
              sleep E ms ;; pollLoop E fuel (polls + 1)
       end)).
    pose proof avoids_pollOnce.
    assert (avoids bad (pollLoop E fuel (polls + 1))) by (apply IH; lia).
    compose.
Qed.

Lemma avoids_waitForDeploySignal : avoids bad (waitForDeploySignal E).
Proof.
  unfold waitForDeploySignal.
  assert (Hfuel : (Z.to_nat (maxPolls - 0) <= Z.to_nat maxPolls)%nat) by lia.
  revert Hfuel. generalize (Z.to_nat maxPolls). intros fuel Hfuel.
  pose proof (@avoids_pollLoop fuel 0 Hfuel). pose proof avoids_setError.
  compose.
Qed.

Lemma avoids_tryConnectToGemelo : avoids bad (tryConnectToGemelo E).
Proof. unfold tryConnectToGemelo. compose. Qed.

Lemma avoids_breakOrSleep : avoids bad (breakOrSleep E).
Proof. unfold breakOrSleep. compose. Qed.

Lemma avoids_attemptOnce : avoids bad (attemptOnce E).
Proof.
  unfold attemptOnce, attemptTry, attemptCatch.
  pose proof avoids_tryConnectToGemelo. pose proof avoids_waitForDeploySignal.
  pose proof avoids_breakOrSleep. pose proof avoids_setError. compose.
Qed.

Lemma avoids_wakeUpGemelo : avoids bad (wakeUpGemelo E).
Proof. unfold wakeUpGemelo. compose. Qed.

(** The searching loop and [start()], when running out of the model's
    budget is not among the outcomes to avoid. *)
Hypothesis budget_tolerated : ~ bad OutOfFuel.

Lemma avoids_attemptLoop (fuel : nat) : avoids bad (attemptLoop E fuel).
Proof.
  induction fuel as [|fuel IH]; intros w; cbn [attemptLoop].
  - destruct (negb (isStopped w) && (retries w <? maxRetries (config w)));
      intros h Hh; [|discriminate].
    injection Hh as <-. exact budget_tolerated.
  - destruct (negb (isStopped w) && (retries w <? maxRetries (config w)));
      [|intros h Hh; discriminate].
    revert w. change (avoids bad
      (flow <- attemptOnce E ;;
       match flow with
       | FReturn => ret Returned
       | FBreak => ret Exited
       | FContinue => attemptLoop E fuel
       end)).
    pose proof avoids_attemptOnce. compose.
Qed.

Lemma avoids_attemptConnectionLoop : avoids bad (attemptConnectionLoop E).
Proof.
  unfold attemptConnectionLoop. pose proof avoids_attemptLoop. compose.
Qed.

Lemma avoids_start : avoids bad (start E).
Proof.
  unfold start.
  assert (forall b, avoids bad (set_isStopped b))
    by (intros b w h Hh; discriminate).
  assert (forall r, avoids bad (set_retries r))
    by (intros r w h Hh; discriminate).
  pose proof avoids_attemptConnectionLoop. pose proof avoids_setError.
  compose.
Qed.

End Avoids.

Lemma passive_callbacks (E : Env) (ev : Event) :
  passive E -> avoids (fun _ => True) (emit_in_callback E ev).
Proof.
  intros Hp w h. rewrite emit_in_callback_passive by assumption. discriminate.
Qed.

Lemma callbacks_have_fuel (E : Env) (ev : Event) :
  avoids (fun h => h = OutOfFuel) (emit_in_callback E ev).
Proof.
  intros w h. unfold emit_in_callback, emit.
  destruct (throws E _ ev); cbn [fst]; intros Hh; [|discriminate].
  injection Hh as <-. discriminate.
Qed.

(* ================================================================== *)
(** ** Which notifications a phase can emit *)

Lemma emits_no_refl (p : Event -> bool) (w : World) : emits_no p w w.
Proof. exists []. split; [now rewrite app_nil_r | reflexivity]. Qed.

Lemma emits_no_trans (p : Event -> bool) (a b c : World) :
  emits_no p a b -> emits_no p b c -> emits_no p a c.
Proof.
  intros (e1 & H1 & F1) (e2 & H2 & F2). exists (e1 ++ e2)%list. split.
  - rewrite H2, H1, app_assoc. reflexivity.
  - rewrite forallb_app, F1, F2. reflexivity.
Qed.

#[local] Instance emits_no_preorder (p : Event -> bool) : PreOrder (emits_no p).
Proof.
  split.
  - intros w. apply emits_no_refl.
  - intros a b c. apply emits_no_trans.
Qed.

Lemma emits_no_count (p q : Event -> bool) (evs : list Event) :
  (forall ev, q ev = true -> p ev = true) ->
  forallb (fun ev => negb (p ev)) evs = true ->
  count q evs = 0%nat.
Proof.
  intros Hqp. induction evs as [|ev evs IH]; intros H; [reflexivity|].
  cbn in H. apply andb_prop in H as [H1 H2].
  unfold count in *. cbn.
  destruct (q ev) eqn:Hq.
  - rewrite (Hqp ev Hq) in H1. discriminate.
  - apply IH, H2.
Qed.

Section Emissions.

Variable E : Env.
Variable p : Event -> bool.
Hypothesis p_stateChange : forall s, p (Ev_stateChange s) = false.

Let other (ev : Event) : bool := negb (p ev).

Lemma emits_no_event (ev : Event) (w : World) :
  other ev = true -> emits_no p w (record_event ev w).
Proof.
  intros Hev. exists [ev]. split; [reflexivity|].
  cbn. unfold other in Hev. rewrite Hev. reflexivity.
Qed.

Lemma emits_no_same_log (w w' : World) :
  log w' = log w -> emits_no p w w'.
Proof.
  intros Hl. exists []. split; [now rewrite app_nil_r | reflexivity].
Qed.

Let anywhere (s : SyncState) : bool := true.

Lemma emits_no_transition (s : SyncState) (b : bool) (w : World) :
  anywhere s = true ->
  emits_no p w
    (mkWorld s (retries w) (config w) (options w) b
             (log w ++ [Ev_stateChange s]) (io w) (tick w) (assigns w ++ [s])).
Proof.
  intros _. exists [Ev_stateChange s]. split; [reflexivity|].
  cbn. rewrite p_stateChange. reflexivity.
Qed.

Lemma emits_no_request (rq : Request) (w : World) :
  emits_no p w (record_request rq w).
Proof. apply emits_no_same_log. reflexivity. Qed.

Lemma emits_no_tick (w : World) : emits_no p w (next_tick w).
Proof. apply emits_no_same_log. reflexivity. Qed.

Lemma emits_no_incr (w : World) :
  emits_no p w
    (mkWorld (state w) (retries w + 1) (config w) (options w)
             (isStopped w) (log w) (io w) (tick w) (assigns w)).
Proof. apply emits_no_same_log. reflexivity. Qed.

Lemma emits_no_suspended (w : World) : emits_no p w (suspended E w).
Proof.
  apply (@r_suspended E (emits_no p) _ anywhere emits_no_tick
           emits_no_transition eq_refl).
Qed.

Lemma emits_no_issue (rq : Request) (w : World) :
  emits_no p w (suspended E (record_request rq w)).
Proof.
  apply (@r_issue E (emits_no p) _ anywhere emits_no_request emits_no_tick
           emits_no_transition eq_refl).
Qed.

Hypothesis p_deploy : forall ev, deploy_step_event ev = true -> p ev = false.

Lemma other_deploy (ev : Event) : deploy_step_event ev = true -> other ev = true.
Proof. intros Hev. unfold other. rewrite (p_deploy ev Hev). reflexivity. Qed.

Lemma emits_no_deploySteps : respects (emits_no p) (deploySteps E).
Proof.
  apply (@r_deploySteps E (emits_no p) _ other anywhere emits_no_event
           emits_no_request emits_no_tick emits_no_transition eq_refl
           other_deploy).
Qed.

Hypothesis p_error : forall e, p (Ev_error e) = false.

Lemma other_error (e : Exn) : other (Ev_error e) = true.
Proof. unfold other. rewrite p_error. reflexivity. Qed.

Lemma emits_no_deployBots : respects (emits_no p) (deployBots E).
Proof.
  apply (@r_deployBots E (emits_no p) _ other anywhere emits_no_event
           emits_no_request emits_no_tick emits_no_transition eq_refl
           other_deploy other_error eq_refl).
Qed.

End Emissions.

(* ================================================================== *)
(** ** Deploy failures are absorbed *)

Section Absorbed.

Variable E : Env.
Hypothesis Hp : passive E.

Lemma deploySteps_settles (w : World) (h : Halted) :
  fst (deploySteps E w) <> Halt h.
Proof.
  intros Hh.
  apply (@avoids_deploySteps E (fun _ => True)
           (fun ev _ => passive_callbacks ev Hp) w h Hh).
  exact I.
Qed.

(** [deployBots] resolves, whatever its steps do. *)
Lemma deployBots_ok (w : World) : fst (deployBots E w) = Ok tt.
Proof.
  unfold deployBots, try_catch.
  pose proof (deploySteps_settles w) as Hs.
  destruct (deploySteps E w) as [[[]|e|h] w1]; cbn [fst] in *.
  - reflexivity.
  - rewrite setError_passive by assumption. reflexivity.
  - exfalso. apply (Hs h). reflexivity.
Qed.

(** A failing step leaves the [error] state and exactly one [error]
    notification, the last one. *)
Lemma deployBots_failure (w w1 : World) (e : Exn) :
  deploySteps E w = (Throw e, w1) ->
  exists evs,
    deployBots E w =
    (Ok tt,
     mkWorld error (retries w1) (config w1) (options w1) (isStopped w1)
             (log w ++ evs ++ [Ev_stateChange error; Ev_error e])
             (io w1) (tick w1) (assigns w1 ++ [error])) /\
    count is_error evs = 0%nat.
Proof.
  intros Hd.
  assert (He : emits_no is_error w w1).
  { pose proof (@emits_no_deploySteps E is_error) as Hr.
    specialize (Hr (fun _ => eq_refl)).
    assert (Hdep : forall ev, deploy_step_event ev = true -> is_error ev = false)
      by (intros []; cbn; intros; try reflexivity; discriminate).
    specialize (Hr Hdep w). rewrite Hd in Hr. exact Hr. }
  destruct He as (evs & Hlog & Hno).
  exists evs. split.
  - unfold deployBots, try_catch. rewrite Hd.
    rewrite setError_passive by assumption.
    rewrite Hlog, <- app_assoc. reflexivity.
  - apply (@emits_no_count is_error is_error); auto.
Qed.

Lemma verdict_stateChange (s : SyncState) : is_verdict (Ev_stateChange s) = false.
Proof. reflexivity. Qed.

Lemma verdict_deploy (ev : Event) :
  deploy_step_event ev = true -> is_verdict ev = false.
Proof. destruct ev; cbn; intros; try reflexivity; discriminate. Qed.

Lemma verdict_counts (evs : list Event) :
  forallb (fun ev => negb (is_verdict ev)) evs = true ->
  count is_timeout evs = 0%nat /\ count is_signalReceived evs = 0%nat.
Proof.
  intros Hno. split; apply (@emits_no_count is_verdict); auto;
    intros ev Hev; unfold is_verdict; rewrite Hev; auto using orb_true_r.
Qed.

(** How an iteration of the signal-wait loop ends: it returns after one
    [deploySignalReceived] and the deployment, or it continues without
    one; it emits no [deploySignalTimeout]. *)
Lemma pollOnce_outcome (w w' : World) (r : Res Flow) :
  pollOnce E w = (r, w') ->
  exists evs,
    log w' = (log w ++ evs)%list /\
    count is_timeout evs = 0%nat /\
    ((r = Ok FReturn /\ count is_signalReceived evs = 1%nat) \/
     (r = Ok FContinue /\ count is_signalReceived evs = 0%nat)).
Proof.
  unfold pollOnce, try_catch, bind at 1, gets at 1, bind at 1, fetch, settle.
  set (url := signalUrl (options w)).
  pose proof (@emits_no_issue E is_verdict verdict_stateChange (HttpGet url) w)
    as (ev1 & Hl1 & Hn1).
  set (w1 := suspended E (record_request (HttpGet url) w)) in *.
  destruct (verdict_counts _ Hn1) as [T1 S1].
  destruct (http E (tick w) url) as [resp | e].
  - destruct (ok resp).
    + unfold bind at 1, read_json, settle.
      pose proof (@emits_no_suspended E is_verdict verdict_stateChange w1)
        as (ev2 & Hl2 & Hn2).
      set (w2 := suspended E w1) in *.
      destruct (verdict_counts _ Hn2) as [T2 S2].
      destruct (json_body resp) as [body | e].
      * destruct (truthy body && strict_eq_true (prop body "deploy")).
        -- unfold bind at 1. rewrite emit_passive by assumption.
           unfold bind at 1.
           set (w3 := record_event Ev_deploySignalReceived w2).
           pose proof (deployBots_ok w3) as Hok.
           pose proof (@emits_no_deployBots E is_verdict verdict_stateChange
                         verdict_deploy (fun _ => eq_refl) w3)
             as (ev4 & Hl4 & Hn4).
           destruct (deployBots E w3) as [r4 w4]. cbn [fst snd] in *. subst r4.
           unfold ret. intros Heq. injection Heq as <- <-.
           exists (ev1 ++ ev2 ++ [Ev_deploySignalReceived] ++ ev4)%list.
           destruct (verdict_counts _ Hn4) as [T4 S4].
           split; [|split].
           ++ rewrite Hl4. unfold w3. cbn [log record_event].
              rewrite Hl2, Hl1. repeat rewrite <- app_assoc. reflexivity.
           ++ rewrite !count_app, T1, T2, T4. reflexivity.
           ++ left. split; [reflexivity|].
              rewrite !count_app, S1, S2, S4. reflexivity.
        -- unfold ret. intros Heq. injection Heq as <- <-.
           exists (ev1 ++ ev2)%list.
           split; [|split].
           ++ rewrite Hl2, Hl1. repeat rewrite <- app_assoc. reflexivity.
           ++ rewrite !count_app, T1, T2. reflexivity.
           ++ right. split; [reflexivity|].
              rewrite !count_app, S1, S2. reflexivity.
      * unfold bind. rewrite emit_passive by assumption.
        unfold ret. intros Heq. injection Heq as <- <-.
        cbn [log record_event].
        exists (ev1 ++ ev2 ++ [Ev_error e])%list.
        split; [|split].
        -- rewrite Hl2, Hl1. repeat rewrite <- app_assoc. reflexivity.
        -- rewrite !count_app, T1, T2. reflexivity.
        -- right. split; [reflexivity|].
           rewrite !count_app, S1, S2. reflexivity.
    + unfold ret. intros Heq. injection Heq as <- <-.
      exists ev1.
      split; [exact Hl1|]. split; [exact T1|]. right. split; [reflexivity|exact S1].
  - unfold bind. rewrite emit_passive by assumption.
    unfold ret. intros Heq. injection Heq as <- <-.
    cbn [log record_event].
    exists (ev1 ++ [Ev_error e])%list.
    split; [|split].
    + rewrite Hl1. repeat rewrite <- app_assoc. reflexivity.
    + rewrite !count_app, T1. reflexivity.
    + right. split; [reflexivity|]. rewrite !count_app, S1. reflexivity.
Qed.

Lemma pollLoop_outcome (fuel : nat) :
  forall (polls : Z) (w w' : World) (r : Res LoopExit),
    (Z.to_nat (maxPolls - polls) <= fuel)%nat ->
    pollLoop E fuel polls w = (r, w') ->
    exists evs,
      log w' = (log w ++ evs)%list /\
      count is_timeout evs = 0%nat /\
      ((r = Ok Returned /\ count is_signalReceived evs = 1%nat) \/
       (r = Ok Exited /\ count is_signalReceived evs = 0%nat)).
Proof.
  induction fuel as [|fuel IH]; intros polls w w' r Hfuel; cbn [pollLoop].
  - assert (Hc : (polls <? maxPolls) = false) by (apply Z.ltb_ge; lia).
    rewrite Hc, andb_false_r. intros Heq. injection Heq as <- <-.
    exists []. rewrite app_nil_r. auto.
  - destruct (negb (isStopped w) && (polls <? maxPolls)).
    + unfold bind at 1.
      destruct (pollOnce E w) as [r1 w1] eqn:H1.
      apply pollOnce_outcome in H1 as (ev1 & Hl1 & T1 & [[-> S1] | [-> S1]]).
      * unfold ret. intros Heq. injection Heq as <- <-.
        exists ev1. auto.
      * unfold bind at 1, gets at 1, bind at 1, sleep.
        set (w2 := suspended E _).
        pose proof (@emits_no_issue E is_verdict verdict_stateChange
                      (Sleep (retryIntervalMs (config w1))) w1)
          as (ev2 & Hl2 & Hn2).
        fold w2 in Hl2.
        destruct (verdict_counts _ Hn2) as [T2 S2].
        intros Heq. apply IH in Heq as (ev3 & Hl3 & T3 & Hcases); [|lia].
        exists (ev1 ++ ev2 ++ ev3)%list. split; [|split].
        -- rewrite Hl3, Hl2, Hl1. repeat rewrite <- app_assoc. reflexivity.
        -- rewrite !count_app, T1, T2, T3. reflexivity.
        -- rewrite !count_app, S1, S2. exact Hcases.
    + intros Heq. injection Heq as <- <-.
      exists []. rewrite app_nil_r. auto.
Qed.

(** [waitForDeploySignal] resolves, after exactly one of the two
    verdicts: an approval (and then no timeout), or a timeout (and then no
    approval). *)
Lemma waitForDeploySignal_outcome (w : World) :
  exists evs,
    fst (waitForDeploySignal E w) = Ok tt /\
    log (snd (waitForDeploySignal E w)) = (log w ++ evs)%list /\
    ((count is_signalReceived evs = 1%nat /\ count is_timeout evs = 0%nat) \/
     (count is_signalReceived evs = 0%nat /\ count is_timeout evs = 1%nat)).
Proof.
  assert (Hgen : forall r w', waitForDeploySignal E w = (r, w') ->
    exists evs, r = Ok tt /\ log w' = (log w ++ evs)%list /\
    ((count is_signalReceived evs = 1%nat /\ count is_timeout evs = 0%nat) \/
     (count is_signalReceived evs = 0%nat /\ count is_timeout evs = 1%nat))).
  { intros r w'.
    unfold waitForDeploySignal, bind at 1. rewrite emit_passive by assumption.
    unfold bind at 1, set_state, bind at 1.
    rewrite emitStateChange_passive by assumption.
    unfold bind at 1.
    cbn [state retries config options isStopped log io tick assigns record_event].
    assert (Hfuel : (Z.to_nat (maxPolls - 0) <= Z.to_nat maxPolls)%nat) by lia.
    revert Hfuel. generalize (Z.to_nat maxPolls). intros fuel Hfuel.
    match goal with |- context [pollLoop E fuel 0 ?w0] =>
      destruct (pollLoop E fuel 0 w0) as [r1 w1] eqn:H1 end.
    apply pollLoop_outcome in H1 as (ev1 & Hl1 & T1 & [[-> S1] | [-> S1]]);
      [| |exact Hfuel].
    - unfold ret. intros Heq. injection Heq as <- <-.
      exists ([Ev_waitingDeploySignal; Ev_stateChange deploying] ++ ev1)%list.
      split; [reflexivity|]. split.
      + rewrite Hl1. cbn [log record_event].
        repeat rewrite <- app_assoc. reflexivity.
      + left. rewrite !count_app, S1, T1. split; reflexivity.
    - unfold bind. rewrite emit_passive by assumption.
      rewrite setError_passive by assumption.
      intros Heq. injection Heq as <- <-.
      exists ([Ev_waitingDeploySignal; Ev_stateChange deploying] ++ ev1 ++
              [Ev_deploySignalTimeout; Ev_stateChange error;
               Ev_error timeoutError])%list.
      split; [reflexivity|]. split.
      + cbn [log record_event]. rewrite Hl1. cbn [log record_event].
        repeat rewrite <- app_assoc. reflexivity.
      + right. rewrite !count_app, S1, T1. split; reflexivity. }
  destruct (waitForDeploySignal E w) as [r w'] eqn:Hw.
  destruct (Hgen r w' eq_refl) as (evs & -> & Hl & Hc).
  exists evs. auto.
Qed.

End Absorbed.

(** [waitForDeploySignal] resolves, with listeners that return. *)
Lemma waitForDeploySignal_pair (E : Env) (Hp : passive E) (w : World) :
  waitForDeploySignal E w = (Ok tt, snd (waitForDeploySignal E w)).
Proof.
  destruct (waitForDeploySignal_outcome Hp w) as (evs0 & Hok & _ & _).
  destruct (waitForDeploySignal E w) as [r w']. cbn [fst snd] in *. now subst r.
Qed.

(** The steps of a deployment fail exactly when the surroundings make
    one of them fail, and with that failure; only the listeners of the
    step notifications matter for it. *)
Section DeployFailures.

Variable E : Env.
Hypothesis Ho : others_return E.

Lemma emit_returns (ev : Event) (w : World) :
  is_error ev = false -> emit E ev w = (Ok tt, record_event ev w).
Proof. intros Hev. unfold emit. rewrite (Ho _ ev Hev). reflexivity. Qed.

Lemma suspended_tick (w : World) : tick (suspended E w) = S (tick w).
Proof.
  unfold suspended. destruct (stops E (tick w)); [rewrite stop_world|]; reflexivity.
Qed.

Lemma downloadAll_result (urls : list string) :
  forall w,
    exists w',
      downloadAll E urls w =
      (match downloadFailure E (tick w) urls with
       | inl e => Throw e
       | inr _ => Ok tt
       end, w') /\
      forall t, downloadFailure E (tick w) urls = inr t ->
                tick w' = t /\ config w' = config w.
Proof.
  induction urls as [|u urls IH]; intros w; cbn [downloadFailure downloadAll].
  - exists w. split; [reflexivity|]. intros t Ht. injection Ht as <-. split; reflexivity.
  - unfold bind at 1. rewrite emit_returns by reflexivity.
    unfold bind at 1, fetch, settle. cbn [tick record_event].
    set (w1 := suspended E _).
    assert (T1 : tick w1 = S (tick w)) by (unfold w1; rewrite suspended_tick; reflexivity).
    assert (C1 : config w1 = config w)
      by (unfold w1; rewrite (proj1 (suspended_config E _)); reflexivity).
    destruct (http E (tick w) u) as [res | e];
      [|exists w1; split; [reflexivity | discriminate]].
    unfold bind at 1.
    destruct (negb (ok res)); [exists w1; split; [reflexivity | discriminate]|].
    unfold ret at 1, bind at 1, ret at 1, bind at 1, gets at 1, bind at 1, ret at 1,
      bind at 1, read_text, settle.
    set (w2 := suspended E w1).
    assert (T2 : tick w2 = S (S (tick w))) by (unfold w2; rewrite suspended_tick, T1; reflexivity).
    assert (C2 : config w2 = config w)
      by (unfold w2; rewrite (proj1 (suspended_config E _)); exact C1).
    destruct (text_body res) as [data | e];
      [|exists w2; split; [reflexivity | discriminate]].
    unfold bind at 1, fs_call. rewrite T2.
    set (w3 := suspended E _).
    assert (T3 : tick w3 = S (S (S (tick w))))
      by (unfold w3; rewrite suspended_tick; cbn [tick record_request]; rewrite T2; reflexivity).
    assert (C3 : config w3 = config w)
      by (unfold w3; rewrite (proj1 (suspended_config E _)); exact C2).
    destruct (fs E (S (S (tick w)))) as [e|];
      [exists w3; split; [reflexivity | discriminate]|].
    unfold bind at 1. rewrite emit_returns by reflexivity.
    destruct (IH (record_event (Ev_downloadComplete (basename E u)) w3))
      as (w' & Hd & Ht).
    cbn [tick config record_event] in Hd, Ht. rewrite T3 in Hd, Ht.
    exists w'. split; [exact Hd|].
    intros t Hf. destruct (Ht t Hf) as [Ht' Hc']. split; [exact Ht'|].
    rewrite Hc'. exact C3.
Qed.

Lemma deploySteps_result (w : World) :
  exists w',
    deploySteps E w =
    (match deployFailure E w with Some e => Throw e | None => Ok tt end, w').
Proof.
  unfold deploySteps, deployFailure, bind at 1.
  rewrite emit_returns by reflexivity.
  unfold bind at 1, gets at 1, bind at 1, fs_call. cbn [tick record_event].
  set (w1 := suspended E _).
  assert (T1 : tick w1 = S (tick w)) by (unfold w1; rewrite suspended_tick; reflexivity).
  assert (C1 : config w1 = config w)
    by (unfold w1; rewrite (proj1 (suspended_config E _)); reflexivity).
  destruct (fs E (tick w)) as [e|]; [exists w1; reflexivity|].
  unfold bind at 1, gets at 1, bind at 1.
  destruct (downloadAll_result (botsFilesUrls (config w1)) w1) as (w2 & HD & HT).
  rewrite T1, C1 in HD, HT. rewrite C1, HD.
  destruct (downloadFailure E (S (tick w)) (botsFilesUrls (config w))) as [e | t].
  - exists w2. reflexivity.
  - destruct (HT t eq_refl) as [T2 C2].
    unfold bind at 1. rewrite emit_returns by reflexivity.
    unfold bind at 1, gets at 1, bind at 1, gets at 1, bind at 1, execCommand,
      bind at 1.
    rewrite emit_returns by reflexivity.
    cbv zeta. cbn [tick record_event]. rewrite T2.
    destruct (child E t) as [out | err stderr].
    + unfold emit_in_callback. rewrite emit_returns by reflexivity.
      rewrite emit_returns by reflexivity. eexists. reflexivity.
    + unfold bind at 1, emit_in_callback. rewrite emit_returns by reflexivity.
      unfold throw. eexists. reflexivity.
Qed.

End DeployFailures.

Lemma passive_others_return (E : Env) : passive E -> others_return E.
Proof. intros Hp n ev _. apply Hp. Qed.

Lemma unheard_others_return (E : Env) : no_error_listener E -> others_return E.
Proof. intros Hn n ev Hev. rewrite Hn. destruct ev; try reflexivity; discriminate. Qed.

Lemma setError_unheard (E : Env) (err e' : Exn) (w : World) :
  throws E (List.length (log w)) (Ev_stateChange error) = None ->
  throws E (S (List.length (log w))) (Ev_error err) = Some e' ->
  setError E err w =
  (Throw e',
   mkWorld error (retries w) (config w) (options w) (isStopped w)
           (log w ++ [Ev_stateChange error; Ev_error err]) (io w) (tick w)
           (assigns w ++ [error])).
Proof.
  intros Hs He.
  cbv [setError bind set_state emitStateChange gets emit record_event].
  cbn [state retries config options isStopped log io tick assigns].
  rewrite Hs.
  cbn [state retries config options isStopped log io tick assigns].
  rewrite length_app, Nat.add_1_r. cbn [List.length].
  rewrite He. rewrite <- app_assoc. reflexivity.
Qed.

Lemma deploySteps_no_error (E : Env) (w : World) :
  exists evs,
    log (snd (deploySteps E w)) = (log w ++ evs)%list /\ count is_error evs = 0%nat.
Proof.
  pose proof (@emits_no_deploySteps E is_error) as Hr.
  specialize (Hr (fun _ => eq_refl)).
  assert (Hdep : forall ev, deploy_step_event ev = true -> is_error ev = false)
    by (intros []; cbn; intros; try reflexivity; discriminate).
  destruct (Hr Hdep w) as (evs & Hlog & Hno).
  exists evs. split; [exact Hlog|].
  apply (@emits_no_count is_error is_error); auto.
Qed.


(** C10 (as amended). With an [error] listener registered and listeners
    that return, [deployBots] never propagates an exception to its
    caller: every failure of a deploy step (directory creation,
    download, file write, process launch) is absorbed by going to
    [error] and emitting exactly one [error] notification, which carries
    the failure; so the signal-wait phase resumes normally and, once a
    deployment has started, emits no [deploySignalTimeout].  With no
    [error] listener registered, [emit("error")] throws the failure out
    of [setError]: [deployBots] still goes to [error] and emits that one
    [error] notification, and then rejects with the failure. *)
Theorem C10_deploy_failures_absorbed (E : Env) :
  (passive E ->
   (forall w, fst (deployBots E w) = Ok tt) /\
   (forall w e,
       deployFailure E w = Some e ->
       exists evs,
         state (snd (deployBots E w)) = error /\
         log (snd (deployBots E w)) = (log w ++ evs)%list /\
         count is_error evs = 1%nat /\
         last evs (Ev_stateChange idle) = Ev_error e) /\
   (forall w,
       exists evs,
         fst (waitForDeploySignal E w) = Ok tt /\
         log (snd (waitForDeploySignal E w)) = (log w ++ evs)%list /\
         (count is_signalReceived evs <> 0%nat -> count is_timeout evs = 0%nat))) /\
  (no_error_listener E ->
   forall w e,
     deployFailure E w = Some e ->
     exists evs,
       fst (deployBots E w) = Throw e /\
       state (snd (deployBots E w)) = error /\
       log (snd (deployBots E w)) = (log w ++ evs)%list /\
       count is_error evs = 1%nat /\
       last evs (Ev_stateChange idle) = Ev_error e).
Proof.
  assert (Hlast : forall evs e,
             last (evs ++ [Ev_stateChange error; Ev_error e]) (Ev_stateChange idle)
             = Ev_error e).
  { intros evs e.
    replace (evs ++ [Ev_stateChange error; Ev_error e])%list
      with ((evs ++ [Ev_stateChange error]) ++ [Ev_error e])%list
      by (rewrite <- app_assoc; reflexivity).
    apply last_last. }
  split.
  - intros Hp. split; [|split].
    + intros w. apply deployBots_ok, Hp.
    + intros w e Hf.
      destruct (deploySteps_result (passive_others_return Hp) w) as (w1 & Hd).
      rewrite Hf in Hd.
      destruct (@deployBots_failure E Hp w w1 e Hd) as (evs & -> & Hc).
      exists (evs ++ [Ev_stateChange error; Ev_error e])%list.
      cbn [snd state log]. split; [reflexivity|]. split; [reflexivity|]. split.
      * rewrite count_app, Hc. reflexivity.
      * apply Hlast.
    + intros w.
      destruct (@waitForDeploySignal_outcome E Hp w) as (evs & Hr & Hl & Hc).
      exists evs. split; [exact Hr|]. split; [exact Hl|].
      intros Hne. destruct Hc as [[_ T] | [S _]]; [exact T | contradiction].
  - intros Hn w e Hf.
    destruct (deploySteps_result (unheard_others_return Hn) w) as (w1 & Hd).
    rewrite Hf in Hd.
    destruct (deploySteps_no_error E w) as (evs & Hl & Hc).
    rewrite Hd in Hl. cbn [snd] in Hl.
    exists (evs ++ [Ev_stateChange error; Ev_error e])%list.
    unfold deployBots, try_catch. rewrite Hd.
    rewrite (@setError_unheard E e e w1) by (rewrite Hn; reflexivity).
    cbn [fst snd state log]. split; [reflexivity|]. split; [reflexivity|]. split.
    + rewrite Hl, <- app_assoc. reflexivity.
    + split; [rewrite count_app, Hc; reflexivity | apply Hlast].
Qed.

(* ================================================================== *)
(** ** Exceptions in the searching loop *)

(** When the loop exits, the machine goes to [listening], whatever the
    observers do. *)
Lemma attemptConnectionLoop_exited (E : Env) (w w1 : World) :
  attemptLoop E (attemptFuel w) w = (Ok Exited, w1) ->
  state (snd (attemptConnectionLoop E w)) = listening /\
  assigns (snd (attemptConnectionLoop E w)) = (assigns w1 ++ [listening])%list.
Proof.
  intros Hl.
  assert (Heq : attemptConnectionLoop E w =
                (set_state listening ;; emitStateChange E ;; emit E Ev_listening) w1).
  { unfold attemptConnectionLoop, bind at 1, gets at 1, bind at 1.
    rewrite Hl. reflexivity. }
  rewrite Heq.
  cbv [bind set_state emitStateChange gets emit record_event].
  cbn [state retries config options isStopped log io tick assigns].
  destruct (throws E _ _); [split; reflexivity|].
  cbn [state retries config options isStopped log io tick assigns].
  destruct (throws E _ _); split; reflexivity.
Qed.

Lemma setError_heard (E : Env) (err : Exn) (w : World) :
  throws E (List.length (log w)) (Ev_stateChange error) = None ->
  throws E (S (List.length (log w))) (Ev_error err) = None ->
  setError E err w =
  (Ok tt,
   mkWorld error (retries w) (config w) (options w) (isStopped w)
           (log w ++ [Ev_stateChange error; Ev_error err]) (io w) (tick w)
           (assigns w ++ [error])).
Proof.
  intros Hs He.
  cbv [setError bind set_state emitStateChange gets emit record_event].
  cbn [state retries config options isStopped log io tick assigns].
  rewrite Hs.
  cbn [state retries config options isStopped log io tick assigns].
  rewrite length_app, Nat.add_1_r. cbn [List.length].
  rewrite He. rewrite <- app_assoc. reflexivity.
Qed.

(** What the [catch] block of the loop does when the listeners of its
    two notifications return. *)
Lemma attemptCatch_heard (E : Env) (err : Exn) (w : World) :
  uninterrupted E ->
  throws E (List.length (log w)) (Ev_stateChange error) = None ->
  throws E (S (List.length (log w))) (Ev_error err) = None ->
  exists rqs t,
    attemptCatch E err w =
    (Ok (if retries w + 1 >=? maxRetries (config w) then FBreak else FContinue),
     mkWorld error (retries w + 1) (config w) (options w) (isStopped w)
             (log w ++ [Ev_stateChange error; Ev_error err]) rqs t
             (assigns w ++ [error])).
Proof.
  intros Hq Hs He.
  unfold attemptCatch, bind at 1. rewrite setError_heard by assumption.
  cbv [bind incr_retries gets set_retries breakOrSleep ret sleep record_request].
  cbn [state retries config options isStopped log io tick assigns].
  destruct (retries w + 1 >=? maxRetries (config w)).
  - eexists _, _. reflexivity.
  - rewrite suspended_quiet by assumption. eexists _, _. reflexivity.
Qed.

(** ... and when [emit("error")] throws. *)
Lemma attemptCatch_unheard (E : Env) (err e' : Exn) (w : World) :
  throws E (List.length (log w)) (Ev_stateChange error) = None ->
  throws E (S (List.length (log w))) (Ev_error err) = Some e' ->
  attemptCatch E err w =
  (Throw e',
   mkWorld error (retries w) (config w) (options w) (isStopped w)
           (log w ++ [Ev_stateChange error; Ev_error err]) (io w) (tick w)
           (assigns w ++ [error])).
Proof.
  intros Hs He.
  unfold attemptCatch, bind at 1. rewrite (@setError_unheard E err e') by assumption.
  reflexivity.
Qed.

(** An attempt whose probe does not match, up to the [retrying]
    notification: what follows depends on its listeners. *)
Lemma attemptOnce_nomatch_cases (E : Env) (w : World) :
  uninterrupted E ->
  throws E (List.length (log w)) (Ev_attempt (retries w + 1)) = None ->
  matching (config w) (options w) (http E (tick w) (pingUrl (config w))) = false ->
  exists rqs t,
    attemptOnce E w =
    let w1 := mkWorld (state w) (retries w + 1) (config w) (options w) (isStopped w)
                      (log w ++ [Ev_attempt (retries w + 1);
                                 Ev_retrying (retries w + 1)])
                      rqs t (assigns w) in
    match throws E (S (List.length (log w))) (Ev_retrying (retries w + 1)) with
    | Some e => attemptCatch E e w1
    | None => breakOrSleep E w1
    end.
Proof.
  intros Hq Ha Hm.
  unfold attemptOnce, bind at 1, gets at 1, bind at 1.
  unfold emit at 1. rewrite Ha.
  unfold try_catch, attemptTry, bind at 1.
  destruct (tryConnect_nomatch (record_event (Ev_attempt (retries w + 1)) w) Hq Hm)
    as (rqs & t & ->).
  exists rqs, t. cbv zeta.
  unfold bind at 1, incr_retries, bind at 1, gets at 1, set_retries,
    bind at 1, gets at 1, bind at 1.
  unfold with_io, record_event.
  cbn [state retries config options isStopped log io tick assigns].
  unfold emit at 1.
  cbn [state retries config options isStopped log io tick assigns].
  rewrite length_app, Nat.add_1_r. cbn [List.length].
  unfold record_event.
  cbn [state retries config options isStopped log io tick assigns].
  rewrite <- app_assoc. cbn [app].
  destruct (throws E (S (List.length (log w))) (Ev_retrying (retries w + 1)));
    [reflexivity|].
  cbv [breakOrSleep bind gets ret sleep].
  cbn [state retries config options isStopped log io tick assigns].
  destruct (retries w + 1 >=? maxRetries (config w)); reflexivity.
Qed.

Lemma breakOrSleep_run (E : Env) (w : World) :
  uninterrupted E ->
  breakOrSleep E w =
  (Ok (if retries w >=? maxRetries (config w) then FBreak else FContinue),
   if retries w >=? maxRetries (config w) then w
   else next_tick (record_request (Sleep (retryIntervalMs (config w))) w)).
Proof.
  intros Hq. cbv [breakOrSleep bind gets ret sleep].
  destruct (retries w >=? maxRetries (config w)); [reflexivity|].
  rewrite suspended_quiet by assumption. reflexivity.
Qed.

(** An attempt whose probe does not match, when the listeners of
    [attempt] and [retrying] return. *)
Lemma attemptOnce_nonmatch (E : Env) (w : World) :
  uninterrupted E ->
  (forall n r, throws E n (Ev_attempt r) = None) ->
  (forall n r, throws E n (Ev_retrying r) = None) ->
  matching (config w) (options w) (http E (tick w) (pingUrl (config w))) = false ->
  exists rqs t,
    attemptOnce E w =
    (Ok (if retries w + 1 >=? maxRetries (config w) then FBreak else FContinue),
     mkWorld (state w) (retries w + 1) (config w) (options w) (isStopped w)
             (log w ++ [Ev_attempt (retries w + 1); Ev_retrying (retries w + 1)])
             rqs t (assigns w)).
Proof.
  intros Hq Ha Hr Hm.
  destruct (attemptOnce_nomatch_cases w Hq (Ha _ _) Hm) as (rqs & t & ->).
  cbv zeta. rewrite Hr. rewrite breakOrSleep_run by assumption.
  cbn [state retries config options isStopped log io tick assigns].
  destruct (retries w + 1 >=? maxRetries (config w)); eexists _, _; reflexivity.
Qed.

Section Exhaustion.

Variable E : Env.
Hypothesis Hq : uninterrupted E.
Hypothesis Ho : forall n ev, is_retrying ev = false -> throws E n ev = None.

(** Whatever the listeners of [retrying] do, an attempt whose probe does
    not match counts at least one retry and leaves the loop by the
    budget alone. *)
Lemma attemptOnce_counts (w : World) :
  matching (config w) (options w) (http E (tick w) (pingUrl (config w))) = false ->
  exists w1 evs flow,
    attemptOnce E w = (Ok flow, w1) /\
    flow = (if retries w1 >=? maxRetries (config w) then FBreak else FContinue) /\
    config w1 = config w /\ options w1 = options w /\
    isStopped w1 = isStopped w /\
    retries w < retries w1 /\
    log w1 = (log w ++ evs)%list.
Proof.
  intros Hm.
  destruct (attemptOnce_nomatch_cases w Hq (Ho _ (Ev_attempt (retries w + 1)) eq_refl) Hm)
    as (rqs & t & ->).
  cbv zeta.
  destruct (throws E (S (List.length (log w))) (Ev_retrying (retries w + 1)))
    as [e|].
  - match goal with |- context [attemptCatch E e ?w0] =>
      destruct (@attemptCatch_heard E e w0 Hq (Ho _ (Ev_stateChange error) eq_refl)
                  (Ho _ (Ev_error e) eq_refl))
        as (rqs' & t' & ->) end.
    cbn [state retries config options isStopped log io tick assigns].
    eexists _, _, _. split; [reflexivity|].
    cbn [state retries config options isStopped log io tick assigns].
    repeat split; [lia|]. rewrite <- app_assoc. reflexivity.
  - rewrite breakOrSleep_run by assumption.
    cbn [state retries config options isStopped log io tick assigns].
    eexists _, _, _. split; [reflexivity|].
    destruct (retries w + 1 >=? maxRetries (config w)) eqn:Hge;
      cbn [state retries config options isStopped log io tick assigns
           next_tick record_request];
      rewrite ?Hge; repeat split; lia.
Qed.

Lemma attemptLoop_exhausts (fuel : nat) :
  forall w,
    never_matching E (config w) (options w) ->
    isStopped w = false ->
    (Z.to_nat (maxRetries (config w) - retries w) <= fuel)%nat ->
    exists w1 evs,
      attemptLoop E fuel w = (Ok Exited, w1) /\
      maxRetries (config w) <= retries w1 /\
      log w1 = (log w ++ evs)%list.
Proof.
  induction fuel as [|fuel IH]; intros w Hnm Hs Hf.
  - assert (Hc : (retries w <? maxRetries (config w)) = false)
      by (apply Z.ltb_ge; lia).
    exists w, []. cbn [attemptLoop]. rewrite Hc, andb_false_r.
    split; [reflexivity|]. split; [apply Z.ltb_ge, Hc | now rewrite app_nil_r].
  - destruct (retries w <? maxRetries (config w)) eqn:Hc.
    2:{ exists w, []. cbn [attemptLoop]. rewrite Hc, andb_false_r.
        split; [reflexivity|]. split; [apply Z.ltb_ge, Hc | now rewrite app_nil_r]. }
    apply Z.ltb_lt in Hc.
    rewrite attemptLoop_step by assumption.
    destruct (attemptOnce_counts w (Hnm (tick w)))
      as (w1 & ev1 & flow & -> & -> & C1 & O1 & S1 & R1 & L1).
    destruct (retries w1 >=? maxRetries (config w)) eqn:Hge.
    + exists w1, ev1. split; [reflexivity|]. split; [apply Z.geb_le, Hge | exact L1].
    + rewrite Z.geb_leb in Hge. apply Z.leb_gt in Hge.
      destruct (IH w1) as (w2 & ev2 & -> & R2 & L2).
      * rewrite C1, O1. exact Hnm.
      * rewrite S1. exact Hs.
      * rewrite C1. lia.
      * exists w2, (ev1 ++ ev2)%list. split; [reflexivity|].
        split; [rewrite <- C1; exact R2|].
        rewrite L2, L1, app_assoc. reflexivity.
Qed.

(** A search in which no probe matches runs until the budget is
    exhausted and ends in [listening]. *)
Lemma attemptConnectionLoop_exhausts (w : World) :
  never_matching E (config w) (options w) ->
  isStopped w = false ->
  exists w' evs,
    attemptConnectionLoop E w = (Ok tt, w') /\
    state w' = listening /\
    maxRetries (config w) <= retries w' /\
    log w' = (log w ++ evs ++ [Ev_stateChange listening; Ev_listening])%list.
Proof.
  intros Hnm Hs.
  destruct (@attemptLoop_exhausts (attemptFuel w) w Hnm Hs)
    as (w1 & evs & Hl & R1 & L1); [unfold attemptFuel; lia|].
  unfold attemptConnectionLoop, bind at 1, gets at 1, bind at 1. rewrite Hl.
  cbv [bind set_state emitStateChange gets emit record_event].
  cbn [state retries config options isStopped log io tick assigns].
  rewrite (Ho _ (Ev_stateChange listening) eq_refl).
  cbn [state retries config options isStopped log io tick assigns].
  rewrite (Ho _ Ev_listening eq_refl).
  eexists _, evs. split; [reflexivity|].
  cbn [state retries config options isStopped log io tick assigns].
  split; [reflexivity|]. split; [exact R1|].
  rewrite L1. repeat rewrite <- app_assoc. reflexivity.
Qed.

End Exhaustion.

(** With no [error] listener, an exception that reaches the [catch]
    block leaves the loop, in whichever iteration it happens. *)
Lemma attemptLoop_abandoned (E : Env) (fuel : nat) (w w1 : World) (e : Exn) :
  no_error_listener E ->
  isStopped w = false ->
  retries w < maxRetries (config w) ->
  attemptTry E (record_event (Ev_attempt (retries w + 1)) w) = (Throw e, w1) ->
  attemptLoop E (S fuel) w =
  (Throw e,
   mkWorld error (retries w1) (config w1) (options w1) (isStopped w1)
           (log w1 ++ [Ev_stateChange error; Ev_error e]) (io w1) (tick w1)
           (assigns w1 ++ [error])).
Proof.
  intros Hn Hs Hc Htry.
  rewrite attemptLoop_step by assumption.
  unfold attemptOnce, bind at 1, gets at 1, bind at 1.
  unfold emit at 1. rewrite Hn.
  unfold try_catch. rewrite Htry.
  rewrite (@attemptCatch_unheard E e e w1) by (rewrite Hn; reflexivity).
  reflexivity.
Qed.

Lemma attemptConnectionLoop_abandoned (E : Env) (w w1 : World) (e : Exn) :
  no_error_listener E ->
  isStopped w = false ->
  retries w < maxRetries (config w) ->
  attemptTry E (record_event (Ev_attempt (retries w + 1)) w) = (Throw e, w1) ->
  attemptConnectionLoop E w =
  (Throw e,
   mkWorld error (retries w1) (config w1) (options w1) (isStopped w1)
           (log w1 ++ [Ev_stateChange error; Ev_error e]) (io w1) (tick w1)
           (assigns w1 ++ [error])).
Proof.
  intros Hn Hs Hc Htry.
  unfold attemptConnectionLoop, bind at 1, gets at 1, bind at 1.
  assert (Hfuel : exists f, attemptFuel w = S f).
  { unfold attemptFuel. exists (Z.to_nat (maxRetries (config w) - retries w) - 1)%nat.
    lia. }
  destruct Hfuel as (f & ->).
  rewrite (@attemptLoop_abandoned E f w w1 e Hn Hs Hc Htry). reflexivity.
Qed.




(* ================================================================== *)
(** ** [stop()] while a loop is running *)

(** [stop()] itself: the flag is set, the state is [idle], one
    [stateChange] is emitted. *)
Lemma stop_immediate (E : Env) (w : World) :
  isStopped (snd (stop E w)) = true /\
  state (snd (stop E w)) = idle /\
  log (snd (stop E w)) = (log w ++ [Ev_stateChange idle])%list.
Proof. rewrite stop_world. repeat split; reflexivity. Qed.

(** C1 fails on the code. [stop()] called during the sleep between two
    attempts: the state becomes [idle], and when the sleep resolves the
    loop exits and the machine goes to [listening]. [stop()] called
    during the first poll of the signal-wait phase: the state becomes
    [idle], and when the poll resolves [deploySignalTimeout] is emitted
    and the machine goes to [error]. *)
Theorem C1_stop_then_further_transitions :
  (let w := snd (start (env_down_stop_at 1) manager3) in
   isStopped w = true /\
   state w = listening /\
   log w = [Ev_stateChange searching; Ev_attempt 1; Ev_retrying 1;
            Ev_stateChange idle; Ev_stateChange listening; Ev_listening]) /\
  (let w := snd (start (env_peer (Some 2%nat)) manager3) in
   isStopped w = true /\
   state w = error /\
   log w = [Ev_stateChange searching; Ev_attempt 1; Ev_gemeloFound "other";
            Ev_stateChange connected; Ev_connected; Ev_waitingDeploySignal;
            Ev_stateChange deploying; Ev_stateChange idle;
            Ev_deploySignalTimeout; Ev_stateChange error;
            Ev_error timeoutError]).
Proof. vm_compute. repeat split; reflexivity. Qed.

(** The cause, in general: a loop that finds the stop flag set falls
    through to the code after it. *)
Lemma attemptConnectionLoop_stopped (E : Env) (w : World) :
  isStopped w = true ->
  state (snd (attemptConnectionLoop E w)) = listening.
Proof.
  intros Hs.
  apply (@attemptConnectionLoop_exited E w w).
  unfold attemptFuel. destruct (Z.to_nat _); cbn [attemptLoop];
    rewrite Hs; reflexivity.
Qed.

(* ================================================================== *)
(** ** Instances *)

Lemma env_down_passive : passive env_down.
Proof. intros n ev. reflexivity. Qed.

Lemma env_down_uninterrupted : uninterrupted env_down.
Proof. intros t. reflexivity. Qed.

Lemma env_peer_passive (stop_at : option nat) : passive (env_peer stop_at).
Proof. intros n ev. reflexivity. Qed.

Lemma C3_witness :
  exists w' evs,
    start env_down manager3 = (Ok tt, w') /\
    state w' = listening /\
    count is_attempt evs = 3%nat /\
    count is_retrying evs = 3%nat /\
    count is_error evs = 0%nat.
Proof.
  destruct (@C3_never_matching_exhausts env_down manager3 3)
    as (w' & evs & H1 & H2 & _ & _ & H5 & H6 & H7 & _).
  - intros n ev. reflexivity.
  - intros t. reflexivity.
  - intros t. reflexivity.
  - reflexivity.
  - exists w', evs. repeat split; assumption.
Defined.


Lemma C5_witness :
  fst (tryConnectToGemelo (env_peer None) manager3) = Ok true <->
  exists resp data code peer,
    http (env_peer None) (tick manager3) (pingUrl (config manager3))
    = Resolved resp /\
    ok resp = true /\
    json_body resp = Resolved data /\
    prop data "internalCode" = Some (JNumber code) /\
    code = internalCode (config manager3) /\
    prop data "botId" = Some (JString peer) /\
    peer <> botId (options manager3).
Proof.
  apply (proj1 (@C5_probe_match_iff (env_peer None) manager3)).
  intros n peer. reflexivity.
Defined.

Lemma C6_witness :
  exists w' datas,
    deployBots (env_peer None) manager3 = (Ok tt, w') /\
    state w' = error /\
    List.length datas = 1%nat /\
    io w' =
    ([Mkdir "./deployedBots"] ++
     transfers (env_peer None) "./deployedBots"
               (combine ["https://f/a.js"] datas) ++
     [HttpGet "https://f/b.js"])%list.
Proof.
  destruct (proj2 (@C6_deploy_order_and_abort (env_peer None)
                     (env_peer_passive None))
                  manager3 ["https://f/a.js"] "https://f/b.js"
                  ["https://f/c.js"]
                  (snd (downloadAll (env_peer None) ["https://f/a.js"]
                          (suspended (env_peer None)
                             (record_request (Mkdir (deployPath (config manager3)))
                                (record_event Ev_deployStart manager3)))))
                  http500)
    as (w' & datas & H1 & H2 & H3 & H4 & _).
  - reflexivity.
  - reflexivity.
  - vm_compute. reflexivity.
  - reflexivity.
  - reflexivity.
  - exists w', datas. repeat split; assumption.
Defined.

Lemma C8_witness :
  fst (wakeUpGemelo env_down manager3_listening) = Ok tt /\
  state (snd (wakeUpGemelo env_down manager3_listening)) = listening /\
  assigns (snd (wakeUpGemelo env_down manager3_listening))
  = assigns manager3_listening /\
  log (snd (wakeUpGemelo env_down manager3_listening)) = log manager3_listening.
Proof.
  apply (proj2 (@C8_wake_failure env_down manager3_listening
                  env_down_passive env_down_uninterrupted eq_refl) http500);
    reflexivity.
Defined.

(** C8, as stated, fails: a wake request answered with status 500 is a
    failed request, and [wakeUpGemelo] emits nothing at all. *)
Lemma C8_counterexample :
  ~ wake_failure_reported env_down manager3_listening.
Proof.
  intros Hclaim.
  destruct Hclaim as (_ & evs & Hlog & Hne).
  - vm_compute. reflexivity.
  - apply Hne.
    assert (Hsame : log (snd (wakeUpGemelo env_down manager3_listening))
                    = (log manager3_listening ++ [])%list)
      by (vm_compute; reflexivity).
    rewrite Hsame in Hlog. apply app_inv_head in Hlog. symmetry. exact Hlog.
Qed.

Lemma C9_witness :
  maxRetries (config (new_SyncManager (mkOptions "me" "https://t" None))) = 5 /\
  pingUrl (config (new_SyncManager (mkOptions "me" "https://t" None)))
  = "https://t/sync/ping?botId=me".
Proof.
  destruct (@C9_constructor_defaults (mkOptions "me" "https://t" None))
    as (H1 & _ & _ & _ & _ & _ & _ & H8).
  split.
  - apply H1. reflexivity.
  - apply H8. left. reflexivity.
Defined.

Lemma C10_witness :
  (fst (deployBots (env_up true) manager3) = Ok tt /\
   exists evs,
     state (snd (deployBots (env_up true) manager3)) = error /\
     log (snd (deployBots (env_up true) manager3)) = (log manager3 ++ evs)%list /\
     count is_error evs = 1%nat /\
     last evs (Ev_stateChange idle) = Ev_error launchError) /\
  (exists evs,
     state (snd (deployBots env_disk_full manager3)) = error /\
     log (snd (deployBots env_disk_full manager3)) = (log manager3 ++ evs)%list /\
     count is_error evs = 1%nat /\
     last evs (Ev_stateChange idle) = Ev_error diskError) /\
  (exists evs,
     state (snd (deployBots (env_peer None) manager3)) = error /\
     log (snd (deployBots (env_peer None) manager3)) = (log manager3 ++ evs)%list /\
     count is_error evs = 1%nat /\
     last evs (Ev_stateChange idle) = Ev_error (downloadError "https://f/b.js")) /\
  (exists evs,
     fst (deployBots (without_error_listener (env_up true)) manager3)
     = Throw launchError /\
     state (snd (deployBots (without_error_listener (env_up true)) manager3))
     = error /\
     log (snd (deployBots (without_error_listener (env_up true)) manager3))
     = (log manager3 ++ evs)%list /\
     count is_error evs = 1%nat /\
     last evs (Ev_stateChange idle) = Ev_error launchError).
Proof.
  split; [|split; [|split]].
  - destruct (@C10_deploy_failures_absorbed (env_up true)) as [Hpass _].
    destruct Hpass as (Hok & Hfail & _).
    + intros n ev. reflexivity.
    + split; [apply Hok|]. apply Hfail. reflexivity.
  - destruct (@C10_deploy_failures_absorbed env_disk_full) as [Hpass _].
    destruct Hpass as (_ & Hfail & _).
    + intros n ev. reflexivity.
    + apply Hfail. reflexivity.
  - destruct (@C10_deploy_failures_absorbed (env_peer None)) as [Hpass _].
    destruct Hpass as (_ & Hfail & _).
    + intros n ev. reflexivity.
    + apply Hfail. reflexivity.
  - destruct (@C10_deploy_failures_absorbed (without_error_listener (env_up true)))
      as [_ Hunheard].
    apply Hunheard.
    + intros n ev. reflexivity.
    + reflexivity.
Defined.

(** C10, as stated, fails for the manager of the repository's own
    handler, which registers no [error] listener: when the command
    cannot be started, [deployBots] rejects with the failure. *)
Lemma C10_counterexample :
  ~ never_propagates env_handler handler_deploying.
Proof.
  intros Hclaim. apply (Hclaim launchError). vm_compute. reflexivity.
Qed.

(** The run that failure belongs to: [deployBots] is entered in
    [handler_deploying], and every [catch] block on the way out notifies
    the failure again, until [start()] itself rejects. *)
Lemma handler_run :
  let w := snd (deployBots env_handler handler_deploying) in
  start env_handler (new_SyncManager handlerOptions) =
  (Throw launchError,
   mkWorld error 0 (config w) (options w) false
           (log w ++ [Ev_error launchError;
                      Ev_stateChange error; Ev_error launchError;
                      Ev_stateChange error; Ev_error launchError])
           (io w) (tick w) (assigns w ++ [error; error])).
Proof. vm_compute. reflexivity. Qed.

(* ================================================================== *)
(** * Further properties of the code *)

(* ================================================================== *)
(** ** [isSyncData] *)

(** X1. The type guard accepts exactly the objects that carry a number under
    [internalCode] and a string under [botId]; [null], arrays and
    primitive values are rejected, other properties are ignored. *)
Theorem isSyncData_iff (obj : JSON) :
  isSyncData obj = true <->
  exists fields code peer,
    obj = JObject fields /\
    lookup_field "internalCode" fields = Some (JNumber code) /\
    lookup_field "botId" fields = Some (JString peer).
Proof.
  unfold isSyncData. split.
  - intros H. destruct obj; cbn in H; try discriminate.
    destruct (lookup_field "internalCode" fields) as [[]|] eqn:Hc; cbn in H;
      try discriminate.
    destruct (lookup_field "botId" fields) as [[]|] eqn:Hb; cbn in H;
      try discriminate.
    eauto 6.
  - intros (fields & code & peer & -> & Hc & Hb). cbn. rewrite Hc, Hb. reflexivity.
Qed.

(** X2. A property other than the two inspected ones does not change the
    verdict, wherever it is and whatever it holds. *)
Theorem isSyncData_ignores_other_fields
        (pre post : list (string * JSON)) (name : string) (v : JSON) :
  name <> "internalCode" -> name <> "botId" ->
  isSyncData (JObject (pre ++ (name, v) :: post)) =
  isSyncData (JObject (pre ++ post)).
Proof.
  intros H1 H2.
  assert (Hl : forall key, name <> key ->
            lookup_field key (pre ++ (name, v) :: post) =
            lookup_field key (pre ++ post)).
  { intros key Hk. induction pre as [|[k x] pre IH]; cbn.
    - apply String.eqb_neq in Hk. rewrite Hk. reflexivity.
    - destruct (String.eqb k key); [reflexivity | exact IH]. }
  unfold isSyncData. cbn [prop is_null typeof].
  rewrite (Hl "internalCode" H1), (Hl "botId" H2). reflexivity.
Qed.

(* ================================================================== *)
(** ** The constructor *)

(** A new manager is [idle], has counted no retry, is not stopped and has
    emitted and requested nothing: construction has no effect outside
    the object. *)
Theorem new_SyncManager_initial (o : SyncManagerOptions) :
  let w := new_SyncManager o in
  state w = idle /\ retries w = 0 /\ isStopped w = false /\
  log w = [] /\ io w = [] /\ options w = o.
Proof. cbv zeta. repeat split; reflexivity. Qed.

(** X3. Every supplied field overrides its default; only an empty [pingUrl]
    is replaced. *)
Theorem new_SyncManager_keeps_supplied (o : SyncManagerOptions) (c : SyncConfig) :
  opt_config o = Some (fullPartial c) ->
  pingUrl c <> "" ->
  config (new_SyncManager o) = c.
Proof.
  intros Ho Hp. rewrite config_new. cbv zeta. rewrite Ho.
  unfold spread, fullPartial, or_default.
  cbn [p_maxRetries p_retryIntervalMs p_connectionTimeoutMs p_internalCode
       p_pingUrl p_botsFilesUrls p_botsExecCommand p_deployPath pingUrl].
  apply String.eqb_neq in Hp. rewrite Hp. destruct c; reflexivity.
Qed.

Lemma new_SyncManager_keeps_supplied_witness :
  config (new_SyncManager
            (mkOptions "me" "https://t"
               (Some (fullPartial (mkConfig 2 1 1 7 "https://p" [] "run" "d")))))
  = mkConfig 2 1 1 7 "https://p" [] "run" "d".
Proof.
  apply (@new_SyncManager_keeps_supplied
           (mkOptions "me" "https://t"
              (Some (fullPartial (mkConfig 2 1 1 7 "https://p" [] "run" "d"))))
           (mkConfig 2 1 1 7 "https://p" [] "run" "d")).
  - reflexivity.
  - discriminate.
Defined.

(** X4. The ping URL is never left empty. *)
Theorem new_SyncManager_pingUrl_nonempty (o : SyncManagerOptions) :
  pingUrl (config (new_SyncManager o)) <> "".
Proof.
  rewrite config_new. cbv zeta.
  destruct (String.eqb (pingUrl (spread defaults (opt_config o))) "") eqn:Hu.
  - cbn [set_pingUrl pingUrl]. unfold derivedPingUrl.
    destruct (teraboxBaseUrl o); cbn; discriminate.
  - apply String.eqb_neq. exact Hu.
Qed.

(* ================================================================== *)
(** ** [wakeUpGemelo] *)

(** X5. Outside [listening] the call does nothing: no request, no
    notification, no change, in any environment. *)
Theorem wakeUpGemelo_noop (E : Env) (w : World) :
  state w <> listening -> wakeUpGemelo E w = (Ok tt, w).
Proof.
  intros Hs. unfold wakeUpGemelo, bind, gets.
  destruct (state w); try reflexivity. contradiction.
Qed.

Lemma wakeUpGemelo_noop_witness :
  wakeUpGemelo env_down manager3 = (Ok tt, manager3).
Proof.
  apply (@wakeUpGemelo_noop env_down manager3). discriminate.
Defined.

(** X6. In [listening], one POST goes to the wake URL with the pairing code
    as its body, whatever the answer; an OK answer is notified by
    [wokeGemelo] alone. *)
Theorem wakeUpGemelo_request (E : Env) (w : World) :
  passive E -> uninterrupted E ->
  state w = listening ->
  io (snd (wakeUpGemelo E w)) =
  (io w ++ [HttpPost (teraboxBaseUrl (options w) ++ "/sync/wake?botId=" ++
                      botId (options w))
                     (wakeBody (config w))])%list /\
  (forall resp,
      http E (tick w) (wakeUrl (options w)) = Resolved resp ->
      ok resp = true ->
      log (snd (wakeUpGemelo E w)) = (log w ++ [Ev_wokeGemelo])%list /\
      state (snd (wakeUpGemelo E w)) = listening).
Proof.
  intros Hp Hq Hs.
  rewrite (wakeUpGemelo_listening w Hp Hq Hs). cbn [snd io log state].
  split; [reflexivity|].
  intros resp -> ->. split; reflexivity.
Qed.

Lemma wakeUpGemelo_request_witness :
  io (snd (wakeUpGemelo env_down manager3_listening)) =
  (io manager3_listening ++
   [HttpPost "https://t/sync/wake?botId=me" (wakeBody (config manager3))])%list.
Proof.
  apply (proj1 (@wakeUpGemelo_request env_down manager3_listening
                  env_down_passive env_down_uninterrupted eq_refl)).
Defined.

(* ================================================================== *)
(** ** [start()] restarts *)

(** X7. [start()] overwrites the state, the retry counter and the stop flag
    before it reads them: a run does not depend on how the previous one
    ended, so [start()] after [stop()] behaves like a first [start()]. *)
Theorem start_forgets_previous_run (E : Env) (w1 w2 : World) :
  same_but_run_state w1 w2 -> start E w1 = start E w2.
Proof.
  intros (Hc & Ho & Hl & Hi & Ht & Ha).
  destruct w1, w2. cbn in *. subst. reflexivity.
Qed.

Lemma start_forgets_previous_run_witness :
  start env_down (snd (stop env_down manager3)) =
  start env_down
        (mkWorld idle 0 (config manager3) (options manager3) false
                 [Ev_stateChange idle] [] 0%nat [idle]).
Proof.
  apply (@start_forgets_previous_run env_down).
  repeat split; reflexivity.
Defined.

(* ================================================================== *)
(** ** Loops entered with the stop flag set *)

(** X8. The searching loop entered with the flag set makes no attempt and no
    request, and the code after it still announces [listening]. *)
Theorem attemptConnectionLoop_when_stopped (E : Env) (w : World) :
  passive E ->
  isStopped w = true ->
  attemptConnectionLoop E w =
  (Ok tt,
   mkWorld listening (retries w) (config w) (options w) true
           (log w ++ [Ev_stateChange listening; Ev_listening])
           (io w) (tick w) (assigns w ++ [listening])).
Proof.
  intros Hp Hs.
  assert (Hl : attemptLoop E (attemptFuel w) w = (Ok Exited, w)).
  { destruct (attemptFuel w); cbn [attemptLoop]; rewrite Hs; reflexivity. }
  unfold attemptConnectionLoop, bind at 1, gets at 1, bind at 1. rewrite Hl.
  unfold bind at 1, set_state, bind at 1.
  rewrite emitStateChange_passive by assumption.
  rewrite emit_passive by assumption.
  unfold record_event.
  cbn [state retries config options isStopped log io tick assigns].
  rewrite Hs, <- app_assoc. reflexivity.
Qed.

Lemma attemptConnectionLoop_when_stopped_witness :
  state (snd (attemptConnectionLoop env_down (snd (stop env_down manager3))))
  = listening.
Proof.
  rewrite (@attemptConnectionLoop_when_stopped env_down
             (snd (stop env_down manager3)) env_down_passive eq_refl).
  reflexivity.
Defined.

(** X9. The signal-wait loop entered with the flag set polls nothing, and
    the code after it still reports a timeout and goes to [error]. *)
Theorem waitForDeploySignal_when_stopped (E : Env) (w : World) :
  passive E ->
  isStopped w = true ->
  waitForDeploySignal E w =
  (Ok tt,
   mkWorld error (retries w) (config w) (options w) true
           (log w ++ [Ev_waitingDeploySignal; Ev_stateChange deploying;
                      Ev_deploySignalTimeout; Ev_stateChange error;
                      Ev_error timeoutError])
           (io w) (tick w) (assigns w ++ [deploying; error])).
Proof.
  intros Hp Hs.
  unfold waitForDeploySignal, bind at 1. rewrite emit_passive by assumption.
  unfold bind at 1, set_state, bind at 1.
  rewrite emitStateChange_passive by assumption.
  unfold bind at 1, record_event.
  cbn [state retries config options isStopped log io tick assigns].
  generalize (Z.to_nat maxPolls). intros fuel.
  assert (Hl : forall w0, isStopped w0 = true ->
                 pollLoop E fuel 0 w0 = (Ok Exited, w0)).
  { intros w0 H0. destruct fuel; cbn [pollLoop]; rewrite H0; reflexivity. }
  rewrite Hl by exact Hs.
  unfold bind. rewrite emit_passive by assumption.
  rewrite setError_passive by assumption.
  unfold record_event.
  cbn [state retries config options isStopped log io tick assigns].
  rewrite Hs. repeat rewrite <- app_assoc. reflexivity.
Qed.

Lemma waitForDeploySignal_when_stopped_witness :
  state (snd (waitForDeploySignal env_down (snd (stop env_down manager3))))
  = error.
Proof.
  rewrite (@waitForDeploySignal_when_stopped env_down
             (snd (stop env_down manager3)) env_down_passive eq_refl).
  reflexivity.
Defined.

(* ================================================================== *)
(** ** What each phase can do, in any environment *)

Lemma confined_refl (allowed : Event -> bool) (w : World) : confined allowed w w.
Proof.
  repeat split; try reflexivity. exists [].
  cbn. rewrite !app_nil_r. repeat split; reflexivity.
Qed.

Lemma confined_trans (allowed : Event -> bool) (a b c : World) :
  confined allowed a b -> confined allowed b c -> confined allowed a c.
Proof.
  intros (C1 & O1 & R1 & e1 & L1 & A1 & F1) (C2 & O2 & R2 & e2 & L2 & A2 & F2).
  repeat split; try congruence; try lia.
  exists (e1 ++ e2)%list. repeat split.
  - rewrite L2, L1, app_assoc. reflexivity.
  - rewrite A2, A1, stateChanges_app, app_assoc. reflexivity.
  - rewrite forallb_app, F1, F2. reflexivity.
Qed.

#[local] Instance confined_preorder (allowed : Event -> bool) :
  PreOrder (confined allowed).
Proof.
  split.
  - intros w. apply confined_refl.
  - intros a b c. apply confined_trans.
Qed.

#[local] Instance same_counter_preorder : PreOrder same_counter.
Proof.
  split.
  - intros w. reflexivity.
  - intros a b c Hab Hbc. unfold same_counter in *. congruence.
Qed.

Section Confined.

Variable E : Env.
Variable allowed : Event -> bool.

Let plain (ev : Event) : bool := allowed ev && negb (is_stateChange ev).
Let reachable (s : SyncState) : bool := allowed (Ev_stateChange s).

Lemma confined_event (ev : Event) (w : World) :
  plain ev = true -> confined allowed w (record_event ev w).
Proof.
  intros Hev. apply andb_prop in Hev as [Ha Hn].
  repeat split; try reflexivity. exists [ev].
  cbn [log assigns record_event]. repeat split.
  - destruct ev; try discriminate; cbn; now rewrite app_nil_r.
  - cbn. rewrite Ha. reflexivity.
Qed.

Lemma confined_same (w w' : World) :
  config w' = config w -> options w' = options w -> retries w <= retries w' ->
  log w' = log w -> assigns w' = assigns w ->
  confined allowed w w'.
Proof.
  intros Hc Ho Hr Hl Ha. repeat split; try assumption.
  exists []. cbn. rewrite !app_nil_r. repeat split; assumption.
Qed.

Lemma confined_request (rq : Request) (w : World) :
  confined allowed w (record_request rq w).
Proof. apply confined_same; reflexivity. Qed.

Lemma confined_tick (w : World) : confined allowed w (next_tick w).
Proof. apply confined_same; reflexivity. Qed.

Lemma confined_incr (w : World) :
  confined allowed w
    (mkWorld (state w) (retries w + 1) (config w) (options w)
             (isStopped w) (log w) (io w) (tick w) (assigns w)).
Proof. apply confined_same; cbn; try reflexivity. lia. Qed.

Lemma confined_transition (s : SyncState) (b : bool) (w : World) :
  reachable s = true ->
  confined allowed w
    (mkWorld s (retries w) (config w) (options w) b
             (log w ++ [Ev_stateChange s]) (io w) (tick w) (assigns w ++ [s])).
Proof.
  intros Hs. repeat split; try reflexivity.
  exists [Ev_stateChange s]. cbn [log assigns stateChanges]. repeat split.
  cbn. unfold reachable in Hs. rewrite Hs. reflexivity.
Qed.

Hypothesis allowed_idle : allowed (Ev_stateChange idle) = true.

Lemma confined_suspended (w : World) : confined allowed w (suspended E w).
Proof.
  apply (@r_suspended E (confined allowed) _ reachable confined_tick
           confined_transition allowed_idle).
Qed.

End Confined.

Section Counter.

Variable E : Env.

Let every (ev : Event) : bool := true.
Let anywhere (s : SyncState) : bool := true.

Lemma same_counter_event (ev : Event) (w : World) :
  every ev = true -> same_counter w (record_event ev w).
Proof. reflexivity. Qed.

Lemma same_counter_request (rq : Request) (w : World) :
  same_counter w (record_request rq w).
Proof. reflexivity. Qed.

Lemma same_counter_tick (w : World) : same_counter w (next_tick w).
Proof. reflexivity. Qed.

Lemma same_counter_transition (s : SyncState) (b : bool) (w : World) :
  anywhere s = true ->
  same_counter w
    (mkWorld s (retries w) (config w) (options w) b
             (log w ++ [Ev_stateChange s]) (io w) (tick w) (assigns w ++ [s])).
Proof. reflexivity. Qed.

Lemma same_counter_suspended (w : World) : same_counter w (suspended E w).
Proof.
  apply (@r_suspended E same_counter _ anywhere same_counter_tick
           same_counter_transition eq_refl).
Qed.

Lemma same_counter_tryConnectToGemelo :
  respects same_counter (tryConnectToGemelo E).
Proof.
  apply (@r_tryConnectToGemelo E same_counter _ every anywhere
           same_counter_event same_counter_request same_counter_tick
           same_counter_transition eq_refl).
  reflexivity.
Qed.

Lemma same_counter_waitForDeploySignal :
  respects same_counter (waitForDeploySignal E).
Proof.
  apply (@r_waitForDeploySignal E same_counter _ every anywhere
           same_counter_event same_counter_request same_counter_tick
           same_counter_transition eq_refl);
    try reflexivity; intros; reflexivity.
Qed.

Lemma same_counter_deployBots : respects same_counter (deployBots E).
Proof.
  apply (@r_deployBots E same_counter _ every anywhere
           same_counter_event same_counter_request same_counter_tick
           same_counter_transition eq_refl);
    try reflexivity; intros; reflexivity.
Qed.

Lemma same_counter_wakeUpGemelo : respects same_counter (wakeUpGemelo E).
Proof.
  apply (@r_wakeUpGemelo E same_counter _).
  - apply same_counter_request.
  - apply same_counter_suspended.
  - reflexivity.
  - reflexivity.
Qed.

End Counter.

Ltac confine :=
  first
    [ apply confined_event
    | apply confined_request
    | apply confined_tick
    | apply confined_transition
    | apply confined_incr
    | reflexivity
    | (intros []; cbn; intros; first [reflexivity | discriminate])
    | (intros; reflexivity) ].

Lemma confined_deployBots (E : Env) :
  respects (confined deploy_alphabet) (deployBots E).
Proof.
  apply (@r_deployBots E (confined deploy_alphabet) _
           (fun ev => deploy_alphabet ev && negb (is_stateChange ev))
           (fun s => deploy_alphabet (Ev_stateChange s)));
    confine.
Qed.

Lemma confined_waitForDeploySignal (E : Env) :
  respects (confined wait_alphabet) (waitForDeploySignal E).
Proof.
  apply (@r_waitForDeploySignal E (confined wait_alphabet) _
           (fun ev => wait_alphabet ev && negb (is_stateChange ev))
           (fun s => wait_alphabet (Ev_stateChange s)));
    confine.
Qed.

Lemma confined_tryConnectToGemelo (E : Env) :
  respects (confined probe_alphabet) (tryConnectToGemelo E).
Proof.
  apply (@r_tryConnectToGemelo E (confined probe_alphabet) _
           (fun ev => probe_alphabet ev && negb (is_stateChange ev))
           (fun s => probe_alphabet (Ev_stateChange s)));
    confine.
Qed.

Lemma confined_wakeUpGemelo (E : Env) :
  respects (confined wake_alphabet) (wakeUpGemelo E).
Proof.
  apply (@r_wakeUpGemelo E (confined wake_alphabet) _).
  - apply confined_request.
  - apply confined_suspended. reflexivity.
  - intros w. apply confined_event. reflexivity.
  - intros e w. apply confined_event. reflexivity.
Qed.

Lemma confined_attemptConnectionLoop (E : Env) :
  respects (confined start_alphabet) (attemptConnectionLoop E).
Proof.
  apply (@r_attemptConnectionLoop E (confined start_alphabet) _
           (fun ev => start_alphabet ev && negb (is_stateChange ev))
           (fun s => start_alphabet (Ev_stateChange s)));
    confine.
Qed.

(** X10. A deployment, in any environment: it emits only its step
    notifications and the [error] transition of a failure ([idle] if
    [stop()] arrives); every state it assigns is notified; it leaves the
    configuration and the retry counter alone.  In particular it never
    emits [deploySignalTimeout] and never goes to [listening]. *)
Theorem deployBots_confined (E : Env) (w : World) :
  let w' := snd (deployBots E w) in
  config w' = config w /\
  retries w' = retries w /\
  exists evs,
    log w' = (log w ++ evs)%list /\
    assigns w' = (assigns w ++ stateChanges evs)%list /\
    forallb deploy_alphabet evs = true.
Proof.
  cbv zeta.
  destruct (confined_deployBots E w) as (Hc & _ & _ & Hevs).
  split; [exact Hc|]. split; [apply same_counter_deployBots | exact Hevs].
Qed.

(** X11. The signal-wait phase, in any environment: besides what a
    deployment emits, only [waitingDeploySignal], the transition to
    [deploying] and the two verdicts; the retry budget of the search is
    not touched. *)
Theorem waitForDeploySignal_confined (E : Env) (w : World) :
  let w' := snd (waitForDeploySignal E w) in
  config w' = config w /\
  retries w' = retries w /\
  exists evs,
    log w' = (log w ++ evs)%list /\
    assigns w' = (assigns w ++ stateChanges evs)%list /\
    forallb wait_alphabet evs = true.
Proof.
  cbv zeta.
  destruct (confined_waitForDeploySignal E w) as (Hc & _ & _ & Hevs).
  split; [exact Hc|].
  split; [apply same_counter_waitForDeploySignal | exact Hevs].
Qed.

(** X12. A probe, in any environment: it never throws, it resolves to a
    boolean; it can emit [gemeloFound] and nothing else ([idle] if
    [stop()] arrives); it changes neither the retry counter nor the
    configuration. *)
Theorem tryConnectToGemelo_contained (E : Env) (w : World) :
  let w' := snd (tryConnectToGemelo E w) in
  (exists found, fst (tryConnectToGemelo E w) = Ok found) /\
  config w' = config w /\
  retries w' = retries w /\
  exists evs,
    log w' = (log w ++ evs)%list /\
    assigns w' = (assigns w ++ stateChanges evs)%list /\
    forallb probe_alphabet evs = true.
Proof.
  cbv zeta.
  destruct (confined_tryConnectToGemelo E w) as (Hc & _ & _ & Hevs).
  split; [rewrite tryConnect_result; eexists; reflexivity|].
  split; [exact Hc|].
  split; [apply same_counter_tryConnectToGemelo | exact Hevs].
Qed.

(** X13. A manual wake, in any environment and any state: it assigns no
    state itself (only [stop()] arriving meanwhile does), it emits at
    most [wokeGemelo] or [error], and it leaves the retry counter and the
    configuration alone. *)
Theorem wakeUpGemelo_confined (E : Env) (w : World) :
  let w' := snd (wakeUpGemelo E w) in
  config w' = config w /\
  retries w' = retries w /\
  exists evs,
    log w' = (log w ++ evs)%list /\
    assigns w' = (assigns w ++ stateChanges evs)%list /\
    forallb wake_alphabet evs = true.
Proof.
  cbv zeta.
  destruct (confined_wakeUpGemelo E w) as (Hc & _ & _ & Hevs).
  split; [exact Hc|].
  split; [apply same_counter_wakeUpGemelo | exact Hevs].
Qed.

(* ================================================================== *)
(** ** The searching loop terminates *)

Lemma forallb_count0 (allowed q : Event -> bool) (evs : list Event) :
  (forall ev, allowed ev = true -> q ev = false) ->
  forallb allowed evs = true -> count q evs = 0%nat.
Proof.
  intros Hq. induction evs as [|ev evs IH]; intros H; [reflexivity|].
  cbn in H. apply andb_prop in H as [H1 H2].
  unfold count in *. cbn. rewrite (Hq ev H1). apply IH, H2.
Qed.

Lemma resolves_to_ret {A} (v : A) : resolves_to v (ret v).
Proof. intros w a H. injection H as <-. reflexivity. Qed.

Lemma resolves_to_bind {A B} (v : B) (m : M A) (f : A -> M B) :
  (forall a, resolves_to v (f a)) -> resolves_to v (bind m f).
Proof.
  intros Hf w b. unfold bind.
  destruct (m w) as [[a|e|h] w1]; cbn [fst]; try discriminate. apply Hf.
Qed.

Section Termination.

Variable E : Env.

Lemma no_attempt_attemptTry : respects (confined no_attempt) (attemptTry E).
Proof.
  apply (@r_attemptTry E (confined no_attempt) _
           (fun ev => no_attempt ev && negb (is_stateChange ev))
           (fun s => no_attempt (Ev_stateChange s)));
    confine.
Qed.

Lemma no_attempt_attemptCatch (err : Exn) :
  respects (confined no_attempt) (attemptCatch E err).
Proof.
  apply (@r_attemptCatch E (confined no_attempt) _
           (fun ev => no_attempt ev && negb (is_stateChange ev))
           (fun s => no_attempt (Ev_stateChange s)));
    confine.
Qed.

Lemma no_attempt_setError (err : Exn) :
  respects (confined no_attempt) (setError E err).
Proof.
  apply (@r_setError E (confined no_attempt) _
           (fun ev => no_attempt ev && negb (is_stateChange ev))
           (fun s => no_attempt (Ev_stateChange s)));
    confine.
Qed.

Lemma no_attempt_breakOrSleep :
  respects (confined no_attempt) (breakOrSleep E).
Proof.
  apply (@r_breakOrSleep E (confined no_attempt) _
           (fun s => no_attempt (Ev_stateChange s)));
    confine.
Qed.

(** The [try] block continues the loop only after counting a retry. *)
Lemma attemptTry_progress (w w' : World) :
  attemptTry E w = (Ok FContinue, w') -> retries w + 1 <= retries w'.
Proof.
  unfold attemptTry, bind at 1.
  pose proof (same_counter_tryConnectToGemelo E w) as Hc.
  destruct (tryConnectToGemelo E w) as [[[|]|e|h] w1]; cbn [snd] in Hc;
    try discriminate.
  - intros Heq.
    assert (Hr : resolves_to FReturn
                   (set_state connected ;; emitStateChange E ;;
                    emit E Ev_connected ;; waitForDeploySignal E ;; ret FReturn)).
    { repeat (apply resolves_to_bind; intros ?). apply resolves_to_ret. }
    specialize (Hr w1 FContinue). rewrite Heq in Hr.
    specialize (Hr eq_refl). discriminate.
  - unfold bind at 1, incr_retries, bind at 1, gets at 1, set_retries,
      bind at 1, gets at 1, bind at 1.
    cbn [state retries config options isStopped log io tick assigns].
    match goal with |- context [emit E ?ev ?w2] =>
      assert (He : retries (snd (emit E ev w2)) = retries w2)
        by (unfold emit; destruct (throws E _ ev); reflexivity);
      destruct (emit E ev w2) as [[[]|e|h] w3]; try discriminate
    end.
    cbn [snd retries] in He.
    intros Heq.
    pose proof (no_attempt_breakOrSleep w3) as (_ & _ & Hr & _).
    rewrite Heq in Hr. cbn [snd] in Hr.
    unfold same_counter in Hc. lia.
Qed.

(** The [catch] block always counts a retry before it continues. *)
Lemma attemptCatch_progress (err : Exn) (w w' : World) :
  attemptCatch E err w = (Ok FContinue, w') -> retries w + 1 <= retries w'.
Proof.
  unfold attemptCatch, bind at 1.
  pose proof (no_attempt_setError err w) as (_ & _ & Hr1 & _).
  destruct (setError E err w) as [[[]|e|h] w1]; cbn [snd] in Hr1;
    try discriminate.
  unfold bind at 1, incr_retries, bind at 1, gets at 1, set_retries.
  intros Heq.
  match type of Heq with breakOrSleep E ?w2 = _ =>
    pose proof (no_attempt_breakOrSleep w2) as (_ & _ & Hr2 & _) end.
  rewrite Heq in Hr2. cbn [snd retries] in Hr2. lia.
Qed.

(** One iteration: exactly one [attempt] is emitted; the configuration
    stays; the loop continues only with a larger retry counter; the
    model's budget is not what stops it. *)
Lemma attemptOnce_progress (w w' : World) (r : Res Flow) :
  attemptOnce E w = (r, w') ->
  config w' = config w /\
  (r = Ok FContinue -> retries w + 1 <= retries w') /\
  r <> Halt OutOfFuel /\
  exists evs,
    log w' = (log w ++ evs)%list /\ count is_attempt evs = 1%nat.
Proof.
  intros Heq.
  assert (Hfuel : r <> Halt OutOfFuel).
  { intros ->.
    apply (@avoids_attemptOnce E (fun h => h = OutOfFuel)
             (fun ev _ => callbacks_have_fuel E ev) w OutOfFuel); [|reflexivity].
    rewrite Heq. reflexivity. }
  revert Heq.
  unfold attemptOnce, bind at 1, gets at 1, bind at 1, emit.
  destruct (throws E _ _) as [e|].
  - intros Heq. injection Heq as <- <-.
    split; [reflexivity|]. split; [discriminate|]. split; [discriminate|].
    exists [Ev_attempt (retries w + 1)]. split; reflexivity.
  - set (w1 := record_event (Ev_attempt (retries w + 1)) w).
    unfold try_catch.
    pose proof (no_attempt_attemptTry w1) as (C2 & _ & R2 & ev2 & L2 & _ & F2).
    destruct (attemptTry E w1) as [[f|e|h] w2] eqn:Htry; cbn [snd] in *.
    + intros Heq. injection Heq as <- <-.
      split; [exact C2|]. split.
      * intros Hf. injection Hf as ->.
        apply attemptTry_progress in Htry. exact Htry.
      * split; [exact Hfuel|].
        exists ([Ev_attempt (retries w + 1)] ++ ev2)%list. split.
        -- rewrite L2. unfold w1. cbn [log record_event].
           rewrite <- app_assoc. reflexivity.
        -- rewrite count_app.
           rewrite (@forallb_count0 no_attempt is_attempt ev2); [reflexivity| |exact F2].
           intros ev Hev. unfold no_attempt in Hev.
           destruct (is_attempt ev); [discriminate|reflexivity].
    + pose proof (no_attempt_attemptCatch e w2) as (C3 & _ & R3 & ev3 & L3 & _ & F3).
      intros Heq. rewrite Heq in *. cbn [snd] in *.
      split; [rewrite C3, C2; reflexivity|]. split.
      * intros ->. apply attemptCatch_progress in Heq.
        unfold w1 in R2. cbn [retries record_event] in R2. lia.
      * split; [exact Hfuel|].
        exists ([Ev_attempt (retries w + 1)] ++ ev2 ++ ev3)%list. split.
        -- rewrite L3, L2. unfold w1. cbn [log record_event].
           repeat rewrite <- app_assoc. reflexivity.
        -- rewrite !count_app.
           assert (Hno : forall ev, no_attempt ev = true -> is_attempt ev = false).
           { intros ev Hev. unfold no_attempt in Hev.
             destruct (is_attempt ev); [discriminate|reflexivity]. }
           rewrite (@forallb_count0 no_attempt is_attempt ev2 Hno F2),
             (@forallb_count0 no_attempt is_attempt ev3 Hno F3).
           reflexivity.
    + intros Heq. injection Heq as <- <-.
      split; [exact C2|]. split; [discriminate|]. split; [exact Hfuel|].
      exists ([Ev_attempt (retries w + 1)] ++ ev2)%list. split.
      * rewrite L2. unfold w1. cbn [log record_event].
        rewrite <- app_assoc. reflexivity.
      * rewrite count_app.
        rewrite (@forallb_count0 no_attempt is_attempt ev2); [reflexivity| |exact F2].
        intros ev Hev. unfold no_attempt in Hev.
        destruct (is_attempt ev); [discriminate|reflexivity].
Qed.

(** The loop makes at most as many attempts as retries remain, and the
    budget [attemptFuel] is never what ends it. *)
Lemma attemptLoop_bounded (fuel : nat) :
  forall (w w' : World) (r : Res LoopExit),
    (Z.to_nat (maxRetries (config w) - retries w) <= fuel)%nat ->
    attemptLoop E fuel w = (r, w') ->
    r <> Halt OutOfFuel /\
    config w' = config w /\
    exists evs,
      log w' = (log w ++ evs)%list /\
      (count is_attempt evs <= Z.to_nat (maxRetries (config w) - retries w))%nat.
Proof.
  induction fuel as [|fuel IH]; intros w w' r Hfuel; cbn [attemptLoop].
  - assert (Hc : (retries w <? maxRetries (config w)) = false)
      by (apply Z.ltb_ge; lia).
    rewrite Hc, andb_false_r. intros Heq. injection Heq as <- <-.
    split; [discriminate|]. split; [reflexivity|].
    exists []. rewrite app_nil_r. split; [reflexivity|]. cbn. lia.
  - destruct (retries w <? maxRetries (config w)) eqn:Hc.
    2:{ rewrite andb_false_r. intros Heq. injection Heq as <- <-.
        split; [discriminate|]. split; [reflexivity|].
        exists []. rewrite app_nil_r. split; [reflexivity|]. cbn. lia. }
    apply Z.ltb_lt in Hc.
    destruct (negb (isStopped w)); cbn [andb].
    2:{ intros Heq. injection Heq as <- <-.
        split; [discriminate|]. split; [reflexivity|].
        exists []. rewrite app_nil_r. split; [reflexivity|]. cbn. lia. }
    unfold bind at 1.
    destruct (attemptOnce E w) as [r1 w1] eqn:H1.
    apply attemptOnce_progress in H1 as (C1 & P1 & F1 & ev1 & L1 & N1).
    destruct r1 as [[| |]|e|h].
    + unfold ret. intros Heq. injection Heq as <- <-.
      split; [discriminate|]. split; [exact C1|].
      exists ev1. split; [exact L1|]. rewrite N1. lia.
    + unfold ret. intros Heq. injection Heq as <- <-.
      split; [discriminate|]. split; [exact C1|].
      exists ev1. split; [exact L1|]. rewrite N1. lia.
    + specialize (P1 eq_refl). intros Heq.
      apply IH in Heq as (F2 & C2 & ev2 & L2 & N2); [|rewrite C1; lia].
      split; [exact F2|]. split; [rewrite C2; exact C1|].
      exists (ev1 ++ ev2)%list. split.
      * rewrite L2, L1, app_assoc. reflexivity.
      * rewrite count_app, N1. rewrite C1 in N2. lia.
    + intros Heq. injection Heq as <- <-.
      split; [discriminate|]. split; [exact C1|].
      exists ev1. split; [exact L1|]. rewrite N1. lia.
    + intros Heq. injection Heq as <- <-.
      split; [intros Hh; injection Hh as ->; apply F1; reflexivity|].
      split; [exact C1|].
      exists ev1. split; [exact L1|]. rewrite N1. lia.
Qed.

Lemma attemptConnectionLoop_bounded (w w' : World) (r : Res unit) :
  attemptConnectionLoop E w = (r, w') ->
  r <> Halt OutOfFuel /\
  config w' = config w /\
  exists evs,
    log w' = (log w ++ evs)%list /\
    (count is_attempt evs <= Z.to_nat (maxRetries (config w) - retries w))%nat.
Proof.
  unfold attemptConnectionLoop, bind at 1, gets at 1, bind at 1.
  destruct (attemptLoop E (attemptFuel w) w) as [r1 w1] eqn:H1.
  apply attemptLoop_bounded in H1 as (F1 & C1 & ev1 & L1 & N1);
    [|unfold attemptFuel; lia].
  destruct r1 as [[|]|e|h].
  - unfold ret. intros Heq. injection Heq as <- <-.
    split; [discriminate|]. split; [exact C1|]. exists ev1. auto.
  - intros Heq.
    assert (Hk : confined no_attempt w1 w').
    { assert (Hr : respects (confined no_attempt)
                     (set_state listening ;; emitStateChange E ;;
                      emit E Ev_listening)).
      { apply (@r_assign_notify E (confined no_attempt) _
                 (fun s => no_attempt (Ev_stateChange s))
                 (@confined_transition no_attempt)); [reflexivity|].
        apply r_emit_one. intros w0. apply confined_event. reflexivity. }
      specialize (Hr w1). rewrite Heq in Hr. exact Hr. }
    destruct Hk as (C2 & _ & _ & ev2 & L2 & _ & F2).
    split.
    + intros ->. revert Heq.
      cbv [bind set_state emitStateChange gets emit].
      repeat (destruct (throws E _ _)); discriminate.
    + split; [rewrite C2; exact C1|].
      exists (ev1 ++ ev2)%list. split.
      * rewrite L2, L1, app_assoc. reflexivity.
      * rewrite count_app.
        rewrite (@forallb_count0 no_attempt is_attempt ev2); [lia| |exact F2].
        intros ev Hev. unfold no_attempt in Hev.
        destruct (is_attempt ev); [discriminate|reflexivity].
  - intros Heq. injection Heq as <- <-.
    split; [discriminate|]. split; [exact C1|]. exists ev1. auto.
  - intros Heq. injection Heq as <- <-.
    split; [intros Hh; injection Hh as ->; apply F1; reflexivity|].
    split; [exact C1|]. exists ev1. auto.
Qed.

End Termination.

(** The loops of [start()] are bounded: the model's iteration budget is
    never exhausted, the configuration is unchanged, and at most
    [maxRetries] attempts are made. *)
Lemma start_bounded (E : Env) (w : World) :
  fst (start E w) <> Halt OutOfFuel /\
  config (snd (start E w)) = config w /\
  exists evs,
    log (snd (start E w)) = (log w ++ evs)%list /\
    (count is_attempt evs <= Z.to_nat (maxRetries (config w)))%nat.
Proof.
  assert (Hgen : forall r w', start E w = (r, w') ->
            r <> Halt OutOfFuel /\ config w' = config w /\
            exists evs, log w' = (log w ++ evs)%list /\
              (count is_attempt evs <= Z.to_nat (maxRetries (config w)))%nat).
  { intros r w'.
    unfold start, bind at 1, set_isStopped, bind at 1, set_state, bind at 1,
      set_retries, bind at 1, emitStateChange, bind at 1, gets at 1, emit.
    cbn [state retries config options isStopped log io tick assigns].
    destruct (throws E _ _) as [e|].
    - intros Heq. injection Heq as <- <-.
      split; [discriminate|]. split; [reflexivity|].
      exists [Ev_stateChange searching]. split; [reflexivity|]. cbn. lia.
    - unfold try_catch, record_event.
      cbn [state retries config options isStopped log io tick assigns].
      match goal with |- context [attemptConnectionLoop E ?w0] =>
        set (w1 := w0);
        destruct (attemptConnectionLoop E w1) as [r2 w2] eqn:H2 end.
      apply attemptConnectionLoop_bounded in H2 as (F2 & C2 & ev2 & L2 & N2).
      unfold w1 in C2, L2, N2.
      cbn [state retries config options isStopped log io tick assigns] in *.
      rewrite Z.sub_0_r in N2.
      destruct r2 as [[]|e|h].
      + intros Heq. injection Heq as <- <-.
        split; [discriminate|]. split; [exact C2|].
        exists ([Ev_stateChange searching] ++ ev2)%list. split.
        * rewrite L2, <- app_assoc. reflexivity.
        * rewrite count_app. cbn. exact N2.
      + intros Heq.
        pose proof (no_attempt_setError E e w2) as (C3 & _ & _ & ev3 & L3 & _ & F3).
        rewrite Heq in C3, L3. cbn [snd] in C3, L3.
        split.
        * intros ->. revert Heq.
          cbv [setError bind set_state emitStateChange gets emit].
          repeat (destruct (throws E _ _)); discriminate.
        * split; [rewrite C3; exact C2|].
          exists ([Ev_stateChange searching] ++ ev2 ++ ev3)%list. split.
          -- rewrite L3, L2. repeat rewrite <- app_assoc. reflexivity.
          -- rewrite !count_app.
             rewrite (@forallb_count0 no_attempt is_attempt ev3); [cbn; lia| |exact F3].
             intros ev Hev. unfold no_attempt in Hev.
             destruct (is_attempt ev); [discriminate|reflexivity].
      + intros Heq. injection Heq as <- <-.
        split; [exact F2|]. split; [exact C2|].
        exists ([Ev_stateChange searching] ++ ev2)%list. split.
        * rewrite L2, <- app_assoc. reflexivity.
        * rewrite count_app. cbn. exact N2. }
  destruct (start E w) as [r w'] eqn:Hs.
  exact (Hgen r w' eq_refl).
Qed.


(* ================================================================== *)
(** ** How a search ends *)

Section Search.

Variable E : Env.
Hypothesis Hp : passive E.
Hypothesis Hq : uninterrupted E.

(** A probe whose response satisfies line 159 announces the twin and
    resolves to [true]. *)
Lemma tryConnect_match (w : World) :
  matching (config w) (options w) (http E (tick w) (pingUrl (config w))) = true ->
  exists peer,
    peer <> botId (options w) /\
    tryConnectToGemelo E w =
    (Ok true,
     mkWorld (state w) (retries w) (config w) (options w) (isStopped w)
             (log w ++ [Ev_gemeloFound peer])
             (io w ++ [HttpGetAbortable (pingUrl (config w))
                                        (connectionTimeoutMs (config w))])
             (S (S (tick w))) (assigns w)).
Proof.
  intros Hm.
  unfold tryConnectToGemelo, try_catch, bind, gets, fetch, read_json, settle.
  rewrite !suspended_quiet by assumption.
  unfold matching in Hm.
  destruct (http E (tick w) (pingUrl (config w))) as [resp | e];
    [|discriminate].
  apply andb_prop in Hm as [Hok Hm]. rewrite Hok. cbn [negb].
  rewrite suspended_quiet by assumption.
  destruct (json_body resp) as [data | e]; [|discriminate].
  unfold next_tick, record_request.
  cbn [state retries config options isStopped log io tick assigns].
  rewrite Hm.
  apply isGemelo_spec in Hm as (code & peer & _ & _ & Hb & Hne).
  rewrite emit_passive by assumption.
  exists peer. split; [exact Hne|].
  rewrite Hb. reflexivity.
Qed.

End Search.

(** The search, by the first probe that matches. *)
Section SearchTimed.

Variable E : Env.
Hypothesis Hp : passive E.
Hypothesis Hq : uninterrupted E.

Lemma first_match_matches (c : SyncConfig) (o : SyncManagerOptions) (n : nat) :
  forall t k t',
    first_match E c o t n = Some (k, t') ->
    (k < n)%nat /\ matching c o (http E t' (pingUrl c)) = true.
Proof.
  induction n as [|n IH]; intros t k t'; cbn [first_match]; [discriminate|].
  cbv zeta.
  destruct (matching c o (http E t (pingUrl c))) eqn:Hm.
  - intros Heq. injection Heq as <- <-. split; [lia | exact Hm].
  - destruct (first_match E c o (t + response_awaits (http E t (pingUrl c)) + 1) n)
      as [[k0 t0]|] eqn:Hf; [|discriminate].
    intros Heq. injection Heq as <- <-.
    destruct (IH _ _ _ Hf) as [Hk Hm']. split; [lia | exact Hm'].
Qed.

Lemma matching_peer (c : SyncConfig) (o : SyncManagerOptions) (r : Settled Response) :
  matching c o r = true -> peer_of r <> botId o.
Proof.
  unfold matching, peer_of. destruct r as [resp | e]; [|discriminate].
  intros Hm. apply andb_prop in Hm as [_ Hm].
  destruct (json_body resp) as [data | e]; [|discriminate].
  apply isGemelo_spec in Hm as (code & peer & _ & _ & Hb & Hne).
  rewrite Hb. exact Hne.
Qed.

(** A probe whose response does not match, with the time it takes. *)
Lemma tryConnect_nomatch_timed (w : World) :
  matching (config w) (options w) (http E (tick w) (pingUrl (config w))) = false ->
  tryConnectToGemelo E w =
  (Ok false,
   with_io w
     (io w ++ [HttpGetAbortable (pingUrl (config w)) (connectionTimeoutMs (config w))])
     (tick w + response_awaits (http E (tick w) (pingUrl (config w))))).
Proof.
  intros Hm.
  unfold tryConnectToGemelo, try_catch, bind, gets, fetch, read_json, settle.
  rewrite !suspended_quiet by assumption.
  unfold matching in Hm. unfold response_awaits.
  destruct (http E (tick w) (pingUrl (config w))) as [resp | e]; cbn.
  - destruct (ok resp); cbn in *.
    + rewrite suspended_quiet by assumption.
      destruct (json_body resp) as [data | e]; cbn.
      * rewrite Hm. cbn. unfold ret, with_io, next_tick, record_request. cbn.
        do 2 f_equal. lia.
      * unfold ret, with_io, next_tick, record_request. cbn. do 2 f_equal. lia.
    + unfold ret, with_io, next_tick, record_request. cbn. do 2 f_equal. lia.
  - unfold ret, with_io, next_tick, record_request. cbn. do 2 f_equal. lia.
Qed.

Lemma attemptOnce_nomatch_timed (w : World) :
  matching (config w) (options w) (http E (tick w) (pingUrl (config w))) = false ->
  exists rqs,
    attemptOnce E w =
    (Ok (if retries w + 1 >=? maxRetries (config w) then FBreak else FContinue),
     mkWorld (state w) (retries w + 1) (config w) (options w) (isStopped w)
             (log w ++ [Ev_attempt (retries w + 1); Ev_retrying (retries w + 1)])
             rqs
             (if retries w + 1 >=? maxRetries (config w)
              then tick w + response_awaits (http E (tick w) (pingUrl (config w)))
              else tick w + response_awaits (http E (tick w) (pingUrl (config w))) + 1)
             (assigns w)).
Proof.
  intros Hm.
  unfold attemptOnce, bind at 1, gets at 1, bind at 1.
  rewrite emit_passive by assumption.
  unfold try_catch, attemptTry, bind at 1.
  rewrite (tryConnect_nomatch_timed (record_event (Ev_attempt (retries w + 1)) w) Hm).
  unfold incr_retries, breakOrSleep, bind, gets, set_retries, sleep; cbn.
  rewrite emit_passive by assumption; cbn.
  destruct (retries w + 1 >=? maxRetries (config w)); unfold ret; cbn;
    rewrite ?suspended_quiet by assumption;
    unfold record_event, record_request, next_tick, with_io; cbn;
    rewrite <- app_assoc; eexists; do 2 f_equal; f_equal; lia.
Qed.


(** A probe whose response matches announces the twin it names. *)
Lemma tryConnect_match_timed (w : World) :
  matching (config w) (options w) (http E (tick w) (pingUrl (config w))) = true ->
  tryConnectToGemelo E w =
  (Ok true,
   mkWorld (state w) (retries w) (config w) (options w) (isStopped w)
           (log w ++ [Ev_gemeloFound (peer_of (http E (tick w) (pingUrl (config w))))])
           (io w ++ [HttpGetAbortable (pingUrl (config w))
                                      (connectionTimeoutMs (config w))])
           (S (S (tick w))) (assigns w)).
Proof.
  intros Hm.
  unfold tryConnectToGemelo, try_catch, bind, gets, fetch, read_json, settle.
  rewrite !suspended_quiet by assumption.
  unfold matching in Hm. unfold peer_of.
  destruct (http E (tick w) (pingUrl (config w))) as [resp | e];
    [|discriminate].
  apply andb_prop in Hm as [Hok Hm]. rewrite Hok. cbn [negb].
  rewrite suspended_quiet by assumption.
  destruct (json_body resp) as [data | e]; [|discriminate].
  unfold next_tick, record_request.
  cbn [state retries config options isStopped log io tick assigns].
  rewrite Hm.
  rewrite emit_passive by assumption.
  reflexivity.
Qed.

Lemma attemptOnce_match_timed (w : World) :
  matching (config w) (options w) (http E (tick w) (pingUrl (config w))) = true ->
  attemptOnce E w =
  (Ok FReturn,
   snd (waitForDeploySignal E
          (mkWorld connected (retries w) (config w) (options w) (isStopped w)
                   (log w ++ [Ev_attempt (retries w + 1);
                              Ev_gemeloFound
                                (peer_of (http E (tick w) (pingUrl (config w))));
                              Ev_stateChange connected; Ev_connected])
                   (io w ++ [HttpGetAbortable (pingUrl (config w))
                                              (connectionTimeoutMs (config w))])
                   (S (S (tick w))) (assigns w ++ [connected])))).
Proof.
  intros Hm.
  unfold attemptOnce, bind at 1, gets at 1, bind at 1.
  rewrite emit_passive by assumption.
  unfold try_catch, attemptTry, bind at 1.
  rewrite (tryConnect_match_timed (record_event (Ev_attempt (retries w + 1)) w) Hm).
  unfold bind at 1, set_state, bind at 1.
  rewrite emitStateChange_passive by assumption.
  unfold bind at 1. rewrite emit_passive by assumption.
  unfold bind at 1, record_event.
  cbn [state retries config options isStopped log io tick assigns].
  repeat rewrite <- app_assoc. cbn [app].
  match goal with |- context [waitForDeploySignal E ?w0] =>
    rewrite (waitForDeploySignal_pair Hp w0) end.
  reflexivity.
Qed.

(** The searching loop, by the first probe that matches. *)
Lemma attemptLoop_first_match (n : nat) :
  forall (fuel : nat) (w : World),
    isStopped w = false ->
    maxRetries (config w) - retries w = Z.of_nat n ->
    (n <= fuel)%nat ->
    exists rqs t0,
      attemptLoop E fuel w =
      match first_match E (config w) (options w) (tick w) n with
      | None =>
          (Ok Exited,
           mkWorld (state w) (maxRetries (config w)) (config w) (options w) false
                   (log w ++ rounds (retries w) n) rqs t0 (assigns w))
      | Some (k, t) =>
          (Ok Returned,
           snd (waitForDeploySignal E
                  (mkWorld connected (retries w + Z.of_nat k) (config w) (options w)
                           false
                           (log w ++ rounds (retries w) k ++
                            [Ev_attempt (retries w + Z.of_nat k + 1);
                             Ev_gemeloFound (peer_of (http E t (pingUrl (config w))));
                             Ev_stateChange connected; Ev_connected])
                           rqs (S (S t)) (assigns w ++ [connected]))))
      end.
Proof.
  induction n as [|n IH]; intros fuel w Hs Hn Hf.
  - assert (Hc : (retries w <? maxRetries (config w)) = false)
      by (apply Z.ltb_ge; lia).
    exists (io w), (tick w). cbn [first_match].
    destruct fuel; cbn [attemptLoop]; rewrite Hs, Hc; cbn;
      rewrite app_nil_r; destruct w; cbn in *; subst;
      do 2 f_equal; lia.
  - destruct fuel as [|fuel]; [lia|].
    cbn [first_match]. cbv zeta.
    rewrite attemptLoop_step by (try assumption; lia).
    destruct (matching (config w) (options w)
                       (http E (tick w) (pingUrl (config w)))) eqn:Hm.
    + rewrite (attemptOnce_match_timed w Hm).
      eexists _, (tick w). cbn [rounds app Z.of_nat]. rewrite Z.add_0_r, Hs.
      reflexivity.
    + destruct (attemptOnce_nomatch_timed w Hm) as (rqs & ->).
      destruct (retries w + 1 >=? maxRetries (config w)) eqn:Hge.
      * apply Z.geb_le in Hge. assert (n = 0%nat) by lia. subst n.
        cbn [first_match]. eexists rqs, _. rewrite Hs.
        do 2 f_equal. lia.
      * rewrite Z.geb_leb in Hge. apply Z.leb_gt in Hge.
        match goal with |- context [attemptLoop E fuel ?w1] =>
          destruct (IH fuel w1) as (rqs' & t' & IH') end;
          cbn [state retries config options isStopped log io tick assigns];
          [exact Hs | lia | lia |].
        cbn [state retries config options isStopped log io tick assigns] in IH'.
        rewrite IH'. exists rqs', t'.
        destruct (first_match E (config w) (options w)
                    (tick w + response_awaits (http E (tick w) (pingUrl (config w))) + 1)
                    n) as [[k t]|].
        -- cbn [rounds]. repeat rewrite <- app_assoc. cbn [app].
           replace (retries w + Z.of_nat (S k)) with (retries w + 1 + Z.of_nat k) by lia.
           reflexivity.
        -- cbn [rounds]. repeat rewrite <- app_assoc. reflexivity.
Qed.

End SearchTimed.

(** [start()] with observers that return: the searching state, then the
    loop, then [listening] if the loop exited. *)
Lemma start_passive (E : Env) (w : World) :
  passive E ->
  let w0 := mkWorld searching 0 (config w) (options w) false
                    (log w ++ [Ev_stateChange searching]) (io w) (tick w)
                    (assigns w ++ [searching]) in
  start E w =
  match attemptLoop E (attemptFuel w0) w0 with
  | (Ok Returned, w1) => (Ok tt, w1)
  | (Ok Exited, w1) =>
      (Ok tt,
       mkWorld listening (retries w1) (config w1) (options w1) (isStopped w1)
               (log w1 ++ [Ev_stateChange listening; Ev_listening])
               (io w1) (tick w1) (assigns w1 ++ [listening]))
  | (Throw e, w1) => setError E e w1
  | (Halt h, w1) => (Halt h, w1)
  end.
Proof.
  intros Hp. cbv zeta.
  unfold start, bind at 1 2 3 4, set_isStopped, set_state, set_retries.
  rewrite emitStateChange_passive by assumption.
  unfold try_catch, attemptConnectionLoop, bind at 1 2, gets at 1.
  unfold record_event.
  cbn [state retries config options isStopped log io tick assigns].
  destruct (attemptLoop E _ _) as [[[|]|e|h] w1]; try reflexivity.
  unfold bind, set_state.
  rewrite emitStateChange_passive by assumption.
  rewrite emit_passive by assumption.
  unfold record_event.
  cbn [state retries config options isStopped log io tick assigns].
  rewrite <- app_assoc. reflexivity.
Qed.


(* ================================================================== *)
(** ** How a deployment ends *)

Section DeployRuns.

Variable E : Env.
Hypothesis Hp : passive E.
Hypothesis Hq : uninterrupted E.
Hypothesis Hdisk : disk_works E.

Lemma downloadAll_success (urls : list string) :
  forall w,
    (forall u, In u urls -> serves E u) ->
    exists rqs t,
      downloadAll E urls w =
      (Ok tt,
       mkWorld (state w) (retries w) (config w) (options w) (isStopped w)
               (log w ++ downloads E urls) rqs t (assigns w)).
Proof.
  induction urls as [|u urls IH]; intros w Hserve.
  - exists (io w), (tick w). cbn. rewrite app_nil_r. destruct w; reflexivity.
  - cbn [downloadAll]. unfold bind at 1. rewrite emit_passive by assumption.
    unfold bind at 1, fetch, settle.
    destruct (Hserve u (or_introl eq_refl) (tick (record_event (Ev_downloadStart u) w)))
      as (resp & data & Hr & Hok & Ht).
    rewrite Hr. rewrite suspended_quiet by assumption.
    unfold record_event, record_request, next_tick.
    cbn [state retries config options isStopped log io tick assigns].
    unfold bind at 1. rewrite Hok. cbn [negb]. unfold ret at 1.
    unfold bind at 1, ret at 1, bind at 1, gets at 1, bind at 1, ret at 1,
      bind at 1, read_text, settle.
    rewrite Ht. rewrite suspended_quiet by assumption.
    unfold next_tick.
    cbn [state retries config options isStopped log io tick assigns].
    unfold bind at 1, fs_call.
    cbn [state retries config options isStopped log io tick assigns].
    rewrite Hdisk.
    rewrite suspended_quiet by assumption.
    unfold record_request, next_tick.
    cbn [state retries config options isStopped log io tick assigns].
    unfold bind at 1. rewrite emit_passive by assumption.
    unfold record_event.
    cbn [state retries config options isStopped log io tick assigns].
    match goal with |- context [downloadAll E urls ?w1] =>
      pose proof (IH w1) as IH' end.
    cbn [state retries config options isStopped log io tick assigns] in IH'.
    destruct IH' as (rqs & t & ->).
    { intros u' Hu'. apply Hserve. right. exact Hu'. }
    exists rqs, t. unfold downloads. cbn [flat_map].
    repeat rewrite <- app_assoc. reflexivity.
Qed.

(** Everything up to the launch of the command. *)
Lemma deploy_until_launch (w : World) :
  (forall u, In u (botsFilesUrls (config w)) -> serves E u) ->
  exists rqs t,
    deployBots E w =
    try_catch
      (execCommand E (botsExecCommand (config w)) (deployPath (config w)) ;;
       emit E Ev_deploySuccess)
      (fun err => setError E err)
      (mkWorld (state w) (retries w) (config w) (options w) (isStopped w)
               (log w ++ [Ev_deployStart] ++
                downloads E (botsFilesUrls (config w)) ++
                [Ev_deployFilesWritten])
               rqs t (assigns w)).
Proof.
  intros Hserve.
  unfold deployBots, try_catch, deploySteps, bind at 1.
  rewrite emit_passive by assumption.
  unfold bind at 1, gets at 1, bind at 1, fs_call. rewrite Hdisk.
  rewrite suspended_quiet by assumption.
  unfold bind at 1, gets at 1, bind at 1.
  unfold record_event, record_request, next_tick.
  cbn [state retries config options isStopped log io tick assigns].
  match goal with |- context [downloadAll E ?us ?w1] =>
    pose proof (@downloadAll_success us w1 Hserve) as HD end.
  cbn [state retries config options isStopped log io tick assigns] in HD.
  destruct HD as (rqs & t & ->).
  unfold bind at 1. rewrite emit_passive by assumption.
  unfold bind at 1, gets at 1, bind at 1, gets at 1.
  unfold record_event.
  cbn [state retries config options isStopped log io tick assigns].
  exists rqs, t. repeat rewrite <- app_assoc. reflexivity.
Qed.

End DeployRuns.

Lemma deployBots_success_run (E : Env) (w : World) (out : string) :
  passive E -> uninterrupted E -> disk_works E ->
  (forall u, In u (botsFilesUrls (config w)) -> serves E u) ->
  (forall t, child E t = ExecOk out) ->
  exists w',
    deployBots E w = (Ok tt, w') /\
    state w' = state w /\
    assigns w' = assigns w /\
    log w' =
    (log w ++ [Ev_deployStart] ++ downloads E (botsFilesUrls (config w)) ++
     [Ev_deployFilesWritten; Ev_execStart (botsExecCommand (config w));
      Ev_execSuccess out; Ev_deploySuccess])%list.
Proof.
  intros Hp Hq Hdisk Hserve Hchild.
  destruct (@deploy_until_launch E Hp Hq Hdisk w Hserve) as (rqs & t & ->).
  unfold try_catch, bind at 1, execCommand, bind at 1.
  rewrite emit_passive by assumption.
  cbv zeta. rewrite Hchild.
  rewrite emit_in_callback_passive by assumption.
  rewrite emit_passive by assumption.
  rewrite suspended_quiet by assumption.
  unfold record_event, record_request, next_tick.
  cbn [state retries config options isStopped log io tick assigns].
  eexists. split; [reflexivity|].
  cbn [state retries config options isStopped log io tick assigns].
  split; [reflexivity|]. split; [reflexivity|].
  repeat rewrite <- app_assoc. reflexivity.
Qed.

(** X16. A deployment in which every step succeeds: [deployStart], the
    downloads in list order, [deployFilesWritten], the launch with its
    output, [deploySuccess]; the state is left as it was: success has no
    state of its own. *)
Theorem deployBots_success (E : Env) (w : World) (out : string) :
  passive E -> uninterrupted E -> disk_works E ->
  (forall u, In u (botsFilesUrls (config w)) -> serves E u) ->
  (forall t, child E t = ExecOk out) ->
  exists w',
    deployBots E w = (Ok tt, w') /\
    state w' = state w /\
    assigns w' = assigns w /\
    log w' =
    (log w ++ [Ev_deployStart] ++ downloads E (botsFilesUrls (config w)) ++
     [Ev_deployFilesWritten; Ev_execStart (botsExecCommand (config w));
      Ev_execSuccess out; Ev_deploySuccess])%list.
Proof. apply deployBots_success_run. Qed.


(** X18. A deployment whose directory cannot be created: nothing is
    downloaded and nothing is launched; the machine goes to [error] with
    the file-system error. *)
Theorem deployBots_mkdir_failure (E : Env) (w : World) (err : Exn) :
  passive E -> uninterrupted E ->
  fs E (tick w) = Some err ->
  deployBots E w =
  (Ok tt,
   mkWorld error (retries w) (config w) (options w) (isStopped w)
           (log w ++ [Ev_deployStart; Ev_stateChange error; Ev_error err])
           (io w ++ [Mkdir (deployPath (config w))]) (S (tick w))
           (assigns w ++ [error])).
Proof.
  intros Hp Hq Hfs.
  unfold deployBots, try_catch, deploySteps, bind at 1.
  rewrite emit_passive by assumption.
  unfold bind at 1, gets at 1, bind at 1, fs_call.
  cbn [tick record_event]. rewrite Hfs.
  rewrite suspended_quiet by assumption.
  rewrite setError_passive by assumption.
  unfold record_event, record_request, next_tick.
  cbn [state retries config options isStopped log io tick assigns].
  rewrite <- app_assoc. reflexivity.
Qed.

(* ================================================================== *)
(** ** How the signal-wait phase ends *)

Section SignalRuns.

Variable E : Env.
Hypothesis Hp : passive E.
Hypothesis Hq : uninterrupted E.

Lemma deployBots_pair (w : World) :
  deployBots E w = (Ok tt, snd (deployBots E w)).
Proof.
  pose proof (deployBots_ok Hp w) as Hok.
  destruct (deployBots E w) as [r w']. cbn [fst snd] in *. now subst r.
Qed.

(** An approving poll: [deploySignalReceived], then one deployment, then
    the loop returns. *)
Lemma pollOnce_approving (w : World) :
  approving (http E (tick w) (signalUrl (options w))) = true ->
  pollOnce E w =
  (Ok FReturn,
   snd (deployBots E
          (mkWorld (state w) (retries w) (config w) (options w) (isStopped w)
                   (log w ++ [Ev_deploySignalReceived])
                   (io w ++ [HttpGet (signalUrl (options w))])
                   (S (S (tick w))) (assigns w)))).
Proof.
  intros Ha.
  unfold pollOnce, try_catch, bind at 1, gets at 1, bind at 1, fetch, settle.
  rewrite suspended_quiet by assumption.
  unfold approving in Ha.
  destruct (http E (tick w) (signalUrl (options w))) as [resp | e];
    [|discriminate].
  apply andb_prop in Ha as [Hok Ha]. rewrite Hok.
  unfold bind at 1, read_json, settle.
  rewrite suspended_quiet by assumption.
  destruct (json_body resp) as [body | e]; [|discriminate].
  rewrite Ha.
  unfold bind at 1. rewrite emit_passive by assumption.
  unfold bind at 1, record_event, record_request, next_tick.
  cbn [state retries config options isStopped log io tick assigns].
  rewrite deployBots_pair. reflexivity.
Qed.

Lemma pollLoop_step (fuel : nat) (polls : Z) (w : World) :
  isStopped w = false ->
  polls < maxPolls ->
  pollLoop E (S fuel) polls w =
  match pollOnce E w with
  | (Ok FReturn, w1) => (Ok Returned, w1)
  | (Ok _, w1) =>
      pollLoop E fuel (polls + 1)
               (next_tick (record_request (Sleep (retryIntervalMs (config w1))) w1))
  | (Throw e, w1) => (Throw e, w1)
  | (Halt h, w1) => (Halt h, w1)
  end.
Proof.
  intros Hs Hc. apply Z.ltb_lt in Hc.
  cbn [pollLoop]. rewrite Hs, Hc. cbn [negb andb]. unfold bind at 1.
  destruct (pollOnce E w) as [[[| |]|e|h] w1]; try reflexivity;
    unfold bind, gets, sleep; rewrite suspended_quiet by assumption;
    reflexivity.
Qed.

End SignalRuns.

(** The signal-wait phase, by the first poll that approves. *)
Section SignalTimed.

Variable E : Env.
Hypothesis Hp : passive E.
Hypothesis Hq : uninterrupted E.

Lemma first_approval_bound (o : SyncManagerOptions) (n : nat) :
  forall t k t', first_approval E o t n = Some (k, t') -> (k < n)%nat.
Proof.
  induction n as [|n IH]; intros t k t'; cbn [first_approval]; [discriminate|].
  cbv zeta.
  destruct (approving (http E t (signalUrl o))).
  - intros Heq. injection Heq as <- <-. lia.
  - destruct (first_approval E o (t + response_awaits (http E t (signalUrl o)) + 1) n)
      as [[k0 t0]|] eqn:Hf; [|discriminate].
    intros Heq. injection Heq as <- <-. specialize (IH _ _ _ Hf). lia.
Qed.

(** A poll that does not approve, with the time it takes. *)
Lemma pollOnce_nonapproving_timed (w : World) :
  approving (http E (tick w) (signalUrl (options w))) = false ->
  exists errs,
    pollOnce E w =
    (Ok FContinue,
     mkWorld (state w) (retries w) (config w) (options w) (isStopped w)
             (log w ++ errs) (io w ++ [HttpGet (signalUrl (options w))])
             (tick w + response_awaits (http E (tick w) (signalUrl (options w))))
             (assigns w)) /\
    forallb is_error errs = true.
Proof.
  intros Ha.
  unfold pollOnce, try_catch, bind, gets, fetch, read_json, settle.
  rewrite suspended_quiet by assumption.
  unfold approving in Ha. unfold response_awaits.
  destruct (http E (tick w) (signalUrl (options w))) as [resp | e]; cbn.
  - destruct (ok resp); cbn in *.
    + rewrite suspended_quiet by assumption.
      destruct (json_body resp) as [body | e]; cbn.
      * rewrite Ha. unfold ret. worlds.
        exists []. rewrite app_nil_r. split; [|reflexivity].
        do 2 f_equal. lia.
      * rewrite emit_passive by assumption. unfold ret. worlds.
        exists [Ev_error e]. split; [|reflexivity]. do 2 f_equal. lia.
    + unfold ret. worlds.
      exists []. rewrite app_nil_r. split; [|reflexivity]. do 2 f_equal. lia.
  - rewrite emit_passive by assumption. unfold ret. worlds.
    exists [Ev_error e]. split; [|reflexivity]. do 2 f_equal. lia.
Qed.

(** The signal-wait loop, by the first poll that approves. *)
Lemma pollLoop_first_approval (n : nat) :
  forall (fuel : nat) (polls : Z) (w : World),
    isStopped w = false ->
    maxPolls - polls = Z.of_nat n ->
    (n <= fuel)%nat ->
    exists errs t0,
      forallb is_error errs = true /\
      pollLoop E fuel polls w =
      match first_approval E (options w) (tick w) n with
      | None =>
          (Ok Exited,
           mkWorld (state w) (retries w) (config w) (options w) false
                   (log w ++ errs)
                   (io w ++ polling (signalUrl (options w))
                                    (retryIntervalMs (config w)) n)
                   t0 (assigns w))
      | Some (k, t) =>
          (Ok Returned,
           snd (deployBots E
                  (mkWorld (state w) (retries w) (config w) (options w) false
                           (log w ++ errs ++ [Ev_deploySignalReceived])
                           (io w ++ polling (signalUrl (options w))
                                            (retryIntervalMs (config w)) k ++
                            [HttpGet (signalUrl (options w))])
                           (S (S t)) (assigns w))))
      end.
Proof.
  induction n as [|n IH]; intros fuel polls w Hs Hn Hf.
  - assert (Hc : (polls <? maxPolls) = false) by (apply Z.ltb_ge; lia).
    exists [], (tick w). split; [reflexivity|]. cbn [first_approval].
    destruct fuel; cbn [pollLoop]; rewrite Hs, Hc; cbn;
      rewrite !app_nil_r; destruct w; cbn in *; subst; reflexivity.
  - destruct fuel as [|fuel]; [lia|].
    cbn [first_approval]. cbv zeta.
    rewrite pollLoop_step by (try assumption; lia).
    destruct (approving (http E (tick w) (signalUrl (options w)))) eqn:Ha.
    + rewrite (pollOnce_approving Hp Hq w Ha).
      exists [], (tick w). split; [reflexivity|].
      cbn [polling app]. rewrite Hs. reflexivity.
    + destruct (pollOnce_nonapproving_timed w Ha) as (errs & -> & Herrs).
      unfold record_request, next_tick.
      cbn [state retries config options isStopped log io tick assigns].
      match goal with |- context [pollLoop E fuel ?p ?w1] =>
        destruct (IH fuel p w1) as (errs' & t' & He' & IH') end;
        cbn [state retries config options isStopped log io tick assigns];
        [exact Hs | lia | lia |].
      cbn [state retries config options isStopped log io tick assigns] in IH'.
      replace (S (tick w + response_awaits (http E (tick w) (signalUrl (options w)))))
        with (tick w + response_awaits (http E (tick w) (signalUrl (options w))) + 1)%nat
        in IH' |- * by lia.
      rewrite IH'.
      exists (errs ++ errs')%list, t'.
      split; [rewrite forallb_app, Herrs, He'; reflexivity|].
      destruct (first_approval E (options w)
                  (tick w + response_awaits (http E (tick w) (signalUrl (options w))) + 1)
                  n) as [[k t]|];
        cbn [polling]; repeat rewrite <- app_assoc; reflexivity.
Qed.

End SignalTimed.


(* ================================================================== *)
(** ** The run in which everything succeeds *)

Section HappyPath.

Variable E : Env.
Hypothesis Hp : passive E.
Hypothesis Hq : uninterrupted E.

(** A matching probe hands over to the signal-wait phase in the state
    [connected]. *)
Lemma attemptOnce_match_run (w : World) :
  matching (config w) (options w) (http E (tick w) (pingUrl (config w))) = true ->
  exists peer,
    peer <> botId (options w) /\
    attemptOnce E w =
    (Ok FReturn,
     snd (waitForDeploySignal E
            (mkWorld connected (retries w) (config w) (options w) (isStopped w)
                     (log w ++ [Ev_attempt (retries w + 1); Ev_gemeloFound peer;
                                Ev_stateChange connected; Ev_connected])
                     (io w ++ [HttpGetAbortable (pingUrl (config w))
                                                (connectionTimeoutMs (config w))])
                     (S (S (tick w))) (assigns w ++ [connected])))).
Proof.
  intros Hm.
  unfold attemptOnce, bind at 1, gets at 1, bind at 1.
  rewrite emit_passive by assumption.
  unfold try_catch, attemptTry, bind at 1.
  destruct (tryConnect_match Hp Hq (record_event (Ev_attempt (retries w + 1)) w) Hm)
    as (peer & Hne & ->).
  unfold bind at 1, set_state, bind at 1.
  rewrite emitStateChange_passive by assumption.
  unfold bind at 1. rewrite emit_passive by assumption.
  unfold bind at 1, record_event.
  cbn [state retries config options isStopped log io tick assigns].
  repeat rewrite <- app_assoc. cbn [app].
  match goal with |- context [waitForDeploySignal E ?w0] =>
    rewrite (waitForDeploySignal_pair Hp w0) end.
  unfold ret. exists peer. split; [exact Hne | reflexivity].
Qed.

(** Approval at the first poll. *)
Lemma waitForDeploySignal_approved_first (w : World) :
  isStopped w = false ->
  approving (http E (tick w) (signalUrl (options w))) = true ->
  waitForDeploySignal E w =
  (Ok tt,
   snd (deployBots E
          (mkWorld deploying (retries w) (config w) (options w) false
                   (log w ++ [Ev_waitingDeploySignal; Ev_stateChange deploying;
                              Ev_deploySignalReceived])
                   (io w ++ [HttpGet (signalUrl (options w))])
                   (S (S (tick w))) (assigns w ++ [deploying])))).
Proof.
  intros Hs Ha.
  unfold waitForDeploySignal, bind at 1. rewrite emit_passive by assumption.
  unfold bind at 1, set_state, bind at 1.
  rewrite emitStateChange_passive by assumption.
  unfold bind at 1, record_event.
  cbn [state retries config options isStopped log io tick assigns].
  assert (Hfuel : exists f, Z.to_nat maxPolls = S f)
    by (exists 29%nat; vm_compute; reflexivity).
  destruct Hfuel as (f & ->).
  rewrite (@pollLoop_step E Hq f 0) by (try assumption; reflexivity).
  rewrite (pollOnce_approving Hp Hq) by exact Ha.
  cbn [state retries config options isStopped log io tick assigns].
  rewrite Hs. repeat rewrite <- app_assoc. reflexivity.
Qed.

End HappyPath.

(** X20. When the twin answers, the deploy signal approves, the files are
    served and the command succeeds, [start()] goes through [searching],
    [connected] and [deploying] with one attempt and no retry, emits the
    notifications of each step in order, and ends, resolved, in the
    state [deploying]. *)
Theorem start_happy_path (E : Env) (w : World) (out : string) :
  passive E -> uninterrupted E -> disk_works E ->
  0 < maxRetries (config w) ->
  (forall t, matching (config w) (options w)
                      (http E t (pingUrl (config w))) = true) ->
  (forall t, approving (http E t (signalUrl (options w))) = true) ->
  (forall u, In u (botsFilesUrls (config w)) -> serves E u) ->
  (forall t, child E t = ExecOk out) ->
  exists peer w',
    peer <> botId (options w) /\
    start E w = (Ok tt, w') /\
    state w' = deploying /\
    retries w' = 0 /\
    assigns w' = (assigns w ++ [searching; connected; deploying])%list /\
    log w' =
    (log w ++
     [Ev_stateChange searching; Ev_attempt 1; Ev_gemeloFound peer;
      Ev_stateChange connected; Ev_connected; Ev_waitingDeploySignal;
      Ev_stateChange deploying; Ev_deploySignalReceived; Ev_deployStart] ++
     downloads E (botsFilesUrls (config w)) ++
     [Ev_deployFilesWritten; Ev_execStart (botsExecCommand (config w));
      Ev_execSuccess out; Ev_deploySuccess])%list.
Proof.
  intros Hp Hq Hdisk Hmax Hping Hsignal Hserve Hchild.
  rewrite (start_passive w Hp). cbv zeta.
  assert (Hfuel : exists f,
             attemptFuel
               (mkWorld searching 0 (config w) (options w) false
                        (log w ++ [Ev_stateChange searching]) (io w) (tick w)
                        (assigns w ++ [searching])) = S f).
  { unfold attemptFuel.
    cbn [state retries config options isStopped log io tick assigns].
    exists (Z.to_nat (maxRetries (config w) - 0) - 1)%nat. lia. }
  destruct Hfuel as (f & ->).
  rewrite attemptLoop_step by (cbn; first [reflexivity | lia]).
  match goal with |- context [attemptOnce E ?w0] =>
    destruct (@attemptOnce_match_run E Hp Hq w0 (Hping _)) as (peer & Hne & ->)
  end.
  cbn [state retries config options isStopped log io tick assigns].
  rewrite (waitForDeploySignal_approved_first Hp Hq)
    by (first [reflexivity | apply Hsignal]).
  cbn [snd state retries config options isStopped log io tick assigns].
  match goal with |- context [deployBots E ?w3] =>
    pose proof (same_counter_deployBots E w3) as Hc;
    destruct (@deployBots_success_run E w3 out Hp Hq Hdisk Hserve Hchild)
      as (w' & Heq & S' & A' & L')
  end.
  rewrite Heq in Hc |- *. unfold same_counter in Hc.
  cbn [snd state retries config options isStopped log io tick assigns] in *.
  exists peer, w'. split; [exact Hne|]. split; [reflexivity|].
  split; [exact S'|]. split; [exact Hc|]. split.
  - rewrite A'. repeat rewrite <- app_assoc. reflexivity.
  - rewrite L'. repeat rewrite <- app_assoc. reflexivity.
Qed.

(* ================================================================== *)
(** ** Exactly one verdict *)



(* ================================================================== *)
(** ** The configuration is immutable *)

Lemma start_keeps_setup (E : Env) (w : World) :
  config (snd (start E w)) = config w /\ options (snd (start E w)) = options w.
Proof.
  assert (Hr : respects (confined start_alphabet)
                 (try_catch (attemptConnectionLoop E) (fun err => setError E err))).
  { apply respects_try_catch; [apply confined_attemptConnectionLoop|].
    intros e.
    apply (@r_setError E (confined start_alphabet) _
             (fun ev => start_alphabet ev && negb (is_stateChange ev))
             (fun s => start_alphabet (Ev_stateChange s)));
      confine. }
  assert (Hgen : forall r w', start E w = (r, w') ->
                   config w' = config w /\ options w' = options w).
  { intros r w'.
    unfold start, bind at 1, set_isStopped, bind at 1, set_state, bind at 1,
      set_retries, bind at 1, emitStateChange, bind at 1, gets at 1, emit.
    cbn [state retries config options isStopped log io tick assigns].
    destruct (throws E _ _) as [e|].
    - intros Heq. injection Heq as <- <-. split; reflexivity.
    - match goal with |- context [try_catch _ _ ?w0] => set (w1 := w0) end.
      intros Heq. destruct (Hr w1) as (Hc & Ho & _).
      rewrite Heq in Hc, Ho. cbn [snd] in Hc, Ho.
      rewrite Hc, Ho. split; reflexivity. }
  destruct (start E w) as [r w'] eqn:Hs. exact (Hgen r w' eq_refl).
Qed.

(** X22. No sequence of public operations, in any environment, changes the
    configuration or the options the manager was built with. *)
Theorem configuration_immutable (E : Env) (calls : list Call) (w : World) :
  config (after_calls E calls w) = config w /\
  options (after_calls E calls w) = options w.
Proof.
  revert w. induction calls as [|c calls IH]; intros w; [split; reflexivity|].
  cbn [after_calls fold_left].
  assert (Hstep : config (snd (perform E c w)) = config w /\
                  options (snd (perform E c w)) = options w).
  { destruct c; cbn [perform].
    - apply start_keeps_setup.
    - rewrite stop_world. split; reflexivity.
    - destruct (confined_wakeUpGemelo E w) as (Hc & Ho & _). split; assumption. }
  destruct Hstep as [Hc Ho].
  destruct (IH (snd (perform E c w))) as [Hc' Ho'].
  unfold after_calls in *. rewrite Hc', Ho', Hc, Ho. split; reflexivity.
Qed.

(* ================================================================== *)
(** ** Instances of the further properties *)

Lemma env_up_passive (b : bool) : passive (env_up b).
Proof. intros n ev. reflexivity. Qed.

Lemma env_up_uninterrupted (b : bool) : uninterrupted (env_up b).
Proof. intros t. reflexivity. Qed.

Lemma env_up_disk (b : bool) : disk_works (env_up b).
Proof. intros t. reflexivity. Qed.

Lemma env_up_serves (b : bool) (u : string) :
  In u (botsFilesUrls (config manager3)) -> serves (env_up b) u.
Proof.
  intros Hu t. cbn in Hu.
  destruct Hu as [<- | [<- | [<- | []]]];
    exists (okText "// bot"), "// bot"; repeat split; reflexivity.
Qed.

Lemma isSyncData_ignores_other_fields_witness :
  isSyncData (JObject ([("internalCode", JNumber 720)] ++
                       ("uptime", JNumber 5) :: [("botId", JString "other")])) =
  isSyncData (JObject ([("internalCode", JNumber 720)] ++
                       [("botId", JString "other")])).
Proof.
  apply (@isSyncData_ignores_other_fields
           [("internalCode", JNumber 720)] [("botId", JString "other")]
           "uptime" (JNumber 5)); discriminate.
Defined.

Lemma env_late_passive : passive env_late.
Proof. intros n ev. reflexivity. Qed.

Lemma env_late_uninterrupted : uninterrupted env_late.
Proof. intros t. reflexivity. Qed.


Lemma deployBots_success_witness :
  exists w',
    deployBots (env_up false) manager3 = (Ok tt, w') /\
    state w' = idle /\
    log w' =
    ([Ev_deployStart] ++ downloads (env_up false) (botsFilesUrls (config manager3)) ++
     [Ev_deployFilesWritten; Ev_execStart "node bot.js";
      Ev_execSuccess "started"; Ev_deploySuccess])%list.
Proof.
  destruct (@deployBots_success (env_up false) manager3 "started"
              (env_up_passive false) (env_up_uninterrupted false)
              (env_up_disk false) (env_up_serves false))
    as (w' & H1 & H2 & _ & H4).
  - intros t. reflexivity.
  - exists w'. repeat split; assumption.
Defined.


Lemma deployBots_mkdir_failure_witness :
  deployBots env_disk_full manager3 =
  (Ok tt,
   mkWorld error 0 (config manager3) (options manager3) false
           [Ev_deployStart; Ev_stateChange error; Ev_error diskError]
           [Mkdir "./deployedBots"] 1%nat [error]).
Proof.
  apply (@deployBots_mkdir_failure env_disk_full manager3 diskError).
  - intros n ev. reflexivity.
  - intros t. reflexivity.
  - reflexivity.
Defined.



Lemma start_happy_path_witness :
  exists peer w',
    start (env_up false) manager3 = (Ok tt, w') /\
    state w' = deploying /\
    retries w' = 0 /\
    assigns w' = [searching; connected; deploying] /\
    peer <> "me".
Proof.
  destruct (@start_happy_path (env_up false) manager3 "started"
              (env_up_passive false) (env_up_uninterrupted false)
              (env_up_disk false))
    as (peer & w' & H0 & H1 & H2 & H3 & H4 & _).
  - reflexivity.
  - intros t. reflexivity.
  - intros t. reflexivity.
  - apply env_up_serves.
  - intros t. reflexivity.
  - exists peer, w'. repeat split; assumption.
Defined.

(* ================================================================== *)
(** ** The requests of a search *)

Lemma tryConnect_requests (E : Env) (w : World) :
  io (snd (tryConnectToGemelo E w)) =
  (io w ++ [HttpGetAbortable (pingUrl (config w))
                             (connectionTimeoutMs (config w))])%list.
Proof.
  unfold tryConnectToGemelo, try_catch, bind at 1, gets at 1, bind at 1,
    gets at 1, bind at 1, fetch, settle.
  set (w1 := suspended E _).
  assert (H1 : io w1 = (io w ++ [HttpGetAbortable (pingUrl (config w))
                                   (connectionTimeoutMs (config w))])%list)
    by (unfold w1; rewrite suspended_io; reflexivity).
  destruct (http E (tick w) (pingUrl (config w))) as [resp | e];
    [|exact H1].
  destruct (negb (ok resp)); [exact H1|].
  unfold bind at 1, read_json, settle.
  assert (H2 : io (suspended E w1) = io w1) by apply suspended_io.
  destruct (json_body resp) as [data | e]; [|rewrite <- H1, <- H2; reflexivity].
  unfold bind at 1, gets at 1, bind at 1, gets at 1.
  destruct (isGemelo _ _ data).
  - unfold bind, emit, ret. destruct (throws E _ _); cbn [snd io record_event];
      rewrite H2; exact H1.
  - unfold ret. cbn [snd]. rewrite H2. exact H1.
Qed.

(** X23. A probe issues exactly one request, to the ping URL with the
    connection timeout, in any environment and whatever the answer. *)
Theorem tryConnectToGemelo_one_request (E : Env) (w : World) :
  io (snd (tryConnectToGemelo E w)) =
  (io w ++ [HttpGetAbortable (pingUrl (config w))
                             (connectionTimeoutMs (config w))])%list.
Proof. apply tryConnect_requests. Qed.

(** X24. An observer of [gemeloFound] that throws turns a valid answer of the
    twin into a failed probe: the notification is emitted inside the
    [try] block of the probe. *)
Theorem tryConnectToGemelo_observer_throws (E : Env) (w : World) :
  (forall n peer, exists e, throws E n (Ev_gemeloFound peer) = Some e) ->
  fst (tryConnectToGemelo E w) = Ok false.
Proof.
  intros Hthrow. rewrite tryConnect_result. f_equal.
  destruct (http E (tick w) (pingUrl (config w))) as [resp | e]; [|reflexivity].
  destruct (json_body resp) as [data | e]; [|apply andb_false_r].
  match goal with |- context [throws E ?n ?ev] =>
    destruct (Hthrow n (as_string (prop data "botId"))) as (e & ->) end.
  rewrite !andb_false_r. reflexivity.
Qed.

Section SearchRequests.

Variable E : Env.
Hypothesis Hp : passive E.
Hypothesis Hq : uninterrupted E.

Lemma attemptOnce_nomatch_requests (w : World) :
  matching (config w) (options w) (http E (tick w) (pingUrl (config w))) = false ->
  exists t,
    attemptOnce E w =
    (Ok (if retries w + 1 >=? maxRetries (config w) then FBreak else FContinue),
     mkWorld (state w) (retries w + 1) (config w) (options w) (isStopped w)
             (log w ++ [Ev_attempt (retries w + 1); Ev_retrying (retries w + 1)])
             (io w ++
              HttpGetAbortable (pingUrl (config w)) (connectionTimeoutMs (config w))
              :: (if retries w + 1 >=? maxRetries (config w) then []
                  else [Sleep (retryIntervalMs (config w))]))
             t (assigns w)).
Proof.
  intros Hm.
  unfold attemptOnce, bind at 1, gets at 1, bind at 1.
  rewrite emit_passive by assumption.
  unfold try_catch, attemptTry, bind at 1.
  pose proof (tryConnect_requests E
                (record_event (Ev_attempt (retries w + 1)) w)) as Hio.
  destruct (tryConnect_nomatch (record_event (Ev_attempt (retries w + 1)) w) Hq Hm)
    as (rqs & t & Heq).
  rewrite Heq in Hio |- *.
  unfold with_io, record_event in Hio. cbn [snd io config] in Hio. subst rqs.
  unfold incr_retries, breakOrSleep, bind, gets, set_retries, sleep; cbn.
  rewrite emit_passive by assumption; cbn.
  destruct (retries w + 1 >=? maxRetries (config w)); unfold ret; cbn;
    rewrite ?suspended_quiet by assumption; worlds;
    repeat rewrite <- app_assoc; eexists; reflexivity.
Qed.

Lemma attemptLoop_never_matching_requests (n : nat) :
  forall (fuel : nat) (w : World),
    never_matching E (config w) (options w) ->
    isStopped w = false ->
    maxRetries (config w) - retries w = Z.of_nat n ->
    (n <= fuel)%nat ->
    io (snd (attemptLoop E fuel w)) =
    (io w ++ probing (pingUrl (config w)) (connectionTimeoutMs (config w))
                     (retryIntervalMs (config w)) n)%list.
Proof.
  induction n as [|n IH]; intros fuel w Hnm Hs Hn Hf.
  - assert (Hc : (retries w <? maxRetries (config w)) = false)
      by (apply Z.ltb_ge; lia).
    destruct fuel; cbn [attemptLoop]; rewrite Hs, Hc; cbn;
      rewrite app_nil_r; reflexivity.
  - destruct fuel as [|fuel]; [lia|].
    rewrite attemptLoop_step by (try assumption; lia).
    destruct (attemptOnce_nomatch_requests w (Hnm (tick w))) as (t & ->).
    destruct (retries w + 1 >=? maxRetries (config w)) eqn:Hge.
    + apply Z.geb_le in Hge. assert (n = 0%nat) by lia. subst n.
      reflexivity.
    + rewrite Z.geb_leb in Hge. apply Z.leb_gt in Hge.
      rewrite IH; cbn [state retries config options isStopped log io tick assigns];
        try assumption; try lia.
      destruct n as [|n]; [lia|].
      cbn [probing]. repeat rewrite <- app_assoc. reflexivity.
Qed.

End SearchRequests.

(** X25. A search that finds nothing, with [maxRetries = N]: [N] probes, each
    with the configured connection timeout, separated by sleeps of
    [retryIntervalMs]; no sleep follows the last attempt. *)
Theorem start_never_matching_requests (E : Env) (w : World) (N : nat) :
  passive E -> uninterrupted E ->
  never_matching E (config w) (options w) ->
  maxRetries (config w) = Z.of_nat N ->
  io (snd (start E w)) =
  (io w ++ probing (pingUrl (config w)) (connectionTimeoutMs (config w))
                   (retryIntervalMs (config w)) N)%list.
Proof.
  intros Hp Hq Hnm HN.
  rewrite (start_passive w Hp). cbv zeta.
  match goal with |- context [attemptLoop E ?f ?w1] =>
    pose proof (@attemptLoop_never_matching_requests E Hp Hq N f w1) as HL;
    pose proof (@attemptLoop_never_matching E N Hp Hq f w1) as HR
  end.
  cbn [state retries config options isStopped log io tick assigns] in HL, HR.
  destruct HR as (rqs & t & HR);
    [exact Hnm | reflexivity | lia | unfold attemptFuel; cbn; lia |].
  rewrite HR in HL |- *. cbn [snd io] in HL |- *.
  apply HL; [exact Hnm | reflexivity | lia | unfold attemptFuel; cbn; lia].
Qed.

Lemma start_never_matching_requests_witness :
  io (snd (start env_down manager3)) =
  [HttpGetAbortable "https://t/sync/ping?botId=me" 8000; Sleep 10;
   HttpGetAbortable "https://t/sync/ping?botId=me" 8000; Sleep 10;
   HttpGetAbortable "https://t/sync/ping?botId=me" 8000].
Proof.
  apply (@start_never_matching_requests env_down manager3 3).
  - intros n ev. reflexivity.
  - intros t. reflexivity.
  - intros t. reflexivity.
  - reflexivity.
Defined.

Lemma tryConnectToGemelo_observer_throws_witness :
  fst (tryConnectToGemelo
         (mkEnv (http (env_peer None)) (fs (env_peer None))
                (child (env_peer None)) (stops (env_peer None))
                (fun _ _ => Some observerError)
                (basename (env_peer None)) (resolve (env_peer None)))
         manager3) = Ok false.
Proof.
  apply tryConnectToGemelo_observer_throws.
  intros n peer. exists observerError. reflexivity.
Defined.

(* ================================================================== *)
(** ** [stop()] during a deployment *)

Section DeployUninterruptible.

Variable E : Env.
Hypothesis Hp : passive E.
Hypothesis Hdisk : disk_works E.

Lemma downloadAll_completes (urls : list string) :
  forall w,
    (forall u, In u urls -> serves E u) ->
    exists w',
      downloadAll E urls w = (Ok tt, w') /\ config w' = config w.
Proof.
  induction urls as [|u urls IH]; intros w Hserve.
  - exists w. split; reflexivity.
  - cbn [downloadAll]. unfold bind at 1. rewrite emit_passive by assumption.
    unfold bind at 1, fetch, settle.
    destruct (Hserve u (or_introl eq_refl)
                     (tick (record_event (Ev_downloadStart u) w)))
      as (resp & data & Hr & Hok & Ht).
    rewrite Hr.
    set (w1 := suspended E _).
    assert (C1 : config w1 = config w)
      by (unfold w1; rewrite (proj1 (suspended_config E _)); reflexivity).
    unfold bind at 1. rewrite Hok. cbn [negb]. unfold ret at 1.
    unfold bind at 1, ret at 1, bind at 1, gets at 1, bind at 1, ret at 1,
      bind at 1, read_text, settle.
    rewrite Ht.
    set (w2 := suspended E w1).
    assert (C2 : config w2 = config w1)
      by (unfold w2; apply (proj1 (suspended_config E _))).
    unfold bind at 1, fs_call. rewrite Hdisk.
    set (w3 := suspended E _).
    assert (C3 : config w3 = config w2)
      by (unfold w3; rewrite (proj1 (suspended_config E _)); reflexivity).
    unfold bind at 1. rewrite emit_passive by assumption.
    destruct (IH (record_event (Ev_downloadComplete (basename E u)) w3))
      as (w' & -> & C').
    { intros u' Hu'. apply Hserve. right. exact Hu'. }
    exists w'. split; [reflexivity|].
    rewrite C'. cbn [config record_event]. congruence.
Qed.

End DeployUninterruptible.

(** X26. [stop()] does not cancel a deployment in progress: when the
    directory can be created, the files are served and the command
    succeeds, [deployBots] completes and ends with [execSuccess] and
    [deploySuccess], at whichever of its [await]s [stop()] is called. *)
Theorem deployBots_ignores_stop (E : Env) (w : World) (out : string) :
  passive E -> disk_works E ->
  (forall u, In u (botsFilesUrls (config w)) -> serves E u) ->
  (forall t, child E t = ExecOk out) ->
  exists w' evs,
    deployBots E w = (Ok tt, w') /\
    log w' = (evs ++ [Ev_execSuccess out; Ev_deploySuccess])%list.
Proof.
  intros Hp Hdisk Hserve Hchild.
  unfold deployBots, try_catch, deploySteps, bind at 1.
  rewrite emit_passive by assumption.
  unfold bind at 1, gets at 1, bind at 1, fs_call. rewrite Hdisk.
  set (w1 := suspended E _).
  assert (C1 : config w1 = config w)
    by (unfold w1; rewrite (proj1 (suspended_config E _)); reflexivity).
  unfold bind at 1, gets at 1, bind at 1.
  destruct (@downloadAll_completes E Hp Hdisk (botsFilesUrls (config w1)) w1)
    as (w2 & -> & C2).
  { rewrite C1. exact Hserve. }
  unfold bind at 1. rewrite emit_passive by assumption.
  unfold bind at 1, gets at 1, bind at 1, gets at 1, bind at 1, execCommand,
    bind at 1.
  rewrite emit_passive by assumption.
  cbv zeta. rewrite Hchild.
  rewrite emit_in_callback_passive by assumption.
  rewrite emit_passive by assumption.
  eexists _, _. split; [reflexivity|].
  cbn [log record_event]. rewrite <- app_assoc. reflexivity.
Qed.

Lemma deployBots_ignores_stop_witness :
  exists w' evs,
    deployBots
      (mkEnv (http (env_up false)) (fs (env_up false)) (child (env_up false))
             (fun _ => true)
             (throws (env_up false)) (basename (env_up false))
             (resolve (env_up false)))
      manager3 = (Ok tt, w') /\
    log w' = (evs ++ [Ev_execSuccess "started"; Ev_deploySuccess])%list.
Proof.
  apply (@deployBots_ignores_stop
           (mkEnv (http (env_up false)) (fs (env_up false)) (child (env_up false))
                  (fun _ => true)
                  (throws (env_up false)) (basename (env_up false))
                  (resolve (env_up false)))
           manager3 "started").
  - intros n ev. reflexivity.
  - intros t. reflexivity.
  - intros u Hu t. cbn in Hu.
    destruct Hu as [<- | [<- | [<- | []]]];
      exists (okText "// bot"), "// bot"; repeat split; reflexivity.
  - intros t. reflexivity.
Defined.
